(** * MemobaseManager: the memory session manager of
      custom_components/openai_compatible_conversation/memobase_client.py

    The manager is embedded as a program over an explicit effect signature:
    reads and writes of the fields of [self], awaited calls on the remote
    Memobase client and on the user handle, [asyncio.sleep], the connection
    lock and the logger.  A sequential interpreter runs one call against a
    deterministic remote service and returns the outcome, the manager, the
    remote state and the events of the call in order; a task pool runs
    several callers under a cooperative scheduler. *)

From Stdlib Require Import String List ZArith Bool Arith Lia.
Import ListNotations.
Open Scope string_scope.
Open Scope list_scope.

Set Implicit Arguments.

(** ** Python values *)

(** Exceptions below [Exception]: what [except Exception] catches, and
    what a remote call raises when it fails.  asyncio.CancelledError is not
    one of them; it is thrown into a caller that is cancelled, see
    [run_cancelled]. *)
Inductive Exn : Type :=
| Exception (msg : string)
| AttributeError (msg : string).

(** What an awaited call produces: a value, or a raised exception. *)
Inductive Result (X : Type) : Type :=
| Ok (x : X)
| Err (e : Exn).
Arguments Err {X} e.

(** A dict literal with string keys and values, in insertion order. *)
Definition PyDict : Type := list (string * string).

Fixpoint dict_get (d : PyDict) (key : string) : option string :=
  match d with
  | [] => None
  | (k, v) :: d' => if String.eqb k key then Some v else dict_get d' key
  end.

(** [ChatBlob(messages=...)] of the memobase package. *)
Record ChatBlob : Type := mkChatBlob { messages : list PyDict }.

(** A parameter with a default value: [None] is the argument left out. *)
Definition or_default {T : Type} (d : T) (o : option T) : T :=
  match o with Some x => x | None => d end.

(** Truth value of an [Optional[str]]: [None] and the empty string are false. *)
Definition truthy (o : option string) : bool :=
  match o with
  | None => false
  | Some s => negb (String.eqb s "")
  end.

(** ** Logging *)

Inductive Level : Type := DEBUG | INFO | WARNING | ERROR.

Inductive LogArg : Type :=
| AStr (s : string)
| ANat (n : nat)
| AErr (e : Exn)
| ANone.

Definition arg_of_id (o : option string) : LogArg :=
  match o with Some s => AStr s | None => ANone end.

Record LogRecord : Type := mkLog { level : Level; fmt : string; args : list LogArg }.

(** ** The remote client

    [AsyncMemobaseClient] and the user object it hands out are an external
    package: they are an interface here.  The service is a deterministic
    machine over its own state; every call answers with a value or an
    exception and moves the state. *)
Class RemoteClient : Type := {
  World : Type;
  UserHandle : Type;
  client_ping : World -> Result bool * World;
  client_get_user : string -> World -> Result UserHandle * World;
  client_add_user : PyDict -> World -> Result string * World;
  user_insert : UserHandle -> ChatBlob -> World -> Result unit * World;
  user_context :
    UserHandle -> Z -> option (list string) -> World -> Result string * World;
  user_flush : UserHandle -> World -> Result unit * World
}.

Section Manager.

Context {RC : RemoteClient}.

(** ** The manager

    [hass] is stored and never used; [client] is the [RemoteClient]; the
    lock [_connection_lock] belongs to the scheduler state of the task pool
    (a caller that runs alone finds it free). *)
Record MemobaseManager : Type := mkManager {
  user : option UserHandle;
  user_id : option string;
  _connected : bool
}.

(** [__init__(hass, url, api_key, user_id=None)] *)
Definition init (uid : option string) : MemobaseManager :=
  {| user := None; user_id := uid; _connected := false |}.

Definition set_user (u : UserHandle) (m : MemobaseManager) : MemobaseManager :=
  {| user := Some u; user_id := user_id m; _connected := _connected m |}.

Definition set_user_id (n : string) (m : MemobaseManager) : MemobaseManager :=
  {| user := user m; user_id := Some n; _connected := _connected m |}.

Definition set_connected (b : bool) (m : MemobaseManager) : MemobaseManager :=
  {| user := user m; user_id := user_id m; _connected := b |}.

(** ** Effects *)

Inductive Op : Type -> Type :=
| Self : Op MemobaseManager
| Assign (f : MemobaseManager -> MemobaseManager) : Op unit
| Logger (l : Level) (f : string) (a : list LogArg) : Op unit
| Ping : Op (Result bool)
| GetUser (uid : string) : Op (Result UserHandle)
| AddUser (meta : PyDict) : Op (Result string)
| Insert (u : UserHandle) (blob : ChatBlob) : Op (Result unit)
| Context (u : UserHandle) (max_token_size : Z)
          (prefer_topics : option (list string)) : Op (Result string)
| Flush (u : UserHandle) : Op (Result unit)
| Sleep (secs : nat) : Op unit
| Acquire : Op unit
| Release : Op unit.

(** What an observer of one manager sees, in order. *)
Inductive Event : Type :=
| EvPing (r : Result bool)
| EvGetUser (uid : string) (r : Result UserHandle)
| EvAddUser (meta : PyDict) (r : Result string)
| EvInsert (u : UserHandle) (blob : ChatBlob) (r : Result unit)
| EvContext (u : UserHandle) (max_token_size : Z)
            (prefer_topics : option (list string)) (r : Result string)
| EvFlush (u : UserHandle) (r : Result unit)
| EvSleep (secs : nat)
| EvLog (l : LogRecord).

(** ** Programs *)

Inductive Prog (A : Type) : Type :=
| Ret (a : A)
| Raise (e : Exn)
| Vis (X : Type) (op : Op X) (k : X -> Prog A).
Arguments Raise {A} e.
Arguments Vis {A X} op k.

Fixpoint bind {A B : Type} (p : Prog A) (f : A -> Prog B) : Prog B :=
  match p with
  | Ret a => f a
  | Raise e => Raise e
  | Vis op k => Vis op (fun x => bind (k x) f)
  end.

Notation "x <- p ;; q" := (bind p (fun x => q))
  (at level 61, p at next level, right associativity).
Notation "p ;; q" := (bind p (fun _ => q))
  (at level 61, right associativity).

Definition perform {X : Type} (op : Op X) : Prog X := Vis op (fun x => Ret x).

(** [await call(...)]: the value, or the exception raised in the caller. *)
Definition await {X : Type} (op : Op (Result X)) : Prog X :=
  Vis op (fun r => match r with Ok x => Ret x | Err e => Raise e end).

(** [try: p except Exception as err: h err] *)
Fixpoint try_catch {A : Type} (p : Prog A) (h : Exn -> Prog A) : Prog A :=
  match p with
  | Ret a => Ret a
  | Raise e => h e
  | Vis op k => Vis op (fun x => try_catch (k x) h)
  end.

(** The lock is released on every way out of the block. *)
Fixpoint release_after {A : Type} (p : Prog A) : Prog A :=
  match p with
  | Ret a => Vis Release (fun _ => Ret a)
  | Raise e => Vis Release (fun _ => Raise e)
  | Vis op k => Vis op (fun x => release_after (k x))
  end.

(** [async with self._connection_lock: p] *)
Definition async_with_lock {A : Type} (p : Prog A) : Prog A :=
  Vis Acquire (fun _ => release_after p).

Definition LOGGER (l : Level) (f : string) (a : list LogArg) : Prog unit :=
  perform (Logger l f a).

(** ** connect *)

Definition source_marker : PyDict := [("source", "homeassistant")].

(** Lines 67-69 and 71-73: create a user, keep its identifier, fetch it.
    [self.user_id] is read back in the step that assigned it. *)
Definition create_user : Prog unit :=
  n <- await (AddUser source_marker) ;;
  perform (Assign (set_user_id n)) ;;
  u <- await (GetUser n) ;;
  perform (Assign (set_user u)) ;;
  s <- perform Self ;;
  LOGGER INFO "Created new Memobase user: %s" [arg_of_id (user_id s)].

(** Lines 58-73.  The test and the argument of [get_user] read
    [self.user_id] in one step. *)
Definition get_or_create_user : Prog unit :=
  s <- perform Self ;;
  match user_id s with
  | Some uid =>
      if truthy (Some uid) then
        try_catch
          (u <- await (GetUser uid) ;;
           perform (Assign (set_user u)) ;;
           s <- perform Self ;;
           LOGGER INFO "Connected to existing Memobase user: %s"
                  [arg_of_id (user_id s)])
          (fun err =>
             s <- perform Self ;;
             LOGGER WARNING "User ID %s not found, creating new user: %s"
                    [arg_of_id (user_id s); AErr err] ;;
             create_user)
      else create_user
  | None => create_user
  end.

(** Lines 48-79: the block under the lock. *)
Definition connect_locked : Prog bool :=
  s <- perform Self ;;
  if _connected s then Ret true
  else
    try_catch
      (ok <- await Ping ;;
       if negb ok then
         LOGGER ERROR "Failed to connect to Memobase" [] ;;
         Ret false
       else
         get_or_create_user ;;
         perform (Assign (set_connected true)) ;;
         Ret true)
      (fun err =>
         LOGGER ERROR "Error connecting to Memobase: %s" [AErr err] ;;
         Ret false).

Definition connect : Prog bool :=
  s <- perform Self ;;
  if _connected s then Ret true
  else async_with_lock connect_locked.

(** [not self._connected and not await self.connect()] *)
Definition not_connected_and_connect_fails : Prog bool :=
  s <- perform Self ;;
  if negb (_connected s) then
    c <- connect ;;
    Ret (negb c)
  else Ret false.

(** ** store_conversation *)

Definition default_assistant_name : string := "Assistant".

Definition exchange (user_message assistant_response assistant_name : string)
  : list PyDict :=
  [ [("role", "user"); ("content", user_message)];
    [("role", "assistant"); ("content", assistant_response);
     ("alias", assistant_name)] ].

(** Lines 112-118. *)
Definition insert_exchange (messages : list PyDict) : Prog bool :=
  try_catch
    (s <- perform Self ;;
     match user s with
     | None =>
         Raise (AttributeError "'NoneType' object has no attribute 'insert'")
     | Some u => await (Insert u (mkChatBlob messages))
     end ;;
     LOGGER DEBUG "Stored conversation in Memobase" [] ;;
     Ret true)
    (fun err =>
       LOGGER ERROR "Error storing conversation in Memobase: %s" [AErr err] ;;
       Ret false).

Definition store_conversation (user_message assistant_response : string)
  (assistant_name : option string) : Prog bool :=
  let assistant_name := or_default default_assistant_name assistant_name in
  stop <- not_connected_and_connect_fails ;;
  if stop then Ret false
  else
    let messages := exchange user_message assistant_response assistant_name in
    insert_exchange messages.

(** ** get_user_profile *)

Definition max_retries : nat := 3.
Definition default_max_tokens : Z := 500.

(** The [while retry_count < max_retries] loop, lines 140-155.  [None] is
    what Python returns when the loop ends without a [return].  Each round
    uses one unit of [fuel]; [get_user_profile] starts with more than the
    loop can use. *)
Fixpoint retry_loop (fuel : nat) (max_tokens : Z)
  (prefer_topics : option (list string)) (retry_count : nat)
  : Prog (option string) :=
  match fuel with
  | O => Ret None
  | S fuel' =>
      if (retry_count <? max_retries)%nat then
        try_catch
          (s <- perform Self ;;
           context <-
             match user s with
             | None =>
                 Raise (AttributeError
                          "'NoneType' object has no attribute 'context'")
             | Some u => await (Context u max_tokens prefer_topics)
             end ;;
           Ret (Some context))
          (fun err =>
             let retry_count := retry_count + 1 in
             LOGGER WARNING "Error retrieving user profile (attempt %s/%s): %s"
                    [ANat retry_count; ANat max_retries; AErr err] ;;
             if (max_retries <=? retry_count)%nat then Ret (Some "")
             else
               perform (Sleep 1) ;;
               retry_loop fuel' max_tokens prefer_topics retry_count)
      else Ret None
  end.

Definition get_user_profile (max_tokens : option Z)
  (prefer_topics : option (list string)) : Prog (option string) :=
  let max_tokens := or_default default_max_tokens max_tokens in
  stop <- not_connected_and_connect_fails ;;
  if stop then Ret (Some "")
  else retry_loop (S max_retries) max_tokens prefer_topics 0.

(** ** flush_buffer *)

(** Lines 166-172. *)
Definition flush_user : Prog bool :=
  try_catch
    (s <- perform Self ;;
     match user s with
     | None =>
         Raise (AttributeError "'NoneType' object has no attribute 'flush'")
     | Some u => await (Flush u)
     end ;;
     s <- perform Self ;;
     LOGGER INFO "Flushed Memobase buffer for user: %s"
            [arg_of_id (user_id s)] ;;
     Ret true)
    (fun err =>
       LOGGER ERROR "Error flushing Memobase buffer: %s" [AErr err] ;;
       Ret false).

Definition flush_buffer : Prog bool :=
  stop <- not_connected_and_connect_fails ;;
  if stop then Ret false
  else flush_user.

(** ** get_user_id *)

Definition get_user_id : Prog (option string) :=
  s <- perform Self ;;
  Ret (if _connected s then user_id s else None).

(** ** The public interface *)

Inductive Call : Type :=
| CallConnect
| CallStore (user_message assistant_response : string)
            (assistant_name : option string)
| CallProfile (max_tokens : option Z) (prefer_topics : option (list string))
| CallFlush
| CallGetUserId.

(** What a public call hands back: a boolean, or an optional string. *)
Inductive Value : Type :=
| VBool (b : bool)
| VText (s : option string).

Definition call (c : Call) : Prog Value :=
  match c with
  | CallConnect => b <- connect ;; Ret (VBool b)
  | CallStore um ar an => b <- store_conversation um ar an ;; Ret (VBool b)
  | CallProfile mt pt => s <- get_user_profile mt pt ;; Ret (VText s)
  | CallFlush => b <- flush_buffer ;; Ret (VBool b)
  | CallGetUserId => s <- get_user_id ;; Ret (VText s)
  end.

(** The value by which a call reports that it could not do its work. *)
Definition sentinel (c : Call) : Value :=
  match c with
  | CallConnect | CallStore _ _ _ | CallFlush => VBool false
  | CallProfile _ _ => VText (Some "")
  | CallGetUserId => VText None
  end.

(** The calls that start by making sure the manager is connected. *)
Definition needs_connection (c : Call) : bool :=
  match c with
  | CallGetUserId => false
  | _ => true
  end.

(** The calls a process makes on one manager, one after the other. *)
Fixpoint calls (cs : list Call) : Prog unit :=
  match cs with
  | [] => Ret tt
  | c :: cs' => call c ;; calls cs'
  end.

(** ** One caller at a time *)

Inductive Outcome (A : Type) : Type :=
| Returned (a : A)
| Raised (e : Exn).
Arguments Raised {A} e.

Record Final (A : Type) : Type := mkFinal {
  outcome : Outcome A;
  mgr : MemobaseManager;
  world : World;
  trace : list Event
}.

(** One effect: its answer, the manager and the service after it, and what
    it shows.  A caller that runs alone never waits for the lock. *)
Definition exec_op {X : Type} (op : Op X) (m : MemobaseManager) (w : World)
  : X * MemobaseManager * World * list Event :=
  match op in Op X return X * MemobaseManager * World * list Event with
  | Self => (m, m, w, [])
  | Assign f => (tt, f m, w, [])
  | Logger l f a => (tt, m, w, [EvLog (mkLog l f a)])
  | Ping => let (r, w') := client_ping w in (r, m, w', [EvPing r])
  | GetUser uid =>
      let (r, w') := client_get_user uid w in (r, m, w', [EvGetUser uid r])
  | AddUser meta =>
      let (r, w') := client_add_user meta w in (r, m, w', [EvAddUser meta r])
  | Insert u blob =>
      let (r, w') := user_insert u blob w in (r, m, w', [EvInsert u blob r])
  | Context u mt pt =>
      let (r, w') := user_context u mt pt w in (r, m, w', [EvContext u mt pt r])
  | Flush u => let (r, w') := user_flush u w in (r, m, w', [EvFlush u r])
  | Sleep n => (tt, m, w, [EvSleep n])
  | Acquire => (tt, m, w, [])
  | Release => (tt, m, w, [])
  end.

Fixpoint run {A : Type} (p : Prog A) (m : MemobaseManager) (w : World)
  : Final A :=
  match p with
  | Ret a => mkFinal (Returned a) m w []
  | Raise e => mkFinal (Raised e) m w []
  | Vis op k =>
      let '(x, m1, w1, evs) := exec_op op m w in
      let f := run (k x) m1 w1 in
      mkFinal (outcome f) (mgr f) (world f) (evs ++ trace f)
  end.

(** [p] run [n] times, one run after the other, as one program. *)
Fixpoint times {A : Type} (n : nat) (p : Prog A) : Prog unit :=
  match n with
  | O => Ret tt
  | S n' => p ;; times n' p
  end.

(** ** Several callers on one event loop

    A task is the rest of its program.  The loop runs one task at a time,
    from where it was suspended to its next suspension: an awaited remote
    call, a sleep, or a lock held by another task.  Code between two
    suspensions runs without interruption.  A remote call acts on the
    service when it is issued; the loop may pick any task for the next
    turn, so every order in which answers can come back is a schedule. *)

Inductive Kind : Type := KLocal | KAwait | KAcquire | KRelease.

Definition kind {X : Type} (op : Op X) : Kind :=
  match op with
  | Self | Assign _ | Logger _ _ _ => KLocal
  | Ping | GetUser _ | AddUser _ | Insert _ _ | Context _ _ _ | Flush _
  | Sleep _ => KAwait
  | Acquire => KAcquire
  | Release => KRelease
  end.

Record Slice (A : Type) : Type := mkSlice {
  rest : Prog A;
  mgr_after : MemobaseManager;
  world_after : World;
  lock_after : bool;
  shown : list Event
}.

(** One turn of a task.  An awaited call is issued and answered by the
    service, and the task is suspended on its continuation; [Acquire] takes
    a free lock without suspending and leaves the task where it is when the
    lock is held. *)
Fixpoint advance {A : Type} (p : Prog A) (m : MemobaseManager) (w : World)
  (lk : bool) : Slice A :=
  match p with
  | Ret a => mkSlice (Ret a) m w lk []
  | Raise e => mkSlice (Raise e) m w lk []
  | Vis op k =>
      let '(x, m1, w1, evs) := exec_op op m w in
      match kind op with
      | KAwait => mkSlice (k x) m1 w1 lk evs
      | KLocal =>
          let s := advance (k x) m1 w1 lk in
          mkSlice (rest s) (mgr_after s) (world_after s) (lock_after s)
                  (evs ++ shown s)
      | KAcquire =>
          if lk then mkSlice p m w lk [] else advance (k x) m1 w1 true
      | KRelease => advance (k x) m1 w1 false
      end
  end.

Record Pool (A : Type) : Type := mkPool {
  shared : MemobaseManager;
  service : World;
  history : list Event;
  locked : bool;
  tasks : list (Prog A)
}.

Fixpoint replace {T : Type} (i : nat) (x : T) (l : list T) : list T :=
  match l, i with
  | [], _ => []
  | _ :: l', O => x :: l'
  | y :: l', S i' => y :: replace i' x l'
  end.

(** The loop gives a turn to task [i]. *)
Definition pool_step {A : Type} (P : Pool A) (i : nat) : Pool A :=
  match nth_error (tasks P) i with
  | None => P
  | Some p =>
      let s := advance p (shared P) (service P) (locked P) in
      mkPool (mgr_after s) (world_after s) (history P ++ shown s)
             (lock_after s) (replace i (rest s) (tasks P))
  end.

Definition run_pool {A : Type} (sched : list nat) (P : Pool A) : Pool A :=
  fold_left pool_step sched P.

Definition finished {A : Type} (p : Prog A) : bool :=
  match p with
  | Vis _ _ => false
  | _ => true
  end.

Definition all_finished {A : Type} (P : Pool A) : bool :=
  forallb finished (tasks P).

(** [n] tasks that all call [p] on one manager, none started yet. *)
Definition spawn {A : Type} (n : nat) (p : Prog A) (m : MemobaseManager)
  (w : World) : Pool A :=
  mkPool m w [] false (repeat p n).

(** ** A caller that is cancelled

    [task.cancel()] makes the event loop throw asyncio.CancelledError into
    the task at the await where it is suspended.  CancelledError derives
    from BaseException and not from Exception: the handlers of the manager,
    all of them [except Exception] (lines 62, 77, 116, 147 and 170), do not
    catch it, and the sleep of line 155 and the connection test of lines
    97, 134 and 163 stand outside the handler of their operation.  The call
    ends at that await and the exception reaches the caller; on the way
    out [async with] releases the lock, which a caller that runs alone
    never waits for. *)
Inductive Exit (A : Type) : Type :=
| Normal (o : Outcome A)
| CancelledError.
Arguments CancelledError {A}.

Record Stopped (A : Type) : Type := mkStopped {
  exit : Exit A;
  mgr_at : MemobaseManager;
  world_at : World;
  trace_at : list Event
}.

(** The caller is cancelled while it waits at the await number [n] of the
    call, counted from 0; the awaited call has been issued.  A call that
    makes fewer awaits ends before the cancellation. *)
Fixpoint run_cancelled {A : Type} (n : nat) (p : Prog A) (m : MemobaseManager)
  (w : World) : Stopped A :=
  match p with
  | Ret a => mkStopped (Normal (Returned a)) m w []
  | Raise e => mkStopped (Normal (Raised e)) m w []
  | Vis op k =>
      let '(x, m1, w1, evs) := exec_op op m w in
      match kind op, n with
      | KAwait, O => mkStopped CancelledError m1 w1 evs
      | KAwait, S n' =>
          let s := run_cancelled n' (k x) m1 w1 in
          mkStopped (exit s) (mgr_at s) (world_at s) (evs ++ trace_at s)
      | _, _ =>
          let s := run_cancelled n (k x) m1 w1 in
          mkStopped (exit s) (mgr_at s) (world_at s) (evs ++ trace_at s)
      end
  end.

(** ** Reading traces *)

Definition is_ping (ev : Event) : bool :=
  match ev with EvPing _ => true | _ => false end.

Definition is_remote (ev : Event) : bool :=
  match ev with
  | EvSleep _ | EvLog _ => false
  | _ => true
  end.

Definition is_sleep (ev : Event) : bool :=
  match ev with EvSleep _ => true | _ => false end.

Definition is_warning (ev : Event) : bool :=
  match ev with
  | EvLog (mkLog WARNING _ _) => true
  | _ => false
  end.

Definition is_context (ev : Event) : bool :=
  match ev with EvContext _ _ _ _ => true | _ => false end.

Definition is_add_user (ev : Event) : bool :=
  match ev with EvAddUser _ _ => true | _ => false end.

Definition is_insert (ev : Event) : bool :=
  match ev with EvInsert _ _ _ => true | _ => false end.

Definition is_get_user (ev : Event) : bool :=
  match ev with EvGetUser _ _ => true | _ => false end.

Definition count (f : Event -> bool) (tr : list Event) : nat :=
  length (filter f tr).

(** The exception of a remote call that failed. *)
Definition failure_of (ev : Event) : option Exn :=
  match ev with
  | EvPing (Err e) | EvGetUser _ (Err e) | EvAddUser _ (Err e)
  | EvInsert _ _ (Err e) | EvContext _ _ _ (Err e) | EvFlush _ (Err e) => Some e
  | _ => None
  end.

Definition logs_error (e : Exn) (ev : Event) : Prop :=
  match ev with
  | EvLog l => (level l = WARNING \/ level l = ERROR) /\ In (AErr e) (args l)
  | _ => False
  end.

(** Every failed remote call is followed at once by a warning or an error
    that carries its exception. *)
Fixpoint failures_logged (tr : list Event) : Prop :=
  match tr with
  | [] => True
  | ev :: tr' =>
      match failure_of ev with
      | Some e =>
          match tr' with
          | next :: _ => logs_error e next
          | [] => False
          end
      | None => True
      end /\ failures_logged tr'
  end.

(** Every warning or error record that carries an exception comes right
    after the remote call that raised this exception; [prev] is the event
    before the trace.  An exception raised by the manager itself, such as
    the AttributeError of a call on a handle that is None, would be logged
    with no failed remote call before it. *)
Fixpoint explained_from (prev : option Event) (tr : list Event) : Prop :=
  match tr with
  | [] => True
  | ev :: tr' =>
      (forall e, logs_error e ev ->
                 match prev with
                 | Some p => failure_of p = Some e
                 | None => False
                 end) /\
      explained_from (Some ev) tr'
  end.

(** The last remote call of a trace, and whether it failed. *)
Definition last_remote (tr : list Event) : option Event :=
  last (map Some (filter is_remote tr)) None.

Definition ends_in_failure (tr : list Event) : bool :=
  match last_remote tr with
  | Some ev => match failure_of ev with Some _ => true | None => false end
  | None => false
  end.

(** What a failed ping leaves in the trace. *)
Definition ping_failed : list Event :=
  [EvPing (Ok false); EvLog (mkLog ERROR "Failed to connect to Memobase" [])].

(** What an operation owes its caller: a value, every failed remote call
    logged, and the sentinel whenever its last remote call failed. *)
Definition contained {A : Type} (sentinel : A) (f : Final A) : Prop :=
  (exists a, outcome f = Returned a) /\
  failures_logged (trace f) /\
  (outcome f = Returned sentinel \/ ends_in_failure (trace f) = false).

(** The session invariant: a connected manager holds a user handle. *)
Definition handle_held (m : MemobaseManager) : Prop :=
  _connected m = true -> user m <> None.

(** The warning of the [i]-th failed attempt of get_user_profile. *)
Definition attempt_warning (i : nat) (e : Exn) : Event :=
  EvLog (mkLog WARNING "Error retrieving user profile (attempt %s/%s): %s"
               [ANat i; ANat max_retries; AErr e]).

(** ** Notions for the task pool *)

(** A task that has ended with a given outcome. *)
Definition as_prog {A : Type} (o : Outcome A) : Prog A :=
  match o with
  | Returned a => Ret a
  | Raised e => Raise e
  end.

(** A block that may run under the lock: it does not touch the lock, and
    the connected flag is off at each of its suspensions. *)
Fixpoint quiet {A : Type} (q : Prog A) (m : MemobaseManager) : Prop :=
  match q with
  | Vis op k =>
      match kind op with
      | KAwait => _connected m = false /\ forall x, quiet (k x) m
      | KLocal =>
          forall w, let '(x, m1, _, _) := exec_op op m w in quiet (k x) m1
      | KAcquire | KRelease => False
      end
  | _ => True
  end.

(** What the tasks share: manager, service and the events so far. *)
Definition Shared : Type := (MemobaseManager * World * list Event)%type.

Definition cur {A : Type} (P : Pool A) : Shared :=
  (shared P, service P, history P).

(** One caller running [p] alone from shared state [s]. *)
Definition after {A : Type} (p : Prog A) (s : Shared) : Shared :=
  let '(m, w, h) := s in
  let f := run p m w in
  (mgr f, world f, h ++ trace f).

Definition result {A : Type} (p : Prog A) (s : Shared) : Outcome A :=
  let '(m, w, _) := s in outcome (run p m w).

(** [n] calls of connect, one after the other. *)
Definition serial (n : nat) (s : Shared) : Shared :=
  Nat.iter n (after connect) s.

Definition pending {A : Type} (l : list (Prog A)) : nat :=
  length (filter (fun p => negb (finished p)) l).

(** A task outside the lock: not started, waiting for the lock, or ended
    with the result of one of the first [d] calls of the serial run. *)
Definition idle (s0 : Shared) (d : nat) (t : Prog bool) : Prop :=
  t = connect \/
  t = async_with_lock connect_locked \/
  exists k, k < d /\ t = as_prog (result connect (serial k s0)).

(** The pool of [n] callers of connect started in [s0] is, at every turn,
    a point of the serial run: with [d] tasks ended and the lock free, the
    shared state is the one after [d] serial calls; with the lock held, the
    holder is inside call [d + 1] of the serial run. *)
Definition pool_inv (s0 : Shared) (n : nat) (P : Pool bool) : Prop :=
  length (tasks P) = n /\
  let d := n - pending (tasks P) in
  if locked P then
    _connected (shared P) = false /\
    exists i q,
      nth_error (tasks P) i = Some (release_after q) /\
      quiet q (shared P) /\
      after q (cur P) = serial (S d) s0 /\
      result q (cur P) = result connect (serial d s0) /\
      forall j t, j <> i -> nth_error (tasks P) j = Some t -> idle s0 d t
  else
    cur P = serial d s0 /\
    forall j t, nth_error (tasks P) j = Some t -> idle s0 d t.

(** ** Notions for a pool of public calls *)

(** The events of a connect sequence on the service. *)
Definition is_session (ev : Event) : bool :=
  match ev with
  | EvPing _ | EvGetUser _ _ | EvAddUser _ _ => true
  | _ => false
  end.

(** The effects of the code that follows the connection test: it reads
    the manager, logs, sleeps and calls the user handle. *)
Definition body_op {X : Type} (op : Op X) : bool :=
  match op with
  | Self | Logger _ _ _ | Insert _ _ | Context _ _ _ | Flush _ | Sleep _ => true
  | Assign _ | Ping | GetUser _ | AddUser _ | Acquire | Release => false
  end.

Fixpoint harmless {A : Type} (p : Prog A) : Prop :=
  match p with
  | Vis op k => body_op op = true /\ forall x, harmless (k x)
  | _ => True
  end.

(** What a public call does around its call of connect: [frame_of c X] is
    [call c] on an unconnected manager with [X] in the place of connect. *)
Definition frame_of (c : Call) (X : Prog bool) : Prog Value :=
  match c with
  | CallConnect => b <- X ;; Ret (VBool b)
  | CallStore um ar an =>
      b <- (stop <- (c <- X ;; Ret (negb c)) ;;
            if stop then Ret false
            else insert_exchange
                   (exchange um ar (or_default default_assistant_name an))) ;;
      Ret (VBool b)
  | CallProfile mt pt =>
      s <- (stop <- (c <- X ;; Ret (negb c)) ;;
            if stop then Ret (Some "")
            else retry_loop (S max_retries)
                            (or_default default_max_tokens mt) pt 0) ;;
      Ret (VText s)
  | CallFlush =>
      b <- (stop <- (c <- X ;; Ret (negb c)) ;;
            if stop then Ret false else flush_user) ;;
      Ret (VBool b)
  | CallGetUserId => call CallGetUserId
  end.

(** A context that lets the effects of its argument through. *)
Definition commutes {A B : Type} (F : Prog A -> Prog B) : Prop :=
  forall (X : Type) (op : Op X) (k : X -> Prog A),
    F (Vis op k) = Vis op (fun x => F (k x)).

(** One task for each call of [cs], none started yet. *)
Definition spawn_calls (cs : list Call) (m : MemobaseManager) (w : World)
  : Pool Value :=
  mkPool m w [] false (map call cs).

(** A task outside the lock that has not got past connect. *)
Definition outside (c : Call) (t : Prog Value) : Prop :=
  t = call c \/ t = frame_of c (async_with_lock connect_locked).

(** The pool of the calls [cs] started in [s0].  While the flag is off the
    connect sequences made so far have failed one after the other, as in
    the serial run, and their callers have ended with their sentinels.
    Once the flag is on the lock is free, the events of the service
    sessions are those of the serial run up to its first success, and the
    tasks past connect run code that leaves session and manager alone. *)
Definition calls_inv (s0 : Shared) (cs : list Call) (P : Pool Value) : Prop :=
  length (tasks P) = length cs /\
  let d := length cs - pending (tasks P) in
  (_connected (shared P) = false /\
   (forall k, k < d -> result connect (serial k s0) = Returned false) /\
   if locked P then
     exists i c q,
       nth_error cs i = Some c /\
       nth_error (tasks P) i = Some (frame_of c (release_after q)) /\
       quiet q (shared P) /\
       after q (cur P) = serial (S d) s0 /\
       result q (cur P) = result connect (serial d s0) /\
       forall j t c', j <> i ->
         nth_error (tasks P) j = Some t -> nth_error cs j = Some c' ->
         outside c' t \/ t = Ret (sentinel c')
   else
     cur P = serial d s0 /\
     forall j t c',
       nth_error (tasks P) j = Some t -> nth_error cs j = Some c' ->
       outside c' t \/ t = Ret (sentinel c'))
  \/
  (_connected (shared P) = true /\
   locked P = false /\
   exists d0,
     d0 < length cs /\
     (forall k, k < d0 -> result connect (serial k s0) = Returned false) /\
     result connect (serial d0 s0) = Returned true /\
     filter is_session (history P) =
       filter is_session (snd (serial (S d0) s0)) /\
     forall j t c',
       nth_error (tasks P) j = Some t -> nth_error cs j = Some c' ->
       outside c' t \/ harmless t).

(** A slice that comes after events already shown in the same turn. *)
Definition prefix_slice {A : Type} (evs : list Event) (s : Slice A) : Slice A :=
  mkSlice (rest s) (mgr_after s) (world_after s) (lock_after s)
          (evs ++ shown s).

(** The managers a process can hold: a new one, after any public calls. *)
Definition reachable (m : MemobaseManager) : Prop :=
  exists uid cs w, m = mgr (run (calls cs) (init uid) w).

(** A program that a task can run alone to its end in at most [n + 1]
    turns: it suspends at most [n] times, asks for the lock only when it is
    free and ends with the lock free. *)
Fixpoint runs_alone {A : Type} (n : nat) (p : Prog A) (lk : bool) : Prop :=
  match p with
  | Vis op k =>
      match kind op with
      | KLocal => forall x, runs_alone n (k x) lk
      | KAwait =>
          match n with
          | O => False
          | S n' => forall x, runs_alone n' (k x) lk
          end
      | KAcquire => lk = false /\ forall x, runs_alone n (k x) true
      | KRelease => forall x, runs_alone n (k x) false
      end
  | _ => lk = false
  end.

(** The schedule that gives [turns] turns to each of [len] tasks, one task
    after the other. *)
Definition one_by_one (turns len : nat) : list nat :=
  flat_map (fun i => repeat i turns) (seq 0 len).

(** A program that, run from [m] and stopped anywhere, leaves the manager
    as it is and makes no ping, get_user or add_user. *)
Fixpoint untouched {A : Type} (p : Prog A) (m : MemobaseManager) : Prop :=
  match p with
  | Vis op k =>
      forall w,
        let '(x, m1, _, evs) := exec_op op m w in
        m1 = m /\ filter is_session evs = [] /\ untouched (k x) m
  | _ => True
  end.

(** ** Notions for the session invariant *)

(** The handle that a get_user has just answered. *)
Definition answered (evs : list Event) : option UserHandle :=
  match evs with
  | [EvGetUser _ (Ok h)] => Some h
  | _ => None
  end.

(** What one turn of a task may do to the flag and the handle of the
    manager.  [got] is the handle answered by the get_user that the task
    was waiting for, when the turn starts there.  The flag is not cleared;
    the handle changes to [got] or not at all; the flag is switched on
    only with [got] as the handle. *)
Definition may_become (got : option UserHandle) (m m1 : MemobaseManager)
  : Prop :=
  (_connected m = true -> _connected m1 = true) /\
  (user m1 = user m \/ exists h, got = Some h /\ user m1 = Some h) /\
  (_connected m1 = true ->
   _connected m = true \/ exists h, got = Some h /\ user m1 = Some h).

(** A program all of whose turns keep to [may_become].  [m] is the manager
    at this point of the turn; a task that is resumed after an await or
    after the lock may find any manager. *)
Fixpoint careful {A : Type} (p : Prog A) (got : option UserHandle)
  (m : MemobaseManager) : Prop :=
  match p with
  | Vis op k =>
      match kind op with
      | KLocal =>
          forall w,
            let '(x, m1, _, _) := exec_op op m w in
            may_become got m m1 /\ careful (k x) got m1
      | _ =>
          forall m0 w m',
            let '(x, _, _, evs) := exec_op op m0 w in
            careful (k x) (answered evs) m'
      end
  | _ => True
  end.

(** The pool at any point: a connected manager holds a handle, the handle
    it holds was answered by a get_user of the history, and every task is
    careful, starting from a handle that a get_user of the history
    answered. *)
Definition pool_sound (P : Pool Value) : Prop :=
  (_connected (shared P) = true -> user (shared P) <> None) /\
  (forall h, user (shared P) = Some h ->
             exists id, In (EvGetUser id (Ok h)) (history P)) /\
  forall j t, nth_error (tasks P) j = Some t ->
    exists got,
      (forall m, careful t got m) /\
      forall h, got = Some h ->
                exists id, In (EvGetUser id (Ok h)) (history P).

(** ** Notions for the lock *)

(** A program that uses the lock in order, seen from its task; [held]
    tells whether the task holds the lock.  The program asks for the lock
    only when it does not hold it, releases it only when it holds it, ends
    without it and suspends at most [n] times. *)
Fixpoint orderly {A : Type} (n : nat) (p : Prog A) (held : bool) : Prop :=
  match p with
  | Vis op k =>
      match kind op with
      | KLocal => forall x, orderly n (k x) held
      | KAwait =>
          match n with
          | O => False
          | S n' => forall x, orderly n' (k x) held
          end
      | KAcquire => held = false /\ forall x, orderly n (k x) true
      | KRelease => held = true /\ forall x, orderly n (k x) false
      end
  | _ => held = false
  end.

(** Whether task [j] is the one that holds the lock. *)
Definition is_owner (o : option nat) (j : nat) : bool :=
  match o with
  | Some i => Nat.eqb i j
  | None => false
  end.

(** The lock of the pool is held exactly when one of its tasks holds it,
    and every task uses the lock in order. *)
Definition pool_ok {A : Type} (n : nat) (P : Pool A) : Prop :=
  exists o : option nat,
    locked P = (match o with Some _ => true | None => false end) /\
    (forall i, o = Some i -> i < length (tasks P)) /\
    forall j t, nth_error (tasks P) j = Some t -> orderly n t (is_owner o j).

(** A task of a pool on a connected manager: a call that has not started,
    or code that reads the manager and calls the user handle. *)
Definition settled (t : Prog Value) : Prop :=
  (exists c, t = call c) \/ harmless t.

End Manager.

Notation "x <- p ;; q" := (bind p (fun x => q))
  (at level 61, p at next level, right associativity).
Notation "p ;; q" := (bind p (fun _ => q))
  (at level 61, right associativity).

Arguments Raise {RC A} e.
Arguments Vis {RC A X} op k.
Arguments Ret {RC A} a.
Arguments Raised {A} e.
Arguments Returned {A} a.
Arguments mkFinal {RC A} outcome mgr world trace.
Arguments mkSlice {RC A} rest mgr_after world_after lock_after shown.
Arguments mkPool {RC A} shared service history locked tasks.
Arguments replace {T} i x l.
Arguments prefix_slice {RC A} evs s.
Arguments Normal {A} o.
Arguments CancelledError {A}.
Arguments mkStopped {RC A} exit mgr_at world_at trace_at.

(** ** A scripted service

    A test double: the service answers the calls it receives with the
    replies of a script, in order; a reply of the wrong kind, or a call
    after the end of the script, is a transport error. *)
Inductive Reply : Type :=
| RBool (b : bool)
| RUser (h : string)
| RId (s : string)
| RText (s : string)
| RDone
| RFail (msg : string).

Definition answer {X : Type} (pick : Reply -> option X) (w : list Reply)
  : Result X * list Reply :=
  match w with
  | [] => (Err (Exception "connection refused"), [])
  | RFail msg :: w' => (Err (Exception msg), w')
  | r :: w' =>
      match pick r with
      | Some x => (Ok x, w')
      | None => (Err (Exception "unexpected reply"), w')
      end
  end.

Definition scripted : RemoteClient := {|
  World := list Reply;
  UserHandle := string;
  client_ping := answer (fun r => match r with RBool b => Some b | _ => None end);
  client_get_user := fun _ =>
    answer (fun r => match r with RUser h => Some h | _ => None end);
  client_add_user := fun _ =>
    answer (fun r => match r with RId s => Some s | _ => None end);
  user_insert := fun _ _ =>
    answer (fun r => match r with RDone => Some tt | _ => None end);
  user_context := fun _ _ _ =>
    answer (fun r => match r with RText s => Some s | _ => None end);
  user_flush := fun _ =>
    answer (fun r => match r with RDone => Some tt | _ => None end)
|}.

(** A service that is down: every ping answers false, every other call
    fails.  Its state counts the calls it has received. *)
Definition service_down : RemoteClient := {|
  World := nat;
  UserHandle := string;
  client_ping := fun n => (Ok false, S n);
  client_get_user := fun _ n => (Err (Exception "service unavailable"), S n);
  client_add_user := fun _ n => (Err (Exception "service unavailable"), S n);
  user_insert := fun _ _ n => (Err (Exception "service unavailable"), S n);
  user_context := fun _ _ _ n => (Err (Exception "service unavailable"), S n);
  user_flush := fun _ n => (Err (Exception "service unavailable"), S n)
|}.

(** ** Scenarios on the test doubles *)

(** A connected session on the scripted service. *)
Definition session : @MemobaseManager scripted :=
  @mkManager scripted (Some "h1") (Some "u1") true.

(** Ping succeeds, add_user gives u1, get_user gives its handle. *)
Definition fresh_user_script : @World scripted :=
  [RBool true; RId "u1"; RUser "h1"].

(** The supplied identifier is unknown, a new user is created. *)
Definition fallback_script : @World scripted :=
  [RBool true; RFail "404 user not found"; RId "u1"; RUser "h1"].

(** The supplied identifier is unknown and the new user cannot be fetched. *)
Definition failed_fallback_script : @World scripted :=
  [RBool true; RFail "404 user not found"; RId "u1"; RFail "503"].

(** The manager that the failed fallback leaves, and a later connect on it
    while the service is down. *)
Definition after_failed_fallback : @MemobaseManager scripted :=
  mgr (run (RC := scripted) connect (init (Some "u0")) failed_fallback_script).

Definition later_connect_service_down : Final bool :=
  run (RC := scripted) connect after_failed_fallback [RBool false].

(** The same with a service that hands out the empty string as the new
    identifier, and a later connect on a service that works. *)
Definition after_blank_fallback : @MemobaseManager scripted :=
  mgr (run (RC := scripted) connect (init (Some "u0"))
           [RBool true; RFail "404 user not found"; RId ""; RFail "503"]).

Definition later_connect_blank_id : Final bool :=
  run (RC := scripted) connect after_blank_fallback
      [RBool true; RId "u2"; RUser "h2"].

(** A manager built with the empty string as identifier connects. *)
Definition blank_id_connect : Final bool :=
  run (RC := scripted) connect (init (Some "")) fresh_user_script.

(** Two callers of connect on a service that works: caller 0 gets as far as
    its ping, caller 1 finds the lock held, caller 0 finishes, caller 1
    takes the lock and finds the manager connected. *)
Definition two_connects : Pool bool :=
  run_pool [0; 1; 0; 0; 0; 1]
           (spawn (RC := scripted) 2 connect (init None) fresh_user_script).

(** store_conversation and get_user_profile called together on a new
    manager. *)
Definition store_and_profile : list Call :=
  [CallStore "hi" "hello" (Some "Bot"); CallProfile None None].

Definition session_script : @World scripted :=
  [RBool true; RId "u1"; RUser "h1"; RDone; RText "likes cats"].

(** On a service that works: caller 0 gets as far as its ping, caller 1
    finds the lock held, caller 0 connects and stores, caller 1 takes the
    lock, finds the manager connected and fetches the profile. *)
Definition two_callers_up : Pool Value :=
  run_pool [0; 1; 0; 0; 0; 1; 0; 1]
           (spawn_calls (RC := scripted) store_and_profile (init None)
                        session_script).

(** On the service that is down: before caller 0 is resumed after its
    ping, and at the end. *)
Definition two_callers_waiting : Pool Value :=
  run_pool [0; 1]
           (spawn_calls (RC := service_down) store_and_profile (init None) 0).



(** * Properties *)

Arguments truthy : simpl never.

(** Case analysis on the answer of the next remote call. *)
Ltac remote_step :=
  match goal with
  | |- context [client_ping ?w] =>
      destruct (client_ping w) as [[[|]|?] ?] eqn:?
  | |- context [client_get_user ?i ?w] =>
      destruct (client_get_user i w) as [[?|?] ?] eqn:?
  | |- context [client_add_user ?d ?w] =>
      destruct (client_add_user d w) as [[?|?] ?] eqn:?
  | |- context [user_insert ?u ?b ?w] =>
      destruct (user_insert u b w) as [[?|?] ?] eqn:?
  | |- context [user_context ?u ?a ?b ?w] =>
      destruct (user_context u a b w) as [[?|?] ?] eqn:?
  | |- context [user_flush ?u ?w] =>
      destruct (user_flush u w) as [[?|?] ?] eqn:?
  end; simpl.

Ltac remote_steps := simpl; repeat remote_step.

Ltac unfold_connect :=
  unfold connect, async_with_lock, connect_locked, get_or_create_user,
    create_user, LOGGER, perform, await.

Section Sequential.

Context {RC : RemoteClient}.

(** ** Running programs *)

Lemma run_bind {A B : Type} (p : Prog A) (f : A -> Prog B) m w :
  run (bind p f) m w =
  let f1 := run p m w in
  match outcome f1 with
  | Returned a =>
      let f2 := run (f a) (mgr f1) (world f1) in
      mkFinal (outcome f2) (mgr f2) (world f2) (trace f1 ++ trace f2)
  | Raised e => mkFinal (Raised e) (mgr f1) (world f1) (trace f1)
  end.
Proof.
  revert m w.
  induction p as [a | e | X op k IH]; intros m w; simpl.
  - destruct (run (f a) m w); reflexivity.
  - reflexivity.
  - destruct (exec_op op m w) as [[[x m1] w1] evs].
    rewrite IH. simpl.
    destruct (outcome (run (k x) m1 w1)); simpl; [rewrite app_assoc|];
      reflexivity.
Qed.

Lemma run_release_after {A : Type} (p : Prog A) m w :
  run (release_after p) m w = run p m w.
Proof.
  revert m w.
  induction p as [a | e | X op k IH]; intros m w; simpl; try reflexivity.
  destruct (exec_op op m w) as [[[x m1] w1] evs].
  rewrite IH. reflexivity.
Qed.

(** A caller that runs alone goes through the same steps with or without
    the first test and the lock. *)
Lemma run_connect_locked m w : run connect m w = run connect_locked m w.
Proof.
  destruct (_connected m) eqn:E.
  - unfold connect, connect_locked. simpl. rewrite E. reflexivity.
  - unfold connect, async_with_lock.
    generalize connect_locked as q. intros q. simpl. rewrite E. simpl.
    rewrite run_release_after.
    destruct (run q m w); reflexivity.
Qed.

Lemma failures_logged_app t1 t2 :
  failures_logged t1 -> failures_logged t2 -> failures_logged (t1 ++ t2).
Proof.
  induction t1 as [| ev t1 IH]; simpl; [tauto|].
  intros [H1 H2] H3. split; [|auto].
  destruct (failure_of ev); [|exact I].
  destruct t1; simpl; [contradiction | exact H1].
Qed.

(** ** What connect does, case by case *)

Lemma connect_connected m w :
  _connected m = true -> run connect m w = mkFinal (Returned true) m w [].
Proof.
  intros H. unfold connect. simpl. rewrite H. reflexivity.
Qed.

(** connect returns a boolean that is the connected flag it leaves; it never
    clears the flag, never drops a handle, and logs every failure. *)
Lemma connect_summary m w :
  let f := run connect m w in
  outcome f = Returned (_connected (mgr f)) /\
  (_connected m = true -> _connected (mgr f) = true) /\
  (user m <> None -> user (mgr f) <> None) /\
  (_connected (mgr f) = true -> user (mgr f) <> None \/ _connected m = true) /\
  failures_logged (trace f) /\
  (_connected (mgr f) = false \/ ends_in_failure (trace f) = false).
Proof.
  destruct m as [u i c]. destruct c.
  - rewrite connect_connected by reflexivity. simpl. tauto.
  - unfold_connect. simpl.
    remote_step; [| | simpl; intuition congruence].
    + destruct i as [uid|]; simpl; [destruct (truthy (Some uid)); simpl|];
        repeat remote_step; simpl; intuition (try congruence; auto).
    + simpl; intuition congruence.
Qed.

(** The test that opens the three operations: the caller goes on exactly
    when connect leaves the manager connected. *)
Lemma run_guard {A : Type} (sentinel : A) (body : Prog A) m w :
  run (stop <- not_connected_and_connect_fails ;;
       if stop then Ret sentinel else body) m w =
  let f := run connect m w in
  if _connected (mgr f) then
    let g := run body (mgr f) (world f) in
    mkFinal (outcome g) (mgr g) (world g) (trace f ++ trace g)
  else mkFinal (Returned sentinel) (mgr f) (world f) (trace f).
Proof.
  rewrite run_bind.
  assert (G : run not_connected_and_connect_fails m w =
              let f := run connect m w in
              mkFinal (Returned (negb (_connected (mgr f)))) (mgr f) (world f)
                      (trace f)).
  { unfold not_connected_and_connect_fails.
    destruct (_connected m) eqn:E.
    - rewrite (connect_connected m w E). simpl. rewrite E. simpl.
      reflexivity.
    - rewrite run_bind.
      change (run (perform Self) m w) with (mkFinal (Returned m) m w []).
      cbv zeta. cbn [outcome mgr world trace]. rewrite E. cbn [negb].
      rewrite run_bind.
      destruct (connect_summary m w) as (Ho & _). cbv zeta in *.
      destruct (run connect m w) as [o m' w' t]. cbn [outcome mgr] in Ho.
      subst o. cbn -[connect]. rewrite app_nil_r. reflexivity. }
  rewrite G. cbv zeta. cbn [outcome mgr world trace].
  destruct (_connected (mgr (run connect m w))); cbn [negb].
  - reflexivity.
  - simpl. rewrite app_nil_r. reflexivity.
Qed.

(** ** Failure isolation *)

(** C4.  On an unconnected manager whose service answers the ping with
    false, connect returns false and the three operations return their
    sentinels; each of them leaves the manager as it was and shows the ping
    and its error record and nothing else: no other remote call is made. *)
Theorem ping_false_isolates m w w' :
  _connected m = false ->
  client_ping w = (Ok false, w') ->
  run connect m w = mkFinal (Returned false) m w' ping_failed /\
  (forall um ar an,
     run (store_conversation um ar an) m w =
     mkFinal (Returned false) m w' ping_failed) /\
  (forall mt pt,
     run (get_user_profile mt pt) m w =
     mkFinal (Returned (Some "")) m w' ping_failed) /\
  run flush_buffer m w = mkFinal (Returned false) m w' ping_failed /\
  count is_remote ping_failed = count is_ping ping_failed.
Proof.
  intros Hc Hp.
  assert (C : run connect m w = mkFinal (Returned false) m w' ping_failed).
  { destruct m as [u i c]. simpl in Hc. subst c.
    unfold_connect. simpl. rewrite Hp. reflexivity. }
  split; [exact C|].
  repeat split; intros;
    try (unfold store_conversation, get_user_profile, flush_buffer;
         cbv zeta; rewrite run_guard; rewrite C; cbv zeta;
         cbn [mgr world trace outcome]; rewrite Hc; reflexivity).
Qed.

(** ** No exception reaches the caller *)

Lemma ends_in_failure_app t1 t2 :
  ends_in_failure (t1 ++ t2) =
  if existsb is_remote t2 then ends_in_failure t2 else ends_in_failure t1.
Proof.
  unfold ends_in_failure, last_remote.
  rewrite filter_app, map_app.
  induction t2 as [| ev t2 IH] using rev_ind.
  - simpl. rewrite app_nil_r. reflexivity.
  - rewrite filter_app, map_app, existsb_app. simpl.
    destruct (is_remote ev); simpl.
    + rewrite orb_true_r. rewrite app_assoc, !last_last. reflexivity.
    + rewrite orb_false_r, !app_nil_r. exact IH.
Qed.


Lemma contained_guard {A : Type} (sentinel : A) (body : Prog A) m w :
  (forall m' w', contained sentinel (run body m' w')) ->
  contained sentinel
    (run (stop <- not_connected_and_connect_fails ;;
          if stop then Ret sentinel else body) m w).
Proof.
  intros Hb. rewrite run_guard. cbv zeta.
  destruct (connect_summary m w) as (_ & _ & _ & _ & Hl & He).
  cbv zeta in Hl, He.
  destruct (_connected (mgr (run connect m w))) eqn:C.
  - destruct (Hb (mgr (run connect m w)) (world (run connect m w)))
      as (Ha & Hl' & He').
    unfold contained. cbn [outcome trace]. split; [exact Ha|]. split.
    + apply failures_logged_app; assumption.
    + rewrite ends_in_failure_app.
      destruct (existsb is_remote _); [exact He'|].
      right. destruct He as [He|He]; [discriminate | exact He].
  - unfold contained. cbn [outcome trace].
    split; [eexists; reflexivity|]. split; [exact Hl | left; reflexivity].
Qed.

(** Without cancellation: the operations return a value from every manager
    and every state of the service; every remote call that failed is
    followed by a warning or an error record carrying its exception; an
    operation whose last remote call failed returns false, or the empty
    string; connect returns the connected flag it leaves. *)
Lemma operations_contained m w :
  contained false (run connect m w) /\
  outcome (run connect m w) = Returned (_connected (mgr (run connect m w))) /\
  (forall um ar an, contained false (run (store_conversation um ar an) m w)) /\
  (forall mt pt,
     contained (Some "") (run (get_user_profile mt pt) m w) /\
     exists s, outcome (run (get_user_profile mt pt) m w) = Returned (Some s)) /\
  contained false (run flush_buffer m w).
Proof.
  destruct (connect_summary m w) as (Ho & _ & _ & _ & Hl & He).
  cbv zeta in Ho, Hl, He.
  split; [|split; [exact Ho|]].
  { unfold contained. rewrite Ho. split; [eexists; reflexivity|].
    split; [exact Hl|]. destruct He as [He|He]; [left; rewrite He|right];
      auto. }
  split; [|split].
  - intros um ar an. unfold store_conversation. cbv zeta.
    apply contained_guard. intros [u i c] w'. unfold contained.
    destruct u as [h|]; unfold insert_exchange, LOGGER, perform, await;
      remote_steps;
      (split; [eexists; reflexivity|]); simpl; intuition (try congruence; auto).
  - intros mt pt.
    assert (B : forall m' w',
      contained (Some "")
        (run (retry_loop (S max_retries) (or_default default_max_tokens mt) pt 0)
             m' w') /\
      exists s,
        outcome (run (retry_loop (S max_retries)
                                 (or_default default_max_tokens mt) pt 0) m' w')
        = Returned (Some s)).
    { intros [u i c] w'. unfold contained.
      destruct u as [h|]; unfold LOGGER, perform, await; remote_steps;
        (split; [split; [eexists; reflexivity|]|eexists; reflexivity]);
        simpl; intuition (try congruence; auto). }
    split.
    + unfold get_user_profile. cbv zeta. apply contained_guard.
      intros m' w'. apply B.
    + unfold get_user_profile. cbv zeta. rewrite run_guard. cbv zeta.
      destruct (_connected _); cbn [outcome]; [apply B|eexists; reflexivity].
  - unfold flush_buffer. apply contained_guard. intros [u i c] w'.
    unfold contained.
    destruct u as [h|]; unfold flush_user, LOGGER, perform, await;
      remote_steps;
      (split; [eexists; reflexivity|]); simpl; intuition (try congruence; auto).
Qed.

(** A cancelled call either ends with CancelledError, or it had ended
    before the cancellation, as the call that nobody cancels. *)
Lemma run_cancelled_cases {A : Type} n (p : Prog A) m w :
  exit (run_cancelled n p m w) = CancelledError \/
  run_cancelled n p m w =
  mkStopped (Normal (outcome (run p m w))) (mgr (run p m w))
            (world (run p m w)) (trace (run p m w)).
Proof.
  revert n m w.
  induction p as [a | e | X op k IH]; intros n m w;
    [right; reflexivity | right; reflexivity |].
  cbn [run_cancelled run].
  destruct (exec_op op m w) as [[[x m1] w1] evs].
  destruct (kind op); [| destruct n as [| n'] |..];
    try (left; reflexivity);
    match goal with
    | |- context [run_cancelled ?i (k x) m1 w1] =>
        destruct (IH x i m1 w1) as [H | H];
          [left; exact H | right; rewrite H; reflexivity]
    end.
Qed.



Lemma call_returns c m w : exists v, outcome (run (call c) m w) = Returned v.
Proof.
  destruct (operations_contained m w) as (_ & Hc & Hs & Hp & Hf).
  destruct c; unfold call; rewrite run_bind; cbv zeta.
  - rewrite Hc. cbn. eauto.
  - destruct (Hs user_message assistant_response assistant_name)
      as ((a & ->) & _). cbn. eauto.
  - destruct (Hp max_tokens prefer_topics) as (_ & (s & ->)). cbn. eauto.
  - destruct Hf as ((a & ->) & _). cbn. eauto.
  - cbn. eauto.
Qed.



(** ** The accessor *)

(** When connect switches the flag on, the last thing it did on the service
    is a get_user that succeeded, and the manager holds that handle and that
    identifier. *)
Lemma connect_success m w :
  _connected m = false ->
  _connected (mgr (run connect m w)) = true ->
  exists tr id h l,
    trace (run connect m w) = tr ++ [EvGetUser id (Ok h); EvLog l] /\
    user (mgr (run connect m w)) = Some h /\
    user_id (mgr (run connect m w)) = Some id.
Proof.
  destruct m as [u i c]. simpl. intros ->.
  unfold_connect. simpl.
  remote_step; try (simpl; discriminate).
  destruct i as [uid|]; simpl; [destruct (truthy (Some uid)); simpl|];
    repeat remote_step; simpl; intros H; try discriminate.
  - exists [EvPing (Ok true)]. repeat eexists.
  - eexists [_; _; _; _]. repeat eexists.
  - eexists [_; _]. repeat eexists.
  - eexists [_; _]. repeat eexists.
Qed.

Lemma run_get_user_id m w :
  run get_user_id m w =
  mkFinal (Returned (if _connected m then user_id m else None)) m w [].
Proof. reflexivity. Qed.

(** C6.  get_user_id returns the stored identifier when the connected flag
    is set and None when it is not, shows no event and leaves manager and
    service as they are.  It returns None on a new manager and after a
    connect that returned false; after a connect that returned true on an
    unconnected manager it returns the identifier of the get_user that
    connect ended with. *)
Theorem get_user_id_gated m w :
  run get_user_id m w =
    mkFinal (Returned (if _connected m then user_id m else None)) m w [] /\
  (forall uid, outcome (run get_user_id (init uid) w) = Returned None) /\
  (outcome (run connect m w) = Returned false ->
   forall w',
     outcome (run get_user_id (mgr (run connect m w)) w') = Returned None) /\
  (_connected m = false ->
   outcome (run connect m w) = Returned true ->
   exists tr id h l,
     trace (run connect m w) = tr ++ [EvGetUser id (Ok h); EvLog l] /\
     forall w',
       outcome (run get_user_id (mgr (run connect m w)) w') =
       Returned (Some id)).
Proof.
  destruct (connect_summary m w) as (Ho & _). cbv zeta in Ho.
  split; [reflexivity|]. split; [reflexivity|]. split.
  - intros H w'. rewrite run_get_user_id. cbn [outcome].
    assert (C : _connected (mgr (run connect m w)) = false) by congruence.
    rewrite C. reflexivity.
  - intros Hm H.
    assert (C : _connected (mgr (run connect m w)) = true) by congruence.
    clear Ho. rename C into Ho.
    destruct (connect_success m w Hm Ho) as (tr & id & h & l & Ht & _ & Hi).
    exists tr, id, h, l. split; [exact Ht|].
    intros w'. rewrite run_get_user_id. cbn [outcome].
    rewrite Ho, Hi. reflexivity.
Qed.

(** ** The handle invariant *)

Lemma mgr_guard {A : Type} (sentinel : A) (body : Prog A) m w :
  (forall m' w', mgr (run body m' w') = m') ->
  mgr (run (stop <- not_connected_and_connect_fails ;;
            if stop then Ret sentinel else body) m w) =
  mgr (run connect m w).
Proof.
  intros Hb. rewrite run_guard. cbv zeta.
  destruct (_connected _); cbn [mgr]; [apply Hb | reflexivity].
Qed.

(** After any public call the manager is the one connect would leave, or
    the one before the call. *)
Lemma mgr_call c m w :
  mgr (run (call c) m w) = mgr (run connect m w) \/
  mgr (run (call c) m w) = m.
Proof.
  assert (T : forall A (p : Prog A) (v : A -> Value) m w,
             mgr (run (r <- p ;; Ret (v r)) m w) = mgr (run p m w)).
  { intros A p v m0 w0. rewrite run_bind. cbv zeta.
    destruct (outcome (run p m0 w0)); reflexivity. }
  destruct c; unfold call; rewrite T.
  - left. reflexivity.
  - left. unfold store_conversation. cbv zeta. apply mgr_guard.
    intros [u i c] w'.
    destruct u; unfold insert_exchange, LOGGER, perform, await;
      remote_steps; reflexivity.
  - left. unfold get_user_profile. cbv zeta. apply mgr_guard.
    intros [u i c] w'. destruct u; unfold LOGGER, perform, await;
      remote_steps; reflexivity.
  - left. unfold flush_buffer. apply mgr_guard.
    intros [u i c] w'.
    destruct u; unfold flush_user, LOGGER, perform, await;
      remote_steps; reflexivity.
  - right. reflexivity.
Qed.

Lemma call_monotone c m w :
  let f := run (call c) m w in
  (_connected m = true -> _connected (mgr f) = true) /\
  (user m <> None -> user (mgr f) <> None) /\
  (handle_held m -> handle_held (mgr f)).
Proof.
  cbv zeta. destruct (connect_summary m w) as (_ & Hc & Hu & Hn & _).
  cbv zeta in Hc, Hu, Hn. unfold handle_held.
  destruct (mgr_call c m w) as [-> | ->]; [|tauto].
  repeat split; auto.
  intros Hi Hf. destruct (Hn Hf); auto.
Qed.

Lemma calls_handle_held cs m w :
  handle_held m -> handle_held (mgr (run (calls cs) m w)).
Proof.
  revert m w. induction cs as [| c cs IH]; intros m w Hm; simpl calls.
  - exact Hm.
  - rewrite run_bind. cbv zeta.
    pose proof (call_monotone c m w) as (_ & _ & Hh). cbv zeta in Hh.
    destruct (outcome (run (call c) m w)); cbn [mgr]; auto.
Qed.


(** ** Idempotence of connect *)

Lemma calls_connected cs m w :
  _connected m = true -> _connected (mgr (run (calls cs) m w)) = true.
Proof.
  revert m w. induction cs as [| c cs IH]; intros m w Hm; simpl calls.
  - exact Hm.
  - rewrite run_bind. cbv zeta.
    pose proof (call_monotone c m w) as (Hc & _). cbv zeta in Hc.
    destruct (outcome (run (call c) m w)); cbn [mgr]; auto.
Qed.

(** C5.  Once a call of connect has returned true the connected flag is
    set, and every later call of connect, after any public calls made in
    between and whatever the state of the service then, returns true at
    once: no event at all, manager and service untouched.  Two calls in a
    row perform the ping and identity sequence of the first call only. *)
Theorem connect_idempotent m w :
  outcome (run connect m w) = Returned true ->
  let f := run connect m w in
  _connected (mgr f) = true /\
  (forall cs w1 w2,
     let m' := mgr (run (calls cs) (mgr f) w1) in
     run connect m' w2 = mkFinal (Returned true) m' w2 []) /\
  run (connect ;; connect) m w = f.
Proof.
  intros H. cbv zeta.
  destruct (connect_summary m w) as (Ho & _). cbv zeta in Ho.
  rewrite run_bind. cbv zeta.
  destruct (run connect m w) as [o m' w1 t]. cbn [outcome mgr world trace] in *.
  assert (C : _connected m' = true) by congruence.
  split; [exact C|]. split.
  - intros cs v1 v2. apply connect_connected, calls_connected, C.
  - subst o. rewrite (connect_connected m' w1 C). simpl.
    rewrite app_nil_r. reflexivity.
Qed.

(** One caller: from a new manager, after any sequence of public calls, a
    manager whose connected flag is set holds a user handle; no public call
    clears the flag or drops a handle; a call that switches the flag on
    leaves the manager that connect leaves, and that connect ended on the
    service with a get_user that succeeded, whose handle the manager
    holds. *)
Lemma calls_hold_handle :
  (forall uid cs w,
     _connected (mgr (run (calls cs) (init uid) w)) = true ->
     exists h, user (mgr (run (calls cs) (init uid) w)) = Some h) /\
  (forall c m w,
     (_connected m = true -> _connected (mgr (run (call c) m w)) = true) /\
     (user m <> None -> user (mgr (run (call c) m w)) <> None)) /\
  (forall c m w,
     _connected m = false ->
     _connected (mgr (run (call c) m w)) = true ->
     mgr (run (call c) m w) = mgr (run connect m w) /\
     exists tr id h l,
       trace (run connect m w) = tr ++ [EvGetUser id (Ok h); EvLog l] /\
       user (mgr (run (call c) m w)) = Some h).
Proof.
  split; [|split].
  - intros uid cs w H.
    assert (I : handle_held (init uid)) by (intros C; discriminate).
    apply (calls_handle_held cs w) in I.
    destruct (user (mgr (run (calls cs) (init uid) w))) as [h|] eqn:U.
    + exists h. reflexivity.
    + exfalso. apply (I H). exact U.
  - intros c m w. pose proof (call_monotone c m w) as (Hc & Hu & _).
    split; assumption.
  - intros c m w Hm Hf.
    destruct (mgr_call c m w) as [E | E]; [|congruence].
    split; [exact E|]. rewrite E in Hf |- *.
    destruct (connect_success m w Hm Hf) as (tr & id & h & l & Ht & Hu & _).
    exists tr, id, h, l. split; assumption.
Qed.

(** ** Identity resolution *)

(** A supplied identifier passes the test of line 58 exactly when it is
    not the empty string. *)
Lemma truthy_nonempty uid : truthy (Some uid) = true <-> uid <> "".
Proof.
  unfold truthy. rewrite negb_true_iff. apply String.eqb_neq.
Qed.

(** C2, amended.  On an unconnected manager built with an identifier that
    is not the empty string (one that passes the test of line 58), connect
    after a successful ping calls get_user with that identifier; when that
    call fails it logs a warning and calls add_user with the source marker,
    once in the whole call; when add_user returns an identifier the manager
    stores it and connect fetches it with get_user; when that succeeds
    connect returns true, holding the new handle. *)
Theorem fallback_creates_one_user m w uid w1 e w2 ra w3 :
  _connected m = false ->
  user_id m = Some uid ->
  truthy (Some uid) = true ->
  client_ping w = (Ok true, w1) ->
  client_get_user uid w1 = (Err e, w2) ->
  client_add_user source_marker w2 = (ra, w3) ->
  exists rest,
    trace (run connect m w) =
      [EvPing (Ok true); EvGetUser uid (Err e);
       EvLog (mkLog WARNING "User ID %s not found, creating new user: %s"
                    [AStr uid; AErr e]);
       EvAddUser source_marker ra] ++ rest /\
    count is_add_user (trace (run connect m w)) = 1 /\
    forall n, ra = Ok n ->
      user_id (mgr (run connect m w)) = Some n /\
      (exists l, rest = [EvGetUser n (fst (client_get_user n w3)); EvLog l]) /\
      forall h, fst (client_get_user n w3) = Ok h ->
        outcome (run connect m w) = Returned true /\
        user (mgr (run connect m w)) = Some h /\
        _connected (mgr (run connect m w)) = true.
Proof.
  destruct m as [u i c]. simpl. intros -> -> Hne Hp Hg Ha.
  unfold_connect. simpl. rewrite Hp. simpl. rewrite Hne. simpl.
  rewrite Hg. simpl. rewrite Ha. simpl.
  destruct ra as [n|e']; simpl.
  - remote_step.
    + eexists. split; [reflexivity|]. split; [reflexivity|].
      intros n' [= <-]. rewrite Heqp. simpl.
      split; [reflexivity|]. split; [eexists; reflexivity|].
      intros h [= <-]. auto.
    + eexists. split; [reflexivity|]. split; [reflexivity|].
      intros n' [= <-]. rewrite Heqp. simpl.
      split; [reflexivity|]. split; [eexists; reflexivity|].
      intros h [=].
  - eexists. split; [reflexivity|]. split; [reflexivity|].
    intros n [=].
Qed.

(** The identifier that connect leaves is the one it found, or one that
    add_user answered during the call. *)
Lemma connect_identifier m w :
  user_id (mgr (run connect m w)) = user_id m \/
  exists id,
    user_id (mgr (run connect m w)) = Some id /\
    In (EvAddUser source_marker (Ok id)) (trace (run connect m w)).
Proof.
  destruct m as [u i c]. destruct c.
  - rewrite connect_connected by reflexivity. left. reflexivity.
  - unfold_connect. simpl.
    remote_step;
      [ destruct i as [uid|]; simpl; [destruct (truthy (Some uid)); simpl|];
        repeat remote_step; simpl | simpl | simpl ];
      first [ left; reflexivity
            | right; eexists; split; [reflexivity | simpl; eauto 8] ].
Qed.

Lemma call_identifier c m w :
  user_id (mgr (run (call c) m w)) = user_id m \/
  exists id,
    user_id (mgr (run (call c) m w)) = Some id /\
    In (EvAddUser source_marker (Ok id)) (trace (run (call c) m w)).
Proof.
  assert (T : forall A (p : Prog A) (v : A -> Value),
             mgr (run (r <- p ;; Ret (v r)) m w) = mgr (run p m w) /\
             trace (run (r <- p ;; Ret (v r)) m w) = trace (run p m w)).
  { intros A p v. rewrite run_bind. cbv zeta.
    destruct (outcome (run p m w)); cbn [mgr trace run];
      rewrite ?app_nil_r; split; reflexivity. }
  assert (G : forall A (sentinel : A) (body : Prog A),
             (forall m' w', mgr (run body m' w') = m') ->
             mgr (run (stop <- not_connected_and_connect_fails ;;
                       if stop then Ret sentinel else body) m w) =
               mgr (run connect m w) /\
             exists tl,
               trace (run (stop <- not_connected_and_connect_fails ;;
                           if stop then Ret sentinel else body) m w) =
               trace (run connect m w) ++ tl).
  { intros A sentinel body Hb. split; [apply mgr_guard, Hb|].
    rewrite run_guard. cbv zeta.
    destruct (_connected _); cbn [trace];
      [eexists; reflexivity | exists []; rewrite app_nil_r; reflexivity]. }
  assert (K : forall f : Final Value,
             (mgr f = mgr (run connect m w) /\
              exists tl, trace f = trace (run connect m w) ++ tl) ->
             user_id (mgr f) = user_id m \/
             exists id,
               user_id (mgr f) = Some id /\
               In (EvAddUser source_marker (Ok id)) (trace f)).
  { intros f (Hm & tl & Ht). rewrite Hm, Ht.
    destruct (connect_identifier m w) as [H | (id & H1 & H2)];
      [left; exact H | right].
    exists id. split; [exact H1 | apply in_or_app; left; exact H2]. }
  destruct c; unfold call.
  - apply K. destruct (T _ connect VBool) as (-> & ->).
    split; [reflexivity | exists []; rewrite app_nil_r; reflexivity].
  - apply K.
    destruct (T _ (store_conversation user_message assistant_response
                                      assistant_name) VBool) as (-> & ->).
    unfold store_conversation. cbv zeta. apply G.
    intros [u i c] w'.
    destruct u; unfold insert_exchange, LOGGER, perform, await;
      remote_steps; reflexivity.
  - apply K.
    destruct (T _ (get_user_profile max_tokens prefer_topics) VText)
      as (-> & ->).
    unfold get_user_profile. cbv zeta. apply G.
    intros [u i c] w'. destruct u; unfold LOGGER, perform, await;
      remote_steps; reflexivity.
  - apply K. destruct (T _ flush_buffer VBool) as (-> & ->).
    unfold flush_buffer. apply G.
    intros [u i c] w'.
    destruct u; unfold flush_user, LOGGER, perform, await;
      remote_steps; reflexivity.
  - left. reflexivity.
Qed.

Lemma calls_identifier cs m w :
  user_id (mgr (run (calls cs) m w)) = user_id m \/
  exists id,
    user_id (mgr (run (calls cs) m w)) = Some id /\
    In (EvAddUser source_marker (Ok id)) (trace (run (calls cs) m w)).
Proof.
  revert m w. induction cs as [| c cs IH]; intros m w; [left; reflexivity|].
  change (calls (c :: cs)) with (call c ;; calls cs).
  rewrite run_bind. cbv zeta.
  destruct (call_returns c m w) as (v & Hv). rewrite Hv.
  cbn [mgr trace].
  destruct (IH (mgr (run (call c) m w)) (world (run (call c) m w)))
    as [H | (id & H1 & H2)].
  - rewrite H.
    destruct (call_identifier c m w) as [H' | (id & H1 & H2)];
      [left; exact H' | right].
    exists id. split; [exact H1 | apply in_or_app; left; exact H2].
  - right. exists id. split; [exact H1 | apply in_or_app; right; exact H2].
Qed.

(** An unconnected manager that stores an identifier that is not the empty
    string: connect after a successful ping calls get_user on it first. *)
Lemma connect_fetches_stored m id v v1 :
  _connected m = false ->
  user_id m = Some id ->
  truthy (Some id) = true ->
  client_ping v = (Ok true, v1) ->
  exists rest,
    trace (run connect m v) =
    EvPing (Ok true) :: EvGetUser id (fst (client_get_user id v1)) :: rest.
Proof.
  destruct m as [u i c]. cbn [_connected user_id]. intros -> -> Hn Hv.
  unfold_connect. simpl. rewrite Hv. simpl. rewrite Hn. simpl.
  destruct (client_get_user id v1) as [[h|e1] v2]; simpl.
  - eexists. reflexivity.
  - remote_steps; eexists; reflexivity.
Qed.

(** C10, amended.  When, on the fallback path of a manager built with an
    identifier, add_user returns a new identifier and the get_user of that
    identifier raises, connect returns false with the connected flag off
    and the new identifier stored, and get_user_id returns None.  The
    connect that follows at once, when its ping succeeds, calls get_user
    first on the new identifier, provided that identifier passes the test
    of line 58 (it is not the empty string).  After any public calls in
    between, a connect on the manager, if it is still unconnected, whose
    ping succeeds calls get_user first on the identifier stored by then,
    provided it is not the empty string; that identifier is the new one
    unless an add_user of one of the calls in between has answered the one
    that is stored. *)
Theorem failed_fallback_keeps_new_id m w uid w1 e w2 n w3 e' w4 :
  _connected m = false ->
  user_id m = Some uid ->
  truthy (Some uid) = true ->
  client_ping w = (Ok true, w1) ->
  client_get_user uid w1 = (Err e, w2) ->
  client_add_user source_marker w2 = (Ok n, w3) ->
  client_get_user n w3 = (Err e', w4) ->
  outcome (run connect m w) = Returned false /\
  _connected (mgr (run connect m w)) = false /\
  user_id (mgr (run connect m w)) = Some n /\
  (forall v, outcome (run get_user_id (mgr (run connect m w)) v) =
             Returned None) /\
  (forall v v1,
     truthy (Some n) = true ->
     client_ping v = (Ok true, v1) ->
     exists rest,
       trace (run connect (mgr (run connect m w)) v) =
       EvPing (Ok true) :: EvGetUser n (fst (client_get_user n v1)) :: rest) /\
  (forall cs w' v v1,
     _connected (mgr (run (calls cs) (mgr (run connect m w)) w')) = false ->
     client_ping v = (Ok true, v1) ->
     exists id,
       user_id (mgr (run (calls cs) (mgr (run connect m w)) w')) = Some id /\
       (id = n \/
        In (EvAddUser source_marker (Ok id))
           (trace (run (calls cs) (mgr (run connect m w)) w'))) /\
       (truthy (Some id) = true ->
        exists rest,
          trace (run connect
                     (mgr (run (calls cs) (mgr (run connect m w)) w')) v) =
          EvPing (Ok true) :: EvGetUser id (fst (client_get_user id v1))
            :: rest)).
Proof.
  destruct m as [u i c]. cbn [_connected user_id]. intros -> -> Hne Hp Hg Ha Hg'.
  assert (R : run connect (mkManager u (Some uid) false) w =
              mkFinal (Returned false) (mkManager u (Some n) false) w4
                [EvPing (Ok true); EvGetUser uid (Err e);
                 EvLog (mkLog WARNING
                          "User ID %s not found, creating new user: %s"
                          [AStr uid; AErr e]);
                 EvAddUser source_marker (Ok n); EvGetUser n (Err e');
                 EvLog (mkLog ERROR "Error connecting to Memobase: %s"
                              [AErr e'])]).
  { unfold_connect. simpl. rewrite Hp. simpl. rewrite Hne. simpl.
    rewrite Hg. simpl. rewrite Ha. simpl. rewrite Hg'. reflexivity. }
  rewrite R. cbn [outcome mgr world trace].
  split; [reflexivity|]. split; [reflexivity|]. split; [reflexivity|].
  split; [reflexivity|]. split.
  - intros v v1 Hn Hv.
    apply (@connect_fetches_stored (mkManager u (Some n) false) n v v1);
      auto.
  - intros cs w' v v1 Hc Hv.
    set (m1 := mkManager u (Some n) false) in *.
    assert (Hid : exists id,
               user_id (mgr (run (calls cs) m1 w')) = Some id /\
               (id = n \/
                In (EvAddUser source_marker (Ok id))
                   (trace (run (calls cs) m1 w')))).
    { destruct (calls_identifier cs m1 w') as [H | (id & H1 & H2)].
      - exists n. split; [rewrite H; reflexivity | left; reflexivity].
      - exists id. split; [exact H1 | right; exact H2]. }
    destruct Hid as (id & H1 & H2).
    exists id. split; [exact H1|]. split; [exact H2|].
    intros Hn.
    apply (@connect_fetches_stored (mgr (run (calls cs) m1 w')) id v v1);
      auto.
Qed.


(** ** The retry policy of get_user_profile *)

(** The loop never uses up its fuel: more fuel changes nothing. *)
Lemma retry_loop_fuel fuel mt pt retry_count :
  max_retries - retry_count < fuel ->
  retry_loop (S fuel) mt pt retry_count = retry_loop fuel mt pt retry_count.
Proof.
  revert retry_count.
  induction fuel as [| fuel IH]; intros rc H; [lia|].
  cbn [retry_loop].
  destruct (rc <? max_retries)%nat eqn:L; [|reflexivity].
  f_equal.
  destruct (max_retries <=? rc + 1)%nat eqn:G.
  - reflexivity.
  - apply Nat.leb_gt in G.
    rewrite <- (IH (rc + 1)) by lia. reflexivity.
Qed.

(** The three attempts of get_user_profile on a connected manager that
    holds handle [h]. *)
Lemma retry_policy_with_handle m h mt pt w :
  _connected m = true ->
  user m = Some h ->
  let tokens := or_default default_max_tokens mt in
  let attempt := EvContext h tokens pt in
  let f := run (get_user_profile mt pt) m w in
  mgr f = m /\
  match user_context h tokens pt w with
  | (Ok s1, w1) =>
      outcome f = Returned (Some s1) /\ world f = w1 /\
      trace f = [attempt (Ok s1)]
  | (Err e1, w1) =>
      match user_context h tokens pt w1 with
      | (Ok s2, w2) =>
          outcome f = Returned (Some s2) /\ world f = w2 /\
          trace f = [attempt (Err e1); attempt_warning 1 e1; EvSleep 1;
                     attempt (Ok s2)]
      | (Err e2, w2) =>
          match user_context h tokens pt w2 with
          | (Ok s3, w3) =>
              outcome f = Returned (Some s3) /\ world f = w3 /\
              trace f = [attempt (Err e1); attempt_warning 1 e1; EvSleep 1;
                         attempt (Err e2); attempt_warning 2 e2; EvSleep 1;
                         attempt (Ok s3)]
          | (Err e3, w3) =>
              outcome f = Returned (Some "") /\ world f = w3 /\
              trace f = [attempt (Err e1); attempt_warning 1 e1; EvSleep 1;
                         attempt (Err e2); attempt_warning 2 e2; EvSleep 1;
                         attempt (Err e3); attempt_warning 3 e3] /\
              count is_context (trace f) = 3 /\
              count is_warning (trace f) = 3 /\
              count is_sleep (trace f) = 2
          end
      end
  end.
Proof.
  intros Hc Hu. cbv zeta.
  unfold get_user_profile. cbv zeta. rewrite run_guard.
  rewrite (connect_connected m w Hc). cbv zeta. cbn [mgr world trace].
  rewrite Hc. generalize (or_default default_max_tokens mt). intros tokens.
  destruct m as [u i c]. cbn [user] in Hu. subst u.
  unfold LOGGER, perform, await. simpl.
  destruct (user_context h tokens pt w) as [[s1|e1] w1]; simpl;
    [repeat split|].
  destruct (user_context h tokens pt w1) as [[s2|e2] w2]; simpl;
    [repeat split|].
  destruct (user_context h tokens pt w2) as [[s3|e3] w3]; simpl;
    repeat split.
Qed.

Lemma reachable_connected m :
  reachable m -> _connected m = true -> exists h, user m = Some h.
Proof.
  intros (uid & cs & w & ->) Hc.
  assert (I : handle_held (init uid)) by (intros C; discriminate).
  apply (calls_handle_held cs w) in I.
  destruct (user (mgr (run (calls cs) (init uid) w))) as [h|] eqn:U.
  - exists h. reflexivity.
  - exfalso. apply (I Hc). exact U.
Qed.

(** C1.  On a connected manager get_user_profile calls context on the
    handle of the manager at most three times and leaves the manager as it
    is.  The first attempt that succeeds ends the call with its result: no
    further attempt, warning or sleep.  Every failed attempt is followed by
    one warning with its number; a sleep of 1 follows the warning of the
    first and of the second failure only.  When all three attempts fail the
    call returns the empty string: 3 attempts, 3 warnings, 2 sleeps. *)
Theorem profile_retry_policy m mt pt w :
  reachable m ->
  _connected m = true ->
  exists h,
    user m = Some h /\
    let tokens := or_default default_max_tokens mt in
    let attempt := EvContext h tokens pt in
    let f := run (get_user_profile mt pt) m w in
    mgr f = m /\
    match user_context h tokens pt w with
    | (Ok s1, w1) =>
        outcome f = Returned (Some s1) /\ world f = w1 /\
        trace f = [attempt (Ok s1)]
    | (Err e1, w1) =>
        match user_context h tokens pt w1 with
        | (Ok s2, w2) =>
            outcome f = Returned (Some s2) /\ world f = w2 /\
            trace f = [attempt (Err e1); attempt_warning 1 e1; EvSleep 1;
                       attempt (Ok s2)]
        | (Err e2, w2) =>
            match user_context h tokens pt w2 with
            | (Ok s3, w3) =>
                outcome f = Returned (Some s3) /\ world f = w3 /\
                trace f = [attempt (Err e1); attempt_warning 1 e1; EvSleep 1;
                           attempt (Err e2); attempt_warning 2 e2; EvSleep 1;
                           attempt (Ok s3)]
            | (Err e3, w3) =>
                outcome f = Returned (Some "") /\ world f = w3 /\
                trace f = [attempt (Err e1); attempt_warning 1 e1; EvSleep 1;
                           attempt (Err e2); attempt_warning 2 e2; EvSleep 1;
                           attempt (Err e3); attempt_warning 3 e3] /\
                count is_context (trace f) = 3 /\
                count is_warning (trace f) = 3 /\
                count is_sleep (trace f) = 2
            end
        end
    end.
Proof.
  intros Hr Hc. destruct (reachable_connected Hr Hc) as (h & Hu).
  exists h. split; [exact Hu|].
  apply (retry_policy_with_handle m mt pt w Hc Hu).
Qed.

(** ** The exchange submitted by store_conversation *)

(** store_conversation on a connected manager that holds handle [h]. *)
Lemma store_with_handle m h um ar an w :
  _connected m = true ->
  user m = Some h ->
  let blob :=
    mkChatBlob
      [ [("role", "user"); ("content", um)];
        [("role", "assistant"); ("content", ar);
         ("alias", or_default "Assistant" an)] ] in
  let f := run (store_conversation um ar an) m w in
  mgr f = m /\
  world f = snd (user_insert h blob w) /\
  count is_insert (trace f) = 1 /\
  count is_remote (trace f) = 1 /\
  match fst (user_insert h blob w) with
  | Ok _ =>
      outcome f = Returned true /\
      trace f = [EvInsert h blob (Ok tt);
                 EvLog (mkLog DEBUG "Stored conversation in Memobase" [])]
  | Err e =>
      outcome f = Returned false /\
      trace f = [EvInsert h blob (Err e);
                 EvLog (mkLog ERROR
                          "Error storing conversation in Memobase: %s"
                          [AErr e])]
  end.
Proof.
  intros Hc Hu. cbv zeta.
  unfold store_conversation. cbv zeta. rewrite run_guard.
  rewrite (connect_connected m w Hc). cbv zeta. cbn [mgr world trace].
  rewrite Hc.
  destruct m as [u i c]. cbn [user] in Hu. subst u.
  unfold insert_exchange, LOGGER, perform, await, exchange,
    default_assistant_name. simpl.
  destruct (user_insert h _ w) as [[[]|e] w1]; simpl; repeat split.
Qed.

(** C7.  On a connected manager store_conversation calls insert on the
    handle of the manager once, and makes no other remote call, with a
    ChatBlob of two messages: role user with the user message as content,
    then role assistant with the assistant response as content and the
    assistant name, Assistant when the argument is left out, as alias.  It
    returns true when insert succeeds and false, after an error record,
    when insert raises. *)
Theorem store_submits_exchange m um ar an w :
  reachable m ->
  _connected m = true ->
  exists h,
    user m = Some h /\
    let name := or_default "Assistant" an in
    let blob := mkChatBlob (exchange um ar name) in
    let f := run (store_conversation um ar an) m w in
    map (fun d => dict_get d "role") (messages blob) =
      [Some "user"; Some "assistant"] /\
    map (fun d => dict_get d "content") (messages blob) = [Some um; Some ar] /\
    map (fun d => dict_get d "alias") (messages blob) = [None; Some name] /\
    mgr f = m /\
    world f = snd (user_insert h blob w) /\
    count is_insert (trace f) = 1 /\
    count is_remote (trace f) = 1 /\
    match fst (user_insert h blob w) with
    | Ok _ =>
        outcome f = Returned true /\
        trace f = [EvInsert h blob (Ok tt);
                   EvLog (mkLog DEBUG "Stored conversation in Memobase" [])]
    | Err e =>
        outcome f = Returned false /\
        trace f = [EvInsert h blob (Err e);
                   EvLog (mkLog ERROR
                            "Error storing conversation in Memobase: %s"
                            [AErr e])]
    end.
Proof.
  intros Hr Hc. destruct (reachable_connected Hr Hc) as (h & Hu).
  exists h. split; [exact Hu|]. cbv zeta.
  split; [reflexivity|]. split; [reflexivity|]. split; [reflexivity|].
  apply (store_with_handle m um ar an w Hc Hu).
Qed.

(** ** The branches of connect *)

(** X1.  On an unconnected manager whose identifier is None or the empty
    string, connect after a successful ping calls add_user with the source
    marker and no get_user before it.  When add_user raises, connect logs
    the error and returns false with the manager as it was.  When add_user
    answers an identifier, connect stores it and fetches it: on success it
    returns true holding the handle, the new identifier and the flag; on
    failure it returns false and the manager keeps the new identifier. *)
Theorem connect_without_identifier m w w1 ra w2 :
  _connected m = false ->
  truthy (user_id m) = false ->
  client_ping w = (Ok true, w1) ->
  client_add_user source_marker w1 = (ra, w2) ->
  match ra with
  | Err e =>
      run connect m w =
      mkFinal (Returned false) m w2
        [EvPing (Ok true); EvAddUser source_marker (Err e);
         EvLog (mkLog ERROR "Error connecting to Memobase: %s" [AErr e])]
  | Ok n =>
      match client_get_user n w2 with
      | (Ok h, w3) =>
          run connect m w =
          mkFinal (Returned true) (mkManager (Some h) (Some n) true) w3
            [EvPing (Ok true); EvAddUser source_marker (Ok n);
             EvGetUser n (Ok h);
             EvLog (mkLog INFO "Created new Memobase user: %s" [AStr n])]
      | (Err e, w3) =>
          run connect m w =
          mkFinal (Returned false) (set_user_id n m) w3
            [EvPing (Ok true); EvAddUser source_marker (Ok n);
             EvGetUser n (Err e);
             EvLog (mkLog ERROR "Error connecting to Memobase: %s" [AErr e])]
      end
  end.
Proof.
  destruct m as [u i c]. cbn [_connected user_id]. intros -> Ht Hp Ha.
  assert (G : run connect (mkManager u i false) w =
              let f := run (try_catch
                              (create_user ;;
                               perform (Assign (set_connected true)) ;;
                               Ret true)
                              (fun err =>
                                 LOGGER ERROR "Error connecting to Memobase: %s"
                                        [AErr err] ;;
                                 Ret false))
                           (mkManager u i false) w1 in
              mkFinal (outcome f) (mgr f) (world f)
                      (EvPing (Ok true) :: trace f)).
  { rewrite run_connect_locked.
    unfold connect_locked, get_or_create_user.
    simpl. rewrite Hp. simpl.
    destruct i as [uid|]; simpl; [rewrite Ht|]; reflexivity. }
  rewrite G. clear G. unfold create_user, LOGGER, perform, await. simpl.
  rewrite Ha. destruct ra as [n|e]; simpl; [|reflexivity].
  destruct (client_get_user n w2) as [[h|e] w3]; reflexivity.
Qed.

(** X2.  On an unconnected manager built with an identifier that is not
    the empty string and that the service knows, connect makes two remote
    calls, the ping and get_user with that identifier, and no add_user; it
    returns true, holds the handle, keeps the identifier and logs that it
    connected to an existing user. *)
Theorem connect_existing_user m w uid w1 h w2 :
  _connected m = false ->
  user_id m = Some uid ->
  truthy (Some uid) = true ->
  client_ping w = (Ok true, w1) ->
  client_get_user uid w1 = (Ok h, w2) ->
  run connect m w =
    mkFinal (Returned true) (mkManager (Some h) (Some uid) true) w2
      [EvPing (Ok true); EvGetUser uid (Ok h);
       EvLog (mkLog INFO "Connected to existing Memobase user: %s"
                    [AStr uid])] /\
  count is_add_user (trace (run connect m w)) = 0 /\
  count is_remote (trace (run connect m w)) = 2.
Proof.
  destruct m as [u i c]. cbn [_connected user_id]. intros -> -> Ht Hp Hg.
  assert (G : run connect (mkManager u (Some uid) false) w =
              mkFinal (Returned true) (mkManager (Some h) (Some uid) true) w2
                [EvPing (Ok true); EvGetUser uid (Ok h);
                 EvLog (mkLog INFO "Connected to existing Memobase user: %s"
                              [AStr uid])]).
  { unfold_connect. simpl. rewrite Hp. simpl. rewrite Ht. simpl.
    rewrite Hg. reflexivity. }
  rewrite G. repeat split.
Qed.

(** X3.  When the ping raises on an unconnected manager, connect,
    store_conversation, get_user_profile and flush_buffer return their
    sentinels; each shows the ping and one error record that carries the
    exception, makes no other remote call and leaves the manager as it
    was. *)
Theorem ping_error_isolates c m w e w' :
  _connected m = false ->
  client_ping w = (Err e, w') ->
  needs_connection c = true ->
  run (call c) m w =
  mkFinal (Returned (sentinel c)) m w'
    [EvPing (Err e);
     EvLog (mkLog ERROR "Error connecting to Memobase: %s" [AErr e])].
Proof.
  intros Hc Hp Hn.
  assert (C : run connect m w =
              mkFinal (Returned false) m w'
                [EvPing (Err e);
                 EvLog (mkLog ERROR "Error connecting to Memobase: %s"
                              [AErr e])]).
  { destruct m as [u i c0]. simpl in Hc. subst c0.
    unfold_connect. simpl. rewrite Hp. reflexivity. }
  destruct c; try discriminate; unfold call;
    rewrite run_bind; cbv zeta;
    try (unfold store_conversation, get_user_profile, flush_buffer;
         cbv zeta; rewrite run_guard; cbv zeta);
    rewrite C; cbn [mgr world trace outcome]; rewrite ?Hc;
    cbn [mgr world trace outcome]; simpl; reflexivity.
Qed.

(** X4.  A connect that returns false started on an unconnected manager and
    leaves it unconnected with the handle it had.  The stored identifier is
    the one it had when no add_user answered, and the identifier that
    add_user answered otherwise.  The last event of the call is an error
    record. *)
Theorem failed_connect_footprint m w :
  outcome (run connect m w) = Returned false ->
  _connected m = false /\
  _connected (mgr (run connect m w)) = false /\
  user (mgr (run connect m w)) = user m /\
  ((user_id (mgr (run connect m w)) = user_id m /\
    forall n, ~ In (EvAddUser source_marker (Ok n)) (trace (run connect m w)))
   \/
   exists n,
     In (EvAddUser source_marker (Ok n)) (trace (run connect m w)) /\
     user_id (mgr (run connect m w)) = Some n) /\
  exists tr f a, trace (run connect m w) = tr ++ [EvLog (mkLog ERROR f a)].
Proof.
  destruct m as [u i c]. destruct c.
  - rewrite connect_connected by reflexivity. discriminate.
  - unfold_connect. simpl.
    remote_step.
    + destruct i as [uid|]; simpl; [destruct (truthy (Some uid)); simpl|];
        repeat remote_step; simpl; intros H; try discriminate;
        (split; [reflexivity|]); (split; [reflexivity|]);
        (split; [reflexivity|]);
        (split;
         [ first
             [ left; split; [reflexivity|];
               intros n Hin; simpl in Hin;
               repeat (destruct Hin as [Hin|Hin]; try discriminate);
               contradiction
             | right; eexists; split; [simpl; eauto 8 | reflexivity] ]
         | first [ eexists [_]; do 2 eexists; reflexivity
                 | eexists [_; _]; do 2 eexists; reflexivity
                 | eexists [_; _; _]; do 2 eexists; reflexivity
                 | eexists [_; _; _; _]; do 2 eexists; reflexivity
                 | eexists [_; _; _; _; _]; do 2 eexists; reflexivity ] ]).
    + intros _. repeat split; try reflexivity.
      * left. split; [reflexivity|]. intros n [Hin|[Hin|[]]]; discriminate.
      * eexists [_]. do 2 eexists. reflexivity.
    + intros _. repeat split; try reflexivity.
      * left. split; [reflexivity|]. intros n [Hin|[Hin|[]]]; discriminate.
      * eexists [_]. do 2 eexists. reflexivity.
Qed.

(** X5.  Whatever the service answers, one connect makes at most one ping,
    one add_user and two get_user calls, no call on a user handle, and it
    never sleeps; on an unconnected manager its first event is the ping. *)
Theorem connect_traffic m w :
  count is_ping (trace (run connect m w)) <= 1 /\
  count is_add_user (trace (run connect m w)) <= 1 /\
  count is_get_user (trace (run connect m w)) <= 2 /\
  count is_remote (trace (run connect m w)) =
    count is_ping (trace (run connect m w)) +
    count is_add_user (trace (run connect m w)) +
    count is_get_user (trace (run connect m w)) /\
  count is_sleep (trace (run connect m w)) = 0 /\
  (_connected m = false ->
   exists r tr, trace (run connect m w) = EvPing r :: tr).
Proof.
  destruct m as [u i c]. destruct c.
  - rewrite connect_connected by reflexivity.
    repeat (split; [cbn; lia|]). discriminate.
  - unfold_connect. simpl.
    remote_step;
      [ destruct i as [uid|]; simpl; [destruct (truthy (Some uid)); simpl|];
        repeat remote_step; simpl | simpl | simpl ];
      repeat (split; [cbn; lia|]); intros _; do 2 eexists; reflexivity.
Qed.

(** ** The operations and the connection *)

(** X6.  When connect returns false, for whatever reason, each of connect,
    store_conversation, get_user_profile and flush_buffer called in its
    place returns its sentinel and does what connect does and nothing
    more: same manager, same state of the service, same events. *)
Theorem connect_failure_isolates c m w :
  needs_connection c = true ->
  outcome (run connect m w) = Returned false ->
  run (call c) m w =
  mkFinal (Returned (sentinel c)) (mgr (run connect m w))
          (world (run connect m w)) (trace (run connect m w)).
Proof.
  intros Hn Hf.
  destruct (connect_summary m w) as (Ho & _). cbv zeta in Ho.
  assert (C : _connected (mgr (run connect m w)) = false) by congruence.
  destruct c; try discriminate; unfold call; rewrite run_bind; cbv zeta;
    try (unfold store_conversation, get_user_profile, flush_buffer;
         cbv zeta; rewrite run_guard; cbv zeta; rewrite C);
    try rewrite Hf; cbn [mgr world trace outcome run];
    rewrite app_nil_r; reflexivity.
Qed.

(** What a public call does on a connected manager: it leaves the manager
    as it is and makes no ping, get_user or add_user. *)
Lemma call_on_session c m w :
  _connected m = true ->
  mgr (run (call c) m w) = m /\
  filter is_session (trace (run (call c) m w)) = [] /\
  exists v, outcome (run (call c) m w) = Returned v.
Proof.
  destruct m as [u i c0]. cbn [_connected]. intros ->.
  destruct c; unfold call.
  - rewrite run_bind, connect_connected by reflexivity. cbn. eauto.
  - rewrite run_bind. unfold store_conversation. cbv zeta.
    rewrite run_guard, connect_connected by reflexivity. cbv zeta.
    cbn [mgr world trace outcome _connected].
    destruct u as [h|]; unfold insert_exchange, LOGGER, perform, await;
      remote_steps; eauto.
  - rewrite run_bind. unfold get_user_profile. cbv zeta.
    rewrite run_guard, connect_connected by reflexivity. cbv zeta.
    cbn [mgr world trace outcome _connected].
    destruct u as [h|]; unfold LOGGER, perform, await;
      remote_steps; eauto.
  - rewrite run_bind. unfold flush_buffer.
    rewrite run_guard, connect_connected by reflexivity. cbv zeta.
    cbn [mgr world trace outcome _connected].
    destruct u as [h|]; unfold flush_user, LOGGER, perform, await;
      remote_steps; eauto.
  - cbn. eauto.
Qed.

(** X7.  When connect returns true, store_conversation, get_user_profile
    and flush_buffer called on the same manager connect first and then do
    their work on the session just made: the call is the same as connect
    followed by the call, the events are those of connect followed by those
    of the call on the connected manager, and the latter hold no ping,
    get_user or add_user. *)
Theorem lazy_connect c m w :
  needs_connection c = true ->
  outcome (run connect m w) = Returned true ->
  run (call c) m w =
    mkFinal
      (outcome (run (call c) (mgr (run connect m w)) (world (run connect m w))))
      (mgr (run connect m w))
      (world (run (call c) (mgr (run connect m w)) (world (run connect m w))))
      (trace (run connect m w) ++
       trace (run (call c) (mgr (run connect m w)) (world (run connect m w))))
  /\
  run (connect ;; call c) m w = run (call c) m w /\
  filter is_session
    (trace (run (call c) (mgr (run connect m w)) (world (run connect m w))))
  = [].
Proof.
  intros Hn Ht.
  destruct (connect_summary m w) as (Ho & _). cbv zeta in Ho.
  assert (C : _connected (mgr (run connect m w)) = true) by congruence.
  destruct (call_on_session c (mgr (run connect m w))
                            (world (run connect m w)) C) as (Hm & Hs & _).
  assert (E : run (call c) m w =
    mkFinal
      (outcome (run (call c) (mgr (run connect m w)) (world (run connect m w))))
      (mgr (run connect m w))
      (world (run (call c) (mgr (run connect m w)) (world (run connect m w))))
      (trace (run connect m w) ++
       trace (run (call c) (mgr (run connect m w))
                  (world (run connect m w))))).
  { clear Hm Hs.
    destruct c; try discriminate; unfold call.
    - rewrite !run_bind. cbv zeta.
      rewrite (connect_connected _ (world (run connect m w)) C).
      rewrite Ht. cbn [mgr world trace outcome run]. reflexivity.
    - rewrite !run_bind. unfold store_conversation. cbv zeta.
      rewrite !run_guard. cbv zeta.
      rewrite (connect_connected _ (world (run connect m w)) C).
      cbn [mgr world trace outcome]. rewrite C.
      set (g := run (insert_exchange _) _ _).
      assert (G : mgr g = mgr (run connect m w)).
      { subst g. destruct (run connect m w) as [o [u i c0] w1 t].
        cbn [mgr world _connected] in *. subst c0.
        destruct u as [h|]; unfold insert_exchange, LOGGER, perform, await;
          remote_steps; reflexivity. }
      destruct (outcome g); cbn [mgr world trace outcome run];
        rewrite ?app_nil_r, ?G; reflexivity.
    - rewrite !run_bind. unfold get_user_profile. cbv zeta.
      rewrite !run_guard. cbv zeta.
      rewrite (connect_connected _ (world (run connect m w)) C).
      cbn [mgr world trace outcome]. rewrite C.
      set (g := run (retry_loop _ _ _ _) _ _).
      assert (G : mgr g = mgr (run connect m w)).
      { subst g. destruct (run connect m w) as [o [u i c0] w1 t].
        cbn [mgr world _connected] in *. subst c0.
        destruct u as [h|]; unfold LOGGER, perform, await;
          remote_steps; reflexivity. }
      destruct (outcome g); cbn [mgr world trace outcome run];
        rewrite ?app_nil_r, ?G; reflexivity.
    - rewrite !run_bind. unfold flush_buffer.
      rewrite !run_guard. cbv zeta.
      rewrite (connect_connected _ (world (run connect m w)) C).
      cbn [mgr world trace outcome]. rewrite C.
      set (g := run flush_user _ _).
      assert (G : mgr g = mgr (run connect m w)).
      { subst g. destruct (run connect m w) as [o [u i c0] w1 t].
        cbn [mgr world _connected] in *. subst c0.
        destruct u as [h|]; unfold flush_user, LOGGER, perform, await;
          remote_steps; reflexivity. }
      destruct (outcome g); cbn [mgr world trace outcome run];
        rewrite ?app_nil_r, ?G; reflexivity. }
  split; [exact E|]. split; [|exact Hs].
  rewrite E. rewrite run_bind. cbv zeta. rewrite Ht.
  rewrite Hm. reflexivity.
Qed.

Lemma untouched_bind {A B : Type} (p : Prog A) (f : A -> Prog B) m :
  untouched p m -> (forall a, untouched (f a) m) -> untouched (bind p f) m.
Proof.
  intros Hp Hf. induction p as [a | e | X op k IH]; cbn [bind untouched].
  - apply Hf.
  - exact I.
  - intros w. specialize (Hp w). cbn [untouched] in Hp.
    destruct (exec_op op m w) as [[[x m1] w1] evs].
    destruct Hp as (H1 & H2 & H3). repeat split; auto.
Qed.

Ltac untouched_tac :=
  repeat (cbn;
          match goal with
          | |- True => exact I
          | |- _ = _ => reflexivity
          | |- _ /\ _ => split
          | |- forall _, _ => intro
          | |- context [user_insert ?u ?b ?w] =>
              destruct (user_insert u b w) as [[?|?] ?]
          | |- context [user_context ?u ?a ?b ?w] =>
              destruct (user_context u a b w) as [[?|?] ?]
          | |- context [user_flush ?u ?w] =>
              destruct (user_flush u w) as [[?|?] ?]
          end).

Lemma untouched_call c m : _connected m = true -> untouched (call c) m.
Proof.
  destruct m as [u i c0]. cbn [_connected]. intros ->.
  destruct c; destruct u as [h|];
    unfold call, store_conversation, get_user_profile, flush_buffer,
      get_user_id, not_connected_and_connect_fails, connect,
      insert_exchange, flush_user, LOGGER, perform, await;
    untouched_tac.
Qed.

Lemma untouched_calls cs m : _connected m = true -> untouched (calls cs) m.
Proof.
  intros Hc. induction cs as [| c cs IH]; [exact I|].
  change (calls (c :: cs)) with (call c ;; calls cs).
  apply untouched_bind; [apply untouched_call, Hc | intros _; exact IH].
Qed.

Lemma untouched_cancelled {A : Type} n (p : Prog A) m w :
  untouched p m ->
  mgr_at (run_cancelled n p m w) = m /\
  filter is_session (trace_at (run_cancelled n p m w)) = [].
Proof.
  revert n w.
  induction p as [a | e | X op k IH]; intros n w Hp;
    [split; reflexivity | split; reflexivity |].
  cbn [run_cancelled]. specialize (Hp w). cbn [untouched] in Hp.
  destruct (exec_op op m w) as [[[x m1] w1] evs].
  destruct Hp as (-> & He & Hk).
  destruct (kind op); [| destruct n as [| n'] |..];
    try (split; [reflexivity | exact He]);
    match goal with
    | |- context [run_cancelled ?i (k x) m w1] =>
        destruct (IH x i w1 Hk) as (H1 & H2); cbn [mgr_at trace_at];
          rewrite filter_app, He, H2; split; [exact H1 | reflexivity]
    end.
Qed.

(** X8.  Once the manager is connected its session is fixed.  Whatever
    public calls follow and whatever the service answers them, the manager
    keeps its handle, its identifier and its flag and no ping, get_user or
    add_user is made again, whether the calls run to their end or the
    caller is cancelled at any of their awaits; a failed insert, context or
    flush does not disconnect the manager.  When nobody cancels it, the
    sequence of calls runs to its end: no exception that derives from
    Exception leaves a call. *)
Theorem session_frozen cs m w :
  _connected m = true ->
  outcome (run (calls cs) m w) = Returned tt /\
  mgr (run (calls cs) m w) = m /\
  filter is_session (trace (run (calls cs) m w)) = [] /\
  forall n,
    mgr_at (run_cancelled n (calls cs) m w) = m /\
    filter is_session (trace_at (run_cancelled n (calls cs) m w)) = [] /\
    (exit (run_cancelled n (calls cs) m w) = CancelledError \/
     exit (run_cancelled n (calls cs) m w) = Normal (Returned tt)).
Proof.
  intros Hc.
  assert (G : outcome (run (calls cs) m w) = Returned tt /\
              mgr (run (calls cs) m w) = m /\
              filter is_session (trace (run (calls cs) m w)) = []).
  { revert w.
    induction cs as [| c cs IH]; intros w.
    - repeat split.
    - change (calls (c :: cs)) with (call c ;; calls cs).
      rewrite run_bind. cbv zeta.
      destruct (call_on_session c m w Hc) as (Hm & Hs & v & Hv).
      rewrite Hv, Hm. cbn [outcome mgr trace].
      destruct (IH (world (run (call c) m w))) as (Ho & Hm' & Hs').
      rewrite filter_app, Hs, Hs'. repeat split; assumption. }
  destruct G as (G1 & G2 & G3).
  repeat (split; [assumption|]).
  intros n.
  destruct (@untouched_cancelled _ n (calls cs) m w (untouched_calls cs m Hc))
    as (U1 & U2).
  split; [exact U1|]. split; [exact U2|].
  destruct (run_cancelled_cases n (calls cs) m w) as [H | H];
    [left; exact H | right].
  rewrite H, G1. reflexivity.
Qed.

(** X9.  flush_buffer on a connected manager that a process can hold makes
    one remote call, flush on the handle the manager holds, and leaves the
    manager as it is.  When flush succeeds it returns true and logs the
    identifier of the user; when flush raises it returns false and logs
    the exception, and flush is not called again. *)
Theorem flush_on_session m w :
  reachable m ->
  _connected m = true ->
  exists h,
    user m = Some h /\
    mgr (run flush_buffer m w) = m /\
    world (run flush_buffer m w) = snd (user_flush h w) /\
    match fst (user_flush h w) with
    | Ok _ =>
        outcome (run flush_buffer m w) = Returned true /\
        trace (run flush_buffer m w) =
          [EvFlush h (Ok tt);
           EvLog (mkLog INFO "Flushed Memobase buffer for user: %s"
                        [arg_of_id (user_id m)])]
    | Err e =>
        outcome (run flush_buffer m w) = Returned false /\
        trace (run flush_buffer m w) =
          [EvFlush h (Err e);
           EvLog (mkLog ERROR "Error flushing Memobase buffer: %s" [AErr e])]
    end.
Proof.
  intros Hr Hc.
  destruct (reachable_connected Hr Hc) as [h Hh].
  exists h. split; [exact Hh|].
  unfold flush_buffer.
  rewrite run_guard, connect_connected by exact Hc. cbv zeta.
  cbn [mgr world trace outcome]. rewrite Hc.
  destruct m as [u i c]. cbn [user] in Hh. subst u.
  unfold flush_user, LOGGER, perform, await. simpl.
  destruct (user_flush h w) as [[[]|e] w1]; simpl; repeat split.
Qed.

(** ** The handle is there whenever it is used *)

Lemma explained_from_any prev tr :
  explained_from None tr -> explained_from prev tr.
Proof.
  destruct tr as [| ev tr]; [trivial|]. cbn [explained_from].
  intros [H1 H2]. split; [|exact H2].
  intros e He. destruct (H1 e He).
Qed.

Lemma explained_from_app prev t1 t2 :
  explained_from prev t1 -> explained_from None t2 ->
  explained_from prev (t1 ++ t2).
Proof.
  revert prev. induction t1 as [| ev t1 IH]; intros prev H1 H2.
  - apply explained_from_any, H2.
  - cbn [app explained_from] in *. destruct H1 as [Ha Hb].
    split; [exact Ha | apply IH; assumption].
Qed.

(** Closes a goal on a trace that has been computed. *)
Ltac explained_tac :=
  cbn [explained_from]; repeat split;
  try (intros ? []; fail);
  try (intros ? [[Hl|Hl] Hin]; try discriminate Hl; cbn in Hin;
       repeat (destruct Hin as [Hin|Hin]; try discriminate);
       try contradiction; try (injection Hin as <-; reflexivity)).

Lemma connect_explained m w : explained_from None (trace (run connect m w)).
Proof.
  destruct m as [u i c]. destruct c.
  - rewrite connect_connected by reflexivity. exact I.
  - unfold_connect. simpl.
    remote_step;
      [ destruct i as [uid|]; simpl; [destruct (truthy (Some uid)); simpl|];
        repeat remote_step; simpl | simpl | simpl ];
      explained_tac.
Qed.

Lemma explained_guard {A : Type} (sentinel : A) (body : Prog A) m w :
  (forall m' w', _connected m' = true -> user m' <> None ->
                 explained_from None (trace (run body m' w'))) ->
  handle_held m ->
  explained_from None
    (trace (run (stop <- not_connected_and_connect_fails ;;
                 if stop then Ret sentinel else body) m w)).
Proof.
  intros Hb Hm. rewrite run_guard. cbv zeta.
  destruct (connect_summary m w) as (_ & _ & _ & Hh & _). cbv zeta in Hh.
  destruct (_connected (mgr (run connect m w))) eqn:C; cbn [trace].
  - apply explained_from_app; [apply connect_explained|].
    apply Hb; [exact C|]. destruct (Hh eq_refl) as [Hu | Hc]; [exact Hu|].
    rewrite (connect_connected m w Hc). cbn [mgr]. apply Hm, Hc.
  - apply connect_explained.
Qed.

Lemma call_explained c m w :
  handle_held m -> explained_from None (trace (run (call c) m w)).
Proof.
  intros Hm.
  assert (T : forall (A : Type) (p : Prog A) (f : A -> Value),
             trace (run (x <- p ;; Ret (f x)) m w) = trace (run p m w)).
  { intros A p f. rewrite run_bind. cbv zeta.
    destruct (outcome (run p m w)); cbn [trace run];
      rewrite ?app_nil_r; reflexivity. }
  destruct c; unfold call; rewrite T.
  - apply connect_explained.
  - unfold store_conversation. cbv zeta. apply explained_guard; [|exact Hm].
    intros [u i c0] w' _ Hu. cbn [user] in Hu.
    destruct u as [h|]; [|congruence].
    unfold insert_exchange, LOGGER, perform, await. remote_steps;
      explained_tac.
  - unfold get_user_profile. cbv zeta. apply explained_guard; [|exact Hm].
    intros [u i c0] w' _ Hu. cbn [user] in Hu.
    destruct u as [h|]; [|congruence].
    unfold LOGGER, perform, await. remote_steps; explained_tac.
  - unfold flush_buffer. apply explained_guard; [|exact Hm].
    intros [u i c0] w' _ Hu. cbn [user] in Hu.
    destruct u as [h|]; [|congruence].
    unfold flush_user, LOGGER, perform, await. remote_steps; explained_tac.
  - exact I.
Qed.

(** X13.  In the events of any sequence of public calls on a new manager,
    every warning or error record that carries an exception comes right
    after the remote call that raised this exception.  The manager logs no
    exception of its own making: insert, context and flush are never
    called on a handle that is None. *)
Theorem handle_present_when_used uid cs w :
  explained_from None (trace (run (calls cs) (init uid) w)).
Proof.
  assert (G : forall m w', handle_held m ->
                           explained_from None (trace (run (calls cs) m w'))).
  { induction cs as [| c cs IH]; intros m w' Hm; [exact I|].
    change (calls (c :: cs)) with (call c ;; calls cs).
    rewrite run_bind. cbv zeta.
    pose proof (call_explained c w' Hm) as Hc.
    destruct (outcome (run (call c) m w')); cbn [trace]; [|exact Hc].
    apply explained_from_app; [exact Hc|].
    apply IH. apply (call_monotone c m w'), Hm. }
  apply G. intros H. discriminate H.
Qed.

End Sequential.

(** * Several callers *)

Section Concurrent.

Context {RC : RemoteClient}.

(** ** Lists of tasks *)

Lemma replace_length {T : Type} i (x : T) l :
  length (replace i x l) = length l.
Proof.
  revert i. induction l as [| y l IH]; intros [| i]; simpl; auto.
Qed.

Lemma nth_error_replace_eq {T : Type} i (x y : T) l :
  nth_error l i = Some y -> nth_error (replace i x l) i = Some x.
Proof.
  revert i. induction l as [| z l IH]; intros [| i]; simpl; try discriminate.
  - reflexivity.
  - apply IH.
Qed.

Lemma nth_error_replace_neq {T : Type} i j (x : T) l :
  j <> i -> nth_error (replace i x l) j = nth_error l j.
Proof.
  revert i j. induction l as [| z l IH]; intros [| i] [| j] H; simpl; auto.
  - contradiction.
Qed.

Lemma replace_same {T : Type} i (x : T) l :
  nth_error l i = Some x -> replace i x l = l.
Proof.
  revert i. induction l as [| z l IH]; intros [| i]; simpl; try discriminate.
  - intros [= ->]. reflexivity.
  - intros H. rewrite IH by exact H. reflexivity.
Qed.

Lemma pending_le {A : Type} (l : list (Prog A)) : pending l <= length l.
Proof. apply filter_length_le. Qed.

Lemma pending_replace {A : Type} i (p p' : Prog A) l :
  nth_error l i = Some p ->
  pending (replace i p' l) + (if finished p then 0 else 1) =
  pending l + (if finished p' then 0 else 1).
Proof.
  unfold pending.
  revert i. induction l as [| z l IH]; intros [| i]; simpl; try discriminate.
  - intros [= ->]. destruct (finished p), (finished p'); simpl; lia.
  - intros H. specialize (IH i H). destruct (finished z); simpl; lia.
Qed.

Lemma pending_pos {A : Type} i (p : Prog A) l :
  nth_error l i = Some p -> finished p = false -> 0 < pending l.
Proof.
  unfold pending.
  revert i. induction l as [| z l IH]; intros [| i]; simpl; try discriminate.
  - intros [= ->] ->. simpl. lia.
  - intros H Hf. specialize (IH i H Hf). destruct (finished z); simpl; lia.
Qed.

Lemma pending_repeat {A : Type} (p : Prog A) n :
  finished p = false -> pending (repeat p n) = n.
Proof.
  intros H. unfold pending.
  induction n as [| n IH]; simpl; [reflexivity|].
  rewrite H. simpl. rewrite IH. reflexivity.
Qed.

Lemma pending_all_finished {A : Type} (l : list (Prog A)) :
  forallb finished l = true -> pending l = 0.
Proof.
  unfold pending. induction l as [| p l IH]; simpl; [reflexivity|].
  intros H. apply andb_prop in H as [H1 H2]. rewrite H1. simpl. auto.
Qed.

Lemma finished_release_after {A : Type} (q : Prog A) :
  finished (release_after q) = false.
Proof. destruct q; reflexivity. Qed.


(** ** One turn of a task *)

Lemma exec_await_mgr {X : Type} (op : Op X) m w :
  kind op = KAwait -> snd (fst (fst (exec_op op m w))) = m.
Proof.
  destruct op; simpl; try discriminate; intros _;
    try reflexivity;
    match goal with |- context [let (_, _) := ?c in _] => destruct c end;
    reflexivity.
Qed.

(** A turn of the lock holder: either it is suspended on an awaited call,
    still holding the lock, with the flag off, and what is left of its
    block finishes the block as a caller running alone would; or it has
    finished the block, released the lock and ended. *)
Lemma advance_locked {A : Type} (q : Prog A) m w :
  quiet q m ->
  let s := advance (release_after q) m w true in
  let f := run q m w in
  (lock_after s = true /\
   _connected (mgr_after s) = false /\
   exists q',
     rest s = release_after q' /\
     quiet q' (mgr_after s) /\
     let f' := run q' (mgr_after s) (world_after s) in
     outcome f = outcome f' /\ mgr f = mgr f' /\ world f = world f' /\
     trace f = shown s ++ trace f') \/
  (lock_after s = false /\
   rest s = as_prog (outcome f) /\
   mgr_after s = mgr f /\ world_after s = world f /\ shown s = trace f).
Proof.
  revert m w.
  induction q as [a | e | X op k IH]; intros m w Hq; cbv zeta.
  - right. repeat split.
  - right. repeat split.
  - cbn [release_after advance run]. cbn [quiet] in Hq.
    pose proof (exec_await_mgr op m w) as Hm.
    pose proof (Hq) as Hq'.
    destruct (kind op) eqn:K; try contradiction.
    + specialize (Hq w).
      destruct (exec_op op m w) as [[[x m1] w1] evs] eqn:E.
      specialize (IH x m1 w1 Hq). cbv zeta in IH.
      destruct IH as [(Hl & Hc & q' & Hr & Hq2 & Ho & Hg & Hw & Ht) |
                      (Hl & Hr & Hg & Hw & Ht)].
      * left. cbn [lock_after mgr_after rest world_after shown
                   outcome mgr world trace].
        split; [exact Hl|]. split; [exact Hc|].
        exists q'. split; [exact Hr|]. split; [exact Hq2|].
        repeat split; try assumption.
        rewrite Ht, app_assoc. reflexivity.
      * right. cbn [lock_after mgr_after rest world_after shown
                    outcome mgr world trace].
        repeat split; try assumption. rewrite Ht. reflexivity.
    + destruct Hq as [Hc Hk].
      destruct (exec_op op m w) as [[[x m1] w1] evs] eqn:E.
      cbn [fst snd] in Hm. specialize (Hm eq_refl). subst m1.
      left. cbn [lock_after mgr_after rest world_after shown
                 outcome mgr world trace].
      split; [reflexivity|]. split; [exact Hc|].
      exists (k x). repeat split. apply Hk.
Qed.


(** ** connect under the scheduler *)

Lemma quiet_connect_locked m : quiet connect_locked m.
Proof.
  destruct m as [u i c]. unfold_connect. cbn. intros _.
  destruct c; [exact I|]. cbn. split; [reflexivity|].
  intros [[|]|e]; cbn; auto.
  intros _. destruct i as [uid|]; [destruct (truthy (Some uid))|]; cbn;
    repeat match goal with
           | |- True => exact I
           | |- _ = _ => reflexivity
           | |- _ /\ _ => split
           | |- forall x : Result _, _ => intros [?|?]; cbn
           | |- forall _, _ => intro; cbn
           end.
Qed.

Lemma advance_waiting {A : Type} (q : Prog A) m w lk :
  advance (async_with_lock q) m w lk =
  if lk then mkSlice (async_with_lock q) m w true []
  else advance (release_after q) m w true.
Proof. destruct lk; reflexivity. Qed.

Lemma advance_connect m w lk :
  advance connect m w lk =
  if _connected m then mkSlice (Ret true) m w lk []
  else advance (async_with_lock connect_locked) m w lk.
Proof.
  unfold connect. generalize (async_with_lock connect_locked). intros q.
  cbn. destruct (_connected m); cbn; [reflexivity|].
  destruct (advance q m w lk); reflexivity.
Qed.

Lemma serial_S n s : serial (S n) s = after connect (serial n s).
Proof. reflexivity. Qed.

Lemma after_connect_locked s : after connect_locked s = after connect s.
Proof.
  destruct s as [[m w] h]. unfold after. rewrite run_connect_locked.
  reflexivity.
Qed.

Lemma result_connect_locked s : result connect_locked s = result connect s.
Proof.
  destruct s as [[m w] h]. unfold result. rewrite run_connect_locked.
  reflexivity.
Qed.

Lemma idle_mono s0 d d' t : d <= d' -> idle s0 d t -> idle s0 d' t.
Proof.
  intros H [Hi | [Hi | (k & Hk & Hi)]]; [left | right; left | right; right];
    auto.
  exists k. split; [lia | exact Hi].
Qed.



Lemma finished_as_prog {A : Type} (o : Outcome A) : finished (as_prog o) = true.
Proof. destruct o; reflexivity. Qed.

Lemma advance_finished {A : Type} (t : Prog A) m w lk :
  finished t = true -> advance t m w lk = mkSlice t m w lk [].
Proof. destruct t; simpl; intros H; [reflexivity | reflexivity | discriminate]. Qed.

Lemma advance_connect_free m w :
  advance connect m w false = advance (release_after connect_locked) m w true.
Proof.
  rewrite advance_connect, advance_waiting.
  destruct (_connected m) eqn:E; [|reflexivity].
  unfold connect_locked. cbn. rewrite E. reflexivity.
Qed.

(** ** The pool follows the serial run *)

(** A turn of the task that is inside its block, or enters it. *)
Lemma pool_inv_turn s0 n m w h ts i t q :
  length ts = n ->
  nth_error ts i = Some t ->
  finished t = false ->
  quiet q m ->
  after q (m, w, h) = serial (S (n - pending ts)) s0 ->
  result q (m, w, h) = result connect (serial (n - pending ts) s0) ->
  (forall j t', j <> i -> nth_error ts j = Some t' ->
                idle s0 (n - pending ts) t') ->
  let s := advance (release_after q) m w true in
  pool_inv s0 n
    (mkPool (mgr_after s) (world_after s) (h ++ shown s) (lock_after s)
            (replace i (rest s) ts)).
Proof.
  intros Hlen Hi Hf Hq Ha Hr Hidle. cbv zeta.
  pose proof (pending_le ts) as Hle.
  pose proof (pending_replace i (rest (advance (release_after q) m w true))
                              ts Hi) as Hp.
  rewrite Hf in Hp.
  destruct (advance_locked q m w Hq)
    as [(Hl & Hc & q' & Hrest & Hq' & Ho & Hg & Hw & Ht) |
        (Hl & Hrest & Hg & Hw & Ht)];
    cbv zeta in *; unfold pool_inv, cur;
    cbn [tasks locked shared service history];
    rewrite replace_length; (split; [exact Hlen|]); rewrite Hl.
  - rewrite Hrest in Hp |- *. rewrite finished_release_after in Hp.
    assert (Ep : pending (replace i (release_after q') ts) = pending ts) by lia.
    rewrite Ep. split; [exact Hc|].
    exists i, q'. split; [eapply nth_error_replace_eq; eassumption|].
    split; [exact Hq'|].
    unfold after, result in *. rewrite <- Ha, <- Hr.
    rewrite <- Ho, <- Hg, <- Hw, Ht, app_assoc. repeat split.
    intros j t' Hj Hn. rewrite nth_error_replace_neq in Hn by exact Hj.
    eapply Hidle; eassumption.
  - rewrite Hrest in Hp |- *. rewrite finished_as_prog in Hp.
    assert (Ep : n - pending (replace i (as_prog (outcome (run q m w))) ts)
                 = S (n - pending ts)) by lia.
    rewrite Ep. split.
    + unfold after in Ha. rewrite <- Ha, Hg, Hw, Ht. reflexivity.
    + intros j t' Hn. destruct (Nat.eq_dec j i) as [-> | Hj].
      * rewrite (nth_error_replace_eq _ _ _ Hi) in Hn. injection Hn as <-.
        right; right. exists (n - pending ts). split; [lia|].
        unfold result in Hr. rewrite Hr. reflexivity.
      * rewrite nth_error_replace_neq in Hn by exact Hj.
        eapply idle_mono; [|eapply Hidle; eassumption]. lia.
Qed.

(** A turn that changes nothing. *)
Lemma pool_step_stutter {A : Type} (P : Pool A) i t :
  nth_error (tasks P) i = Some t ->
  advance t (shared P) (service P) (locked P) =
    mkSlice t (shared P) (service P) (locked P) [] ->
  pool_step P i = P.
Proof.
  intros Hi Ha. unfold pool_step. rewrite Hi. cbv zeta. rewrite Ha.
  cbn [mgr_after world_after shown lock_after rest].
  rewrite app_nil_r, (replace_same _ _ Hi). destruct P; reflexivity.
Qed.

Lemma pool_inv_step s0 n P i :
  pool_inv s0 n P -> pool_inv s0 n (pool_step P i).
Proof.
  intros Hinv.
  destruct (nth_error (tasks P) i) as [t|] eqn:Hi;
    [|unfold pool_step; rewrite Hi; exact Hinv].
  destruct (finished t) eqn:Hf.
  { rewrite (pool_step_stutter P i Hi); [exact Hinv|].
    apply advance_finished, Hf. }
  destruct P as [m w h lk ts]. cbn [tasks] in Hi.
  unfold pool_step. cbn [tasks shared service locked history]. rewrite Hi.
  cbv zeta.
  destruct Hinv as (Hlen & Hinv). unfold cur in Hinv.
  cbn [tasks locked shared service history] in Hlen, Hinv. cbv zeta in Hinv.
  destruct lk.
  - destruct Hinv as (Hc & i0 & q & Hq0 & Hq & Ha & Hr & Hidle).
    destruct (Nat.eq_dec i i0) as [-> | Hne].
    + rewrite Hq0 in Hi. injection Hi as <-.
      eapply pool_inv_turn; eassumption.
    + assert (W : advance t m w true =
                  mkSlice (async_with_lock connect_locked) m w true []).
      { destruct (Hidle i t Hne Hi) as [-> | [-> | (k & _ & ->)]].
        - rewrite advance_connect, Hc. reflexivity.
        - reflexivity.
        - rewrite finished_as_prog in Hf. discriminate. }
      rewrite W. cbn [mgr_after world_after shown lock_after rest].
      rewrite app_nil_r.
      pose proof (pending_replace i (async_with_lock connect_locked) ts Hi)
        as Hp.
      rewrite Hf in Hp. cbn [finished async_with_lock] in Hp.
      assert (Ep : pending (replace i (async_with_lock connect_locked) ts)
                   = pending ts) by lia.
      unfold pool_inv. unfold cur; cbn [tasks locked shared service history].
      rewrite replace_length, Ep. split; [exact Hlen|]. split; [exact Hc|].
      exists i0, q. rewrite nth_error_replace_neq by auto.
      repeat split; try assumption.
      intros j t' Hj Hn. destruct (Nat.eq_dec j i) as [-> | Hji].
      * rewrite (nth_error_replace_eq _ _ _ Hi) in Hn. injection Hn as <-.
        right; left. reflexivity.
      * rewrite nth_error_replace_neq in Hn by exact Hji.
        eapply Hidle; eassumption.
  - destruct Hinv as (Hcur & Hidle).
    assert (W : advance t m w false =
                advance (release_after connect_locked) m w true).
    { destruct (Hidle i t Hi) as [-> | [-> | (k & _ & ->)]].
      - apply advance_connect_free.
      - reflexivity.
      - rewrite finished_as_prog in Hf. discriminate. }
    rewrite W.
    eapply pool_inv_turn;
      [exact Hlen | exact Hi | exact Hf | apply quiet_connect_locked | | |].
    + rewrite after_connect_locked, Hcur. reflexivity.
    + rewrite result_connect_locked, Hcur. reflexivity.
    + intros j t' _ Hn. eapply Hidle; eassumption.
Qed.

Lemma pool_inv_run s0 n sched P :
  pool_inv s0 n P -> pool_inv s0 n (run_pool sched P).
Proof.
  revert P. unfold run_pool.
  induction sched as [| i sched IH]; intros P H; simpl; [exact H|].
  apply IH, pool_inv_step, H.
Qed.

Lemma pool_inv_spawn n m w :
  pool_inv (m, w, []) n (spawn n connect m w).
Proof.
  unfold pool_inv, spawn. unfold cur; cbn [tasks locked shared service history].
  rewrite repeat_length, pending_repeat by reflexivity.
  split; [reflexivity|]. rewrite Nat.sub_diag. split; [reflexivity|].
  intros j t Hn. left. apply nth_error_In, repeat_spec in Hn. exact Hn.
Qed.


(** ** The serial run *)

Lemma count_app f t1 t2 : count f (t1 ++ t2) = count f t1 + count f t2.
Proof. unfold count. rewrite filter_app, length_app. reflexivity. Qed.

Lemma serial_times n m w h :
  serial n (m, w, h) =
  (mgr (run (times n connect) m w), world (run (times n connect) m w),
   h ++ trace (run (times n connect) m w)).
Proof.
  revert m w h. induction n as [| n IH]; intros m w h.
  - simpl. rewrite app_nil_r. reflexivity.
  - unfold serial. rewrite Nat.iter_succ_r.
    change (Nat.iter n (after connect) (after connect (m, w, h)))
      with (serial n (after connect (m, w, h))).
    unfold after. cbv zeta. rewrite IH.
    cbn [times]. rewrite run_bind. cbv zeta.
    destruct (connect_summary m w) as (Ho & _). cbv zeta in Ho.
    rewrite Ho. cbn [mgr world trace].
    rewrite app_assoc. reflexivity.
Qed.

(** connect pings exactly once on an unconnected manager. *)
Lemma connect_pings_once m w :
  _connected m = false -> count is_ping (trace (run connect m w)) = 1.
Proof.
  destruct m as [u i c]. cbn [_connected]. intros ->.
  unfold_connect. simpl.
  remote_step; try reflexivity.
  destruct i as [uid|]; simpl; [destruct (truthy (Some uid)); simpl|];
    repeat remote_step; reflexivity.
Qed.

Lemma connect_ping_fails m w :
  _connected m = false ->
  fst (client_ping w) <> Ok true ->
  outcome (run connect m w) = Returned false /\ mgr (run connect m w) = m.
Proof.
  destruct m as [u i c]. cbn [_connected]. intros ->.
  unfold_connect. simpl.
  destruct (client_ping w) as [[[|]|e] w1]; simpl; intros H;
    [congruence | split; reflexivity | split; reflexivity].
Qed.

(** After a first call that succeeds, further calls change nothing. *)
Lemma serial_success m w k :
  outcome (run connect m w) = Returned true ->
  result connect (serial k (m, w, [])) = Returned true /\
  serial (S k) (m, w, []) = after connect (m, w, []).
Proof.
  intros H. induction k as [| k [IHr IHs]].
  - split; [exact H | reflexivity].
  - rewrite (serial_S (S k)), IHs. unfold after, result.
    destruct (connect_summary m w) as (Ho & _). cbv zeta in Ho.
    assert (C : _connected (mgr (run connect m w)) = true) by congruence.
    rewrite (connect_connected _ _ C). cbn [outcome mgr world trace].
    rewrite app_nil_r. split; reflexivity.
Qed.

(** While the ping fails, every call pings again and fails. *)
Lemma serial_ping_fails m w k :
  _connected m = false ->
  (forall v, fst (client_ping v) <> Ok true) ->
  result connect (serial k (m, w, [])) = Returned false /\
  fst (fst (serial k (m, w, []))) = m /\
  count is_ping (snd (serial k (m, w, []))) = k.
Proof.
  intros Hc Hp. induction k as [| k (IHr & IHm & IHc)].
  - cbn [serial Nat.iter result fst snd].
    split; [apply (connect_ping_fails m w Hc (Hp w)) | split; reflexivity].
  - rewrite serial_S.
    destruct (serial k (m, w, [])) as [[mk wk] hk].
    cbn [fst snd] in IHm, IHc. subst mk.
    unfold after, result. cbn [fst snd].
    destruct (connect_ping_fails m wk Hc (Hp wk)) as (Ho & Hm).
    rewrite Hm, count_app, IHc, (connect_pings_once m wk Hc).
    split; [apply (connect_ping_fails m _ Hc (Hp _))|].
    split; [reflexivity | lia].
Qed.

(** When every task has ended, the pool is at the end of the serial run
    and every task has the result of one of its calls. *)
Lemma pool_inv_final s0 n P :
  pool_inv s0 n P ->
  all_finished P = true ->
  cur P = serial n s0 /\
  Forall (fun t => exists k, k < n /\ t = as_prog (result connect (serial k s0)))
         (tasks P).
Proof.
  intros (Hlen & Hinv) Hall. unfold all_finished in Hall.
  cbv zeta in Hinv. rewrite (pending_all_finished _ Hall), Nat.sub_0_r in Hinv.
  rewrite forallb_forall in Hall.
  destruct (locked P).
  - destruct Hinv as (_ & i & q & Hq & _).
    apply nth_error_In, Hall in Hq. rewrite finished_release_after in Hq.
    discriminate.
  - destruct Hinv as (Hcur & Hidle). split; [exact Hcur|].
    apply Forall_forall. intros t Ht.
    pose proof (Hall t Ht) as Hf.
    apply In_nth_error in Ht as (j & Hj).
    destruct (Hidle j t Hj) as [-> | [-> | Hk]];
      [discriminate | discriminate | exact Hk].
Qed.


(** [n] callers of connect on one unconnected manager, run to the end
    under any schedule, leave the manager, the service and the events of
    [n] calls of connect made one after the other: the lock makes the
    connect sequences follow one another. *)
Lemma connect_callers_serialised n sched m w :
  _connected m = false ->
  all_finished (run_pool sched (spawn n connect m w)) = true ->
  shared (run_pool sched (spawn n connect m w)) =
    mgr (run (times n connect) m w) /\
  service (run_pool sched (spawn n connect m w)) =
    world (run (times n connect) m w) /\
  history (run_pool sched (spawn n connect m w)) =
    trace (run (times n connect) m w) /\
  (outcome (run connect m w) = Returned true ->
   0 < n ->
   history (run_pool sched (spawn n connect m w)) = trace (run connect m w) /\
   count is_ping (history (run_pool sched (spawn n connect m w))) = 1 /\
   Forall (fun t => t = Ret true) (tasks (run_pool sched (spawn n connect m w))))
  /\
  ((forall v, fst (client_ping v) <> Ok true) ->
   count is_ping (history (run_pool sched (spawn n connect m w))) = n /\
   Forall (fun t => t = Ret false)
          (tasks (run_pool sched (spawn n connect m w)))).
Proof.
  intros Hc Hall.
  destruct (pool_inv_final (pool_inv_run sched (pool_inv_spawn n m w)) Hall)
    as (Hcur & Hres).
  set (P := run_pool sched (spawn n connect m w)) in *.
  unfold cur in Hcur.
  assert (Hhist : history P = snd (serial n (m, w, []))) by (rewrite <- Hcur; reflexivity).
  rewrite serial_times in Hcur. injection Hcur as H1 H2 H3.
  cbn [app] in H3.
  split; [exact H1|]. split; [exact H2|]. split; [exact H3|]. split.
  - intros Hs Hn.
    assert (E : history P = trace (run connect m w)).
    { rewrite Hhist. destruct n as [| k]; [lia|].
      destruct (serial_success m w k Hs) as (_ & ->). reflexivity. }
    split; [exact E|]. split; [rewrite E; apply connect_pings_once, Hc|].
    eapply Forall_impl; [|exact Hres].
    intros t (k & _ & ->).
    destruct (serial_success m w k Hs) as (-> & _). reflexivity.
  - intros Hp. split.
    + rewrite Hhist. apply (serial_ping_fails m w n Hc Hp).
    + eapply Forall_impl; [|exact Hres].
      intros t (k & _ & ->).
      destruct (serial_ping_fails m w k Hc Hp) as (-> & _). reflexivity.
Qed.

(** ** Public calls under the scheduler *)

Lemma commutes_frame_of c : needs_connection c = true -> commutes (frame_of c).
Proof. destruct c; intros H X op k; try reflexivity. discriminate. Qed.

Lemma harmless_bind {A B : Type} (p : Prog A) (f : A -> Prog B) :
  harmless p -> (forall a, harmless (f a)) -> harmless (bind p f).
Proof.
  intros Hp Hf. induction p as [a | e | X op k IH]; cbn.
  - apply Hf.
  - exact I.
  - destruct Hp as [Ho Hk]. split; [exact Ho|]. intros x. apply IH, Hk.
Qed.

Ltac harmless_tac :=
  repeat match goal with
         | |- True => exact I
         | |- _ = _ => reflexivity
         | |- _ /\ _ => split
         | |- forall x : Result _, _ => intros [?|?]; cbn
         | |- forall x : MemobaseManager, _ => intros [[?|] ? ?]; cbn
         | |- forall _, _ => intro; cbn
         end.

(** The code after a connect that returned true leaves session and
    manager alone; after one that returned false the call ends with its
    sentinel. *)
Lemma frame_of_result c :
  needs_connection c = true ->
  frame_of c (Ret false) = Ret (sentinel c) /\ harmless (frame_of c (Ret true)).
Proof.
  destruct c; intros H; try discriminate; (split; [reflexivity|]);
    unfold frame_of, insert_exchange, flush_user, LOGGER, perform, await;
    cbn; harmless_tac.
Qed.

Lemma prefix_slice_nil {A : Type} (s : Slice A) : prefix_slice [] s = s.
Proof. destruct s; reflexivity. Qed.

(** A turn of the lock holder inside a public call: as [advance_locked],
    and when the block is finished the turn goes on with the code of the
    call that follows connect. *)
Lemma advance_locked_frame {A B : Type} (F : Prog A -> Prog B) (q : Prog A)
  m w :
  commutes F ->
  quiet q m ->
  let s := advance (F (release_after q)) m w true in
  let f := run q m w in
  (lock_after s = true /\
   _connected (mgr_after s) = false /\
   exists q',
     rest s = F (release_after q') /\
     quiet q' (mgr_after s) /\
     let f' := run q' (mgr_after s) (world_after s) in
     outcome f = outcome f' /\ mgr f = mgr f' /\ world f = world f' /\
     trace f = shown s ++ trace f') \/
  s = prefix_slice (trace f)
        (advance (F (as_prog (outcome f))) (mgr f) (world f) false).
Proof.
  intros HF. revert m w.
  induction q as [a | e | X op k IH]; intros m w Hq; cbv zeta.
  - right. cbn [release_after]. rewrite HF. cbn.
    rewrite prefix_slice_nil. reflexivity.
  - right. cbn [release_after]. rewrite HF. cbn.
    rewrite prefix_slice_nil. reflexivity.
  - cbn [release_after]. rewrite !HF. cbn [advance run]. cbn [quiet] in Hq.
    pose proof (exec_await_mgr op m w) as Hm.
    destruct (kind op) eqn:K; try contradiction.
    + specialize (Hq w).
      destruct (exec_op op m w) as [[[x m1] w1] evs] eqn:E.
      specialize (IH x m1 w1 Hq). cbv zeta in IH.
      destruct IH as [(Hl & Hc & q' & Hr & Hq2 & Ho & Hg & Hw & Ht) | Hr].
      * left. cbn [lock_after mgr_after rest world_after shown
                   outcome mgr world trace].
        split; [exact Hl|]. split; [exact Hc|].
        exists q'. split; [exact Hr|]. split; [exact Hq2|].
        repeat split; try assumption.
        rewrite Ht, app_assoc. reflexivity.
      * right. rewrite Hr. unfold prefix_slice.
        cbn [lock_after mgr_after rest world_after shown
             outcome mgr world trace].
        rewrite app_assoc. reflexivity.
    + destruct Hq as [Hc Hk].
      destruct (exec_op op m w) as [[[x m1] w1] evs] eqn:E.
      cbn [fst snd] in Hm. specialize (Hm eq_refl). subst m1.
      left. cbn [lock_after mgr_after rest world_after shown
                 outcome mgr world trace].
      split; [reflexivity|]. split; [exact Hc|].
      exists (k x). repeat split. apply Hk.
Qed.

Lemma advance_frame_waiting {A B : Type} (F : Prog A -> Prog B) (q : Prog A)
  m w lk :
  commutes F ->
  advance (F (async_with_lock q)) m w lk =
  if lk then mkSlice (F (async_with_lock q)) m w true []
  else advance (F (release_after q)) m w true.
Proof.
  intros HF. unfold async_with_lock. rewrite HF.
  destruct lk; reflexivity.
Qed.

(** A call that needs a connection starts with the flag: when it is on the
    call goes on as after a connect that returned true, when it is off the
    call asks for the lock. *)
Lemma advance_call c m w lk :
  needs_connection c = true ->
  advance (call c) m w lk =
  if _connected m then advance (frame_of c (Ret true)) m w lk
  else advance (frame_of c (async_with_lock connect_locked)) m w lk.
Proof.
  assert (G : forall A (sentinel : A) (body : Prog A) (R : A -> Prog Value),
    advance (r <- (stop <- not_connected_and_connect_fails ;;
                   if stop then Ret sentinel else body) ;; R r) m w lk =
    if _connected m then
      advance (r <- (stop <- (c <- Ret true ;; Ret (negb c)) ;;
                     if stop then Ret sentinel else body) ;; R r) m w lk
    else
      advance (r <- (stop <- (c <- async_with_lock connect_locked ;;
                              Ret (negb c)) ;;
                     if stop then Ret sentinel else body) ;; R r) m w lk).
  { intros A sentinel body R.
    unfold not_connected_and_connect_fails, connect.
    generalize (async_with_lock connect_locked). intros q. cbn.
    destruct (_connected m) eqn:E; cbn; rewrite ?E; cbn;
      apply prefix_slice_nil. }
  destruct c; intros H; try discriminate; unfold call, frame_of.
  - unfold connect. generalize (async_with_lock connect_locked). intros q.
    cbn. destruct (_connected m) eqn:E; cbn; rewrite ?E; cbn;
      [reflexivity|].
    apply prefix_slice_nil.
  - apply G.
  - apply G.
  - apply G.
Qed.

Lemma body_op_exec {X : Type} (op : Op X) m w :
  body_op op = true ->
  snd (fst (fst (exec_op op m w))) = m /\
  filter is_session (snd (exec_op op m w)) = [] /\
  (kind op = KLocal \/ kind op = KAwait).
Proof.
  destruct op; cbn; try discriminate; intros _;
    try (repeat split; auto; fail);
    match goal with |- context [let (_, _) := ?c in _] => destruct c end;
    cbn; repeat split; auto.
Qed.

(** A turn of code that leaves session and manager alone. *)
Lemma harmless_advance {A : Type} (p : Prog A) m w lk :
  harmless p ->
  let s := advance p m w lk in
  mgr_after s = m /\ lock_after s = lk /\ harmless (rest s) /\
  filter is_session (shown s) = [].
Proof.
  revert m w. induction p as [a | e | X op k IH]; intros m w Hp; cbv zeta.
  - repeat split.
  - repeat split.
  - destruct Hp as [Ho Hk]. cbn [advance].
    destruct (body_op_exec op m w Ho) as (Hm & Hs & Hkind).
    destruct (exec_op op m w) as [[[x m1] w1] evs].
    cbn [fst snd] in Hm, Hs. subst m1.
    destruct Hkind as [-> | ->].
    + destruct (IH x m w1 (Hk x)) as (H1 & H2 & H3 & H4).
      cbn [mgr_after lock_after rest shown].
      rewrite filter_app, Hs, H4. repeat split; assumption.
    + cbn [mgr_after lock_after rest shown]. repeat split; auto.
Qed.

Lemma finished_commutes {A B : Type} (F : Prog A -> Prog B) (X : Prog A) :
  commutes F -> finished X = false -> finished (F X) = false.
Proof.
  intros HF H. destruct X; try discriminate. rewrite HF. reflexivity.
Qed.

Lemma finished_call c : finished (call c) = false.
Proof. destruct c; reflexivity. Qed.

Lemma advance_frame_connected {B : Type} (F : Prog bool -> Prog B) m w :
  commutes F ->
  _connected m = true ->
  advance (F (release_after connect_locked)) m w true =
  advance (F (Ret true)) m w false.
Proof.
  intros HF E. unfold connect_locked, perform. cbn [bind release_after].
  rewrite HF. cbn [advance exec_op kind]. rewrite E.
  cbn [bind release_after]. rewrite HF. cbn [advance exec_op kind].
  cbn [app]. apply prefix_slice_nil.
Qed.

(** Each call of the serial run returns the flag it leaves. *)
Lemma serial_result_flag d s0 :
  result connect (serial d s0) =
  Returned (_connected (fst (fst (serial (S d) s0)))).
Proof.
  rewrite serial_S. destruct (serial d s0) as [[m w] h].
  unfold result, after. cbn [fst].
  apply (connect_summary m w).
Qed.

Lemma needs_connection_nth cs i c :
  forallb needs_connection cs = true ->
  nth_error cs i = Some c -> needs_connection c = true.
Proof.
  intros H Hi. rewrite forallb_forall in H.
  apply H. eapply nth_error_In, Hi.
Qed.

(** ** The pool of public calls *)

(** A turn of the call that is inside the connect block, or enters it,
    while the flag is off. *)
Lemma calls_inv_turn s0 cs m w h ts i t c q :
  forallb needs_connection cs = true ->
  length ts = length cs ->
  nth_error ts i = Some t ->
  nth_error cs i = Some c ->
  finished t = false ->
  (forall k, k < length cs - pending ts ->
             result connect (serial k s0) = Returned false) ->
  quiet q m ->
  after q (m, w, h) = serial (S (length cs - pending ts)) s0 ->
  result q (m, w, h) = result connect (serial (length cs - pending ts) s0) ->
  (forall j t' c', j <> i ->
     nth_error ts j = Some t' -> nth_error cs j = Some c' ->
     outside c' t' \/ t' = Ret (sentinel c')) ->
  let s := advance (frame_of c (release_after q)) m w true in
  calls_inv s0 cs
    (mkPool (mgr_after s) (world_after s) (h ++ shown s) (lock_after s)
            (replace i (rest s) ts)).
Proof.
  intros Hneed Hlen Hi Hc Hf Hfail Hq Ha Hr Hidle. cbv zeta.
  pose proof (needs_connection_nth cs i Hneed Hc) as Hn.
  pose proof (commutes_frame_of c Hn) as HF.
  pose proof (pending_le ts) as Hle.
  pose proof (pending_replace i
                (rest (advance (frame_of c (release_after q)) m w true))
                ts Hi) as Hp.
  rewrite Hf in Hp.
  set (d := length cs - pending ts) in *.
  destruct (@advance_locked_frame _ _ (frame_of c) q m w HF Hq)
    as [(Hl & Hfl & q' & Hrest & Hq' & Ho & Hg & Hw & Ht) | Hs];
    cbv zeta in *.
  - (* suspended inside the block *)
    unfold calls_inv, cur. cbn [tasks locked shared service history].
    rewrite replace_length. split; [exact Hlen|]. left.
    rewrite Hrest in Hp |- *.
    rewrite (@finished_commutes _ _ (frame_of c) (release_after q') HF
               (finished_release_after q')) in Hp.
    assert (Ep : pending (replace i (frame_of c (release_after q')) ts)
                 = pending ts) by lia.
    rewrite Ep, Hl. fold d.
    split; [exact Hfl|]. split; [exact Hfail|].
    exists i, c, q'. split; [exact Hc|].
    split; [eapply nth_error_replace_eq; eassumption|].
    split; [exact Hq'|].
    unfold after, result in *. rewrite <- Ha, <- Hr.
    rewrite <- Ho, <- Hg, <- Hw, Ht, app_assoc. repeat split.
    intros j t' c' Hj Hn' Hc'. rewrite nth_error_replace_neq in Hn' by exact Hj.
    eapply Hidle; eassumption.
  - (* the block is finished: the result is the flag *)
    pose proof (serial_result_flag d s0) as Hflag.
    rewrite <- Ha, <- Hr in Hflag. unfold after, result in Hflag.
    cbn [fst] in Hflag.
    destruct (frame_of_result c Hn) as (Hfalse & Htrue).
    rewrite Hs in Hp |- *. unfold prefix_slice in Hp |- *.
    cbn [rest mgr_after world_after lock_after shown] in Hp |- *.
    rewrite Hflag in Hp |- *. cbn [as_prog] in Hp |- *.
    destruct (_connected (mgr (run q m w))) eqn:Eflag.
    + (* connected: the call goes on outside the lock *)
      destruct (@harmless_advance _ (frame_of c (Ret true)) (mgr (run q m w))
                  (world (run q m w)) false Htrue) as (H1 & H2 & H3 & H4).
      cbv zeta in H1, H2, H3, H4.
      unfold calls_inv, cur. cbn [tasks locked shared service history].
      rewrite replace_length. split; [exact Hlen|]. right.
      rewrite H1, H2. split; [exact Eflag|]. split; [reflexivity|].
      exists d.
      split; [pose proof (pending_pos i ts Hi Hf); unfold d; lia|].
      split; [exact Hfail|].
      split; [rewrite <- Hr; exact Hflag|].
      split.
      * rewrite <- Ha. unfold after. cbn [snd].
        rewrite !filter_app, H4, app_nil_r. reflexivity.
      * intros j t' c' Hn' Hc'. destruct (Nat.eq_dec j i) as [-> | Hj].
        -- rewrite (nth_error_replace_eq _ _ _ Hi) in Hn'.
           injection Hn' as <-. right. exact H3.
        -- rewrite nth_error_replace_neq in Hn' by exact Hj.
           destruct (Hidle j t' c' Hj Hn' Hc') as [Ho | ->];
             [left; exact Ho | right; exact I].
    + (* not connected: the call ends with its sentinel *)
      rewrite Hfalse in Hp |- *. cbn [advance rest mgr_after world_after
                                      lock_after shown finished] in Hp |- *.
      unfold calls_inv, cur. cbn [tasks locked shared service history].
      rewrite replace_length. split; [exact Hlen|]. left.
      assert (Ep : length cs - pending (replace i (Ret (sentinel c)) ts) = S d)
        by (unfold d; lia).
      rewrite Ep. split; [exact Eflag|]. split.
      * intros k Hk. destruct (Nat.eq_dec k d) as [-> | Hkd].
        -- rewrite <- Hr. exact Hflag.
        -- apply Hfail. lia.
      * split.
        -- rewrite <- Ha. unfold after. rewrite app_nil_r. reflexivity.
        -- intros j t' c' Hn' Hc'. destruct (Nat.eq_dec j i) as [-> | Hj].
           ++ rewrite (nth_error_replace_eq _ _ _ Hi) in Hn'.
              injection Hn' as <-. rewrite Hc in Hc'. injection Hc' as <-.
              right. reflexivity.
           ++ rewrite nth_error_replace_neq in Hn' by exact Hj.
              eapply Hidle; eassumption.
Qed.

Lemma nth_error_same_length {T U : Type} (l : list T) (l' : list U) i x :
  length l = length l' -> nth_error l i = Some x ->
  exists y, nth_error l' i = Some y.
Proof.
  intros Hlen Hi.
  destruct (nth_error l' i) as [y|] eqn:E; [exists y; reflexivity|].
  apply nth_error_None in E.
  assert (i < length l) by (apply nth_error_Some; congruence). lia.
Qed.

Lemma calls_inv_step s0 cs P i :
  forallb needs_connection cs = true ->
  calls_inv s0 cs P -> calls_inv s0 cs (pool_step P i).
Proof.
  intros Hneed Hinv.
  destruct (nth_error (tasks P) i) as [t|] eqn:Hi;
    [|unfold pool_step; rewrite Hi; exact Hinv].
  destruct (finished t) eqn:Hf.
  { rewrite (pool_step_stutter P i Hi); [exact Hinv|].
    apply advance_finished, Hf. }
  destruct P as [m w h lk ts]. cbn [tasks] in Hi.
  unfold pool_step. cbn [tasks shared service locked history]. rewrite Hi.
  cbv zeta.
  destruct Hinv as (Hlen & Hinv). unfold cur in Hinv.
  cbn [tasks locked shared service history] in Hlen, Hinv. cbv zeta in Hinv.
  destruct (nth_error_same_length ts cs i Hlen Hi) as (c & Hc).
  pose proof (needs_connection_nth cs i Hneed Hc) as Hn.
  pose proof (commutes_frame_of c Hn) as HF.
  destruct Hinv as [(Hflag & Hfail & Hinv) |
                    (Hflag & -> & d0 & Hd0 & Hfail & Hok & Hsess & Hidle)].
  - (* the flag is off *)
    destruct lk.
    + destruct Hinv as (i0 & c0 & q & Hc0 & Hq0 & Hq & Ha & Hr & Hidle).
      destruct (Nat.eq_dec i i0) as [-> | Hne].
      * rewrite Hq0 in Hi. injection Hi as <-.
        rewrite Hc0 in Hc. injection Hc as <-.
        eapply calls_inv_turn; eassumption.
      * assert (W : advance t m w true =
                    mkSlice (frame_of c (async_with_lock connect_locked))
                            m w true []).
        { destruct (Hidle i t c Hne Hi Hc) as [[-> | ->] | ->].
          - rewrite (@advance_call c m w true Hn), Hflag.
            apply (@advance_frame_waiting _ _ (frame_of c) connect_locked m w true HF).
          - apply (@advance_frame_waiting _ _ (frame_of c) connect_locked m w true HF).
          - discriminate. }
        rewrite W. cbn [mgr_after world_after shown lock_after rest].
        rewrite app_nil_r.
        pose proof (pending_replace i
                      (frame_of c (async_with_lock connect_locked)) ts Hi)
          as Hp.
        rewrite Hf in Hp.
        rewrite (@finished_commutes _ _ (frame_of c)
                   (async_with_lock connect_locked) HF eq_refl) in Hp.
        assert (Ep : pending (replace i (frame_of c
                                (async_with_lock connect_locked)) ts)
                     = pending ts) by lia.
        unfold calls_inv, cur. cbn [tasks locked shared service history].
        rewrite replace_length, Ep. split; [exact Hlen|]. left.
        split; [exact Hflag|]. split; [exact Hfail|].
        exists i0, c0, q. rewrite nth_error_replace_neq by auto.
        repeat split; try assumption.
        intros j t' c' Hj Hn' Hc'. destruct (Nat.eq_dec j i) as [-> | Hji].
        -- rewrite (nth_error_replace_eq _ _ _ Hi) in Hn'.
           injection Hn' as <-. rewrite Hc in Hc'. injection Hc' as <-.
           left; right. reflexivity.
        -- rewrite nth_error_replace_neq in Hn' by exact Hji.
           eapply Hidle; eassumption.
    + destruct Hinv as (Hcur & Hidle).
      assert (W : advance t m w false =
                  advance (frame_of c (release_after connect_locked)) m w true).
      { destruct (Hidle i t c Hi Hc) as [[-> | ->] | ->].
        - rewrite (@advance_call c m w false Hn), Hflag.
          apply (@advance_frame_waiting _ _ (frame_of c) connect_locked m w false HF).
        - apply (@advance_frame_waiting _ _ (frame_of c) connect_locked m w false HF).
        - discriminate. }
      rewrite W.
      eapply calls_inv_turn;
        [exact Hneed | exact Hlen | exact Hi | exact Hc | exact Hf
         | exact Hfail | apply quiet_connect_locked | | |].
      * rewrite after_connect_locked, Hcur. reflexivity.
      * rewrite result_connect_locked, Hcur. reflexivity.
      * intros j t' c' _ Hn' Hc'. eapply Hidle; eassumption.
  - (* the flag is on *)
    assert (W : exists p, harmless p /\ advance t m w false = advance p m w false).
    { destruct (Hidle i t c Hi Hc) as [[-> | ->] | Hh].
      - exists (frame_of c (Ret true)).
        split; [apply (frame_of_result c Hn)|].
        rewrite (@advance_call c m w false Hn), Hflag. reflexivity.
      - exists (frame_of c (Ret true)).
        split; [apply (frame_of_result c Hn)|].
        rewrite (@advance_frame_waiting _ _ (frame_of c) connect_locked m w false HF).
        apply (@advance_frame_connected _ (frame_of c) m w HF Hflag).
      - exists t. split; [exact Hh | reflexivity]. }
    destruct W as (p & Hp & ->).
    destruct (@harmless_advance _ p m w false Hp) as (H1 & H2 & H3 & H4).
    cbv zeta in H1, H2, H3, H4.
    unfold calls_inv, cur. cbn [tasks locked shared service history].
    rewrite replace_length. split; [exact Hlen|]. right.
    rewrite H1, H2. split; [exact Hflag|]. split; [reflexivity|].
    exists d0. split; [exact Hd0|]. split; [exact Hfail|].
    split; [exact Hok|]. split.
    + rewrite filter_app, H4, app_nil_r. exact Hsess.
    + intros j t' c' Hn' Hc'. destruct (Nat.eq_dec j i) as [-> | Hj].
      * rewrite (nth_error_replace_eq _ _ _ Hi) in Hn'.
        injection Hn' as <-. right. exact H3.
      * rewrite nth_error_replace_neq in Hn' by exact Hj.
        eapply Hidle; eassumption.
Qed.

Lemma calls_inv_run s0 cs sched P :
  forallb needs_connection cs = true ->
  calls_inv s0 cs P -> calls_inv s0 cs (run_pool sched P).
Proof.
  intros Hneed. revert P. unfold run_pool.
  induction sched as [| i sched IH]; intros P H; simpl; [exact H|].
  apply IH, calls_inv_step; assumption.
Qed.

Lemma pending_map_call cs : pending (map call cs) = length cs.
Proof.
  unfold pending. induction cs as [| c cs IH]; simpl; [reflexivity|].
  rewrite finished_call. simpl. rewrite IH. reflexivity.
Qed.

Lemma calls_inv_spawn cs m w :
  _connected m = false -> calls_inv (m, w, []) cs (spawn_calls cs m w).
Proof.
  intros Hc. unfold calls_inv, spawn_calls, cur.
  cbn [tasks locked shared service history].
  rewrite length_map, pending_map_call, Nat.sub_diag.
  split; [reflexivity|]. left. split; [exact Hc|].
  split; [intros k Hk; lia|]. split; [reflexivity|].
  intros j t c Hn Hcs. left; left.
  rewrite nth_error_map, Hcs in Hn. injection Hn as <-. reflexivity.
Qed.


Lemma serial_history n m w :
  snd (serial n (m, w, [])) = trace (run (times n connect) m w).
Proof. rewrite serial_times. reflexivity. Qed.


(** ** Every pool of public calls can run to its end *)

Ltac alone_tac :=
  repeat (cbn;
          match goal with
          | |- True => exact I
          | |- _ = _ => reflexivity
          | |- _ /\ _ => split
          | |- forall _, _ => intro
          | |- context [truthy ?x] => destruct (truthy x)
          | |- context [match ?x with Ok _ => _ | Err _ => _ end] =>
              is_var x; destruct x
          | |- context [match ?x with Some _ => _ | None => _ end] =>
              is_var x; destruct x
          | |- context [if ?x then _ else _] => is_var x; destruct x
          | |- context [negb ?x] => is_var x; destruct x
          | |- context [_connected ?x] => is_var x; destruct x
          | |- context [user ?x] => is_var x; destruct x
          | |- context [user_id ?x] => is_var x; destruct x
          end).

Lemma call_runs_alone c : runs_alone 9 (call c) false.
Proof.
  destruct c;
    unfold call, store_conversation, get_user_profile, flush_buffer,
      get_user_id, not_connected_and_connect_fails, insert_exchange,
      flush_user;
    unfold_connect; alone_tac.
Qed.

Lemma turn_alone {A : Type} n (p : Prog A) m w lk :
  runs_alone n p lk ->
  let s := advance p m w lk in
  (finished (rest s) = true /\ lock_after s = false) \/
  (exists n', n = S n' /\ runs_alone n' (rest s) (lock_after s)).
Proof.
  revert n m w lk.
  induction p as [a | e | X op k IH]; intros n m w lk Hp; cbv zeta.
  - left. split; [reflexivity | exact Hp].
  - left. split; [reflexivity | exact Hp].
  - cbn [advance]. cbn [runs_alone] in Hp.
    destruct (exec_op op m w) as [[[x m1] w1] evs].
    destruct (kind op).
    + apply (IH x n m1 w1 lk (Hp x)).
    + destruct n as [| n']; [contradiction|].
      right. exists n'. split; [reflexivity | apply Hp].
    + destruct Hp as [-> Hk]. apply (IH x n m1 w1 true (Hk x)).
    + apply (IH x n m1 w1 false (Hp x)).
Qed.

Lemma run_pool_stutter {A : Type} (P : Pool A) i t k :
  nth_error (tasks P) i = Some t -> finished t = true ->
  run_pool (repeat i k) P = P.
Proof.
  intros Hi Hf. induction k as [| k IH]; [reflexivity|].
  cbn [repeat]. unfold run_pool in *. cbn [fold_left].
  rewrite (pool_step_stutter P i Hi (advance_finished t _ _ _ Hf)).
  exact IH.
Qed.

Lemma pool_step_task {A : Type} (P : Pool A) i p :
  nth_error (tasks P) i = Some p ->
  let s := advance p (shared P) (service P) (locked P) in
  locked (pool_step P i) = lock_after s /\
  length (tasks (pool_step P i)) = length (tasks P) /\
  nth_error (tasks (pool_step P i)) i = Some (rest s) /\
  forall j, j <> i ->
    nth_error (tasks (pool_step P i)) j = nth_error (tasks P) j.
Proof.
  intros Hi. cbv zeta. unfold pool_step. rewrite Hi. cbn [locked tasks].
  split; [reflexivity|]. split; [apply replace_length|].
  split; [eapply nth_error_replace_eq; exact Hi|].
  intros j Hj. apply nth_error_replace_neq, Hj.
Qed.

(** A task that can run alone, given its turns, ends and frees the lock;
    the other tasks stay where they are. *)
Lemma run_alone_pool {A : Type} n (P : Pool A) i p :
  nth_error (tasks P) i = Some p ->
  runs_alone n p (locked P) ->
  let P' := run_pool (repeat i (S n)) P in
  locked P' = false /\
  length (tasks P') = length (tasks P) /\
  (exists t, nth_error (tasks P') i = Some t /\ finished t = true) /\
  forall j, j <> i -> nth_error (tasks P') j = nth_error (tasks P) j.
Proof.
  revert P p. induction n as [| n IH]; intros P p Hi Hp; cbv zeta;
    destruct (pool_step_task P i Hi) as (Hlk1 & Hlen1 & Hi1 & Hoth1);
    cbv zeta in Hlk1, Hi1;
    pose proof (turn_alone _ p (shared P) (service P) (locked P) Hp) as Ht;
    cbv zeta in Ht.
  - change (run_pool (repeat i 1) P) with (pool_step P i).
    destruct Ht as [(Hf & Hl) | (n' & Hn & _)]; [|discriminate].
    split; [congruence|]. split; [exact Hlen1|].
    split; [eexists; split; [exact Hi1 | exact Hf] | exact Hoth1].
  - change (run_pool (repeat i (S (S n))) P)
      with (run_pool (repeat i (S n)) (pool_step P i)).
    destruct Ht as [(Hf & Hl) | (n' & Hn & Hr)].
    + rewrite (run_pool_stutter (pool_step P i) i (S n) Hi1 Hf).
      split; [congruence|]. split; [exact Hlen1|].
      split; [eexists; split; [exact Hi1 | exact Hf] | exact Hoth1].
    + injection Hn as <-. rewrite <- Hlk1 in Hr.
      destruct (IH (pool_step P i) _ Hi1 Hr) as (H1 & H2 & H3 & H4).
      cbv zeta in H1, H2, H3, H4.
      split; [exact H1|]. split; [congruence|]. split; [exact H3|].
      intros j Hj. rewrite (H4 j Hj). apply Hoth1, Hj.
Qed.

Lemma one_by_one_from {A : Type} n count :
  forall start (P : Pool A),
    start + count = length (tasks P) ->
    locked P = false ->
    (forall j t, j < start -> nth_error (tasks P) j = Some t ->
                 finished t = true) ->
    (forall j t, start <= j -> nth_error (tasks P) j = Some t ->
                 runs_alone n t false) ->
    all_finished
      (run_pool (flat_map (fun i => repeat i (S n)) (seq start count)) P)
    = true.
Proof.
  induction count as [| count IH]; intros start P Hlen Hlk Hdone Htodo.
  - cbn. unfold all_finished. apply forallb_forall. intros t Ht.
    apply In_nth_error in Ht as (j & Hj).
    apply (Hdone j t); [|exact Hj].
    assert (j < length (tasks P)) by (apply nth_error_Some; congruence). lia.
  - cbn [seq flat_map]. unfold run_pool. rewrite fold_left_app.
    fold (run_pool (repeat start (S n)) P).
    fold (run_pool (flat_map (fun i => repeat i (S n)) (seq (S start) count))
                   (run_pool (repeat start (S n)) P)).
    destruct (nth_error (tasks P) start) as [p|] eqn:Hp;
      [|apply nth_error_None in Hp; lia].
    assert (Hr : runs_alone n p (locked P))
      by (rewrite Hlk; apply (Htodo start p (le_n _) Hp)).
    destruct (run_alone_pool n P start Hp Hr) as (H1 & H2 & (t & H3 & H3f) & H4).
    cbv zeta in H1, H2, H3, H4.
    apply IH.
    + rewrite H2. lia.
    + exact H1.
    + intros j t' Hj Hn. destruct (Nat.eq_dec j start) as [-> | Hne].
      * rewrite H3 in Hn. injection Hn as <-. exact H3f.
      * rewrite (H4 j Hne) in Hn. apply (Hdone j t'); [lia | exact Hn].
    + intros j t' Hj Hn. rewrite (H4 j) in Hn by lia.
      apply (Htodo j t'); [lia | exact Hn].
Qed.

(** Whatever the calls, the manager and the service, giving each task ten
    turns, one task after the other, ends them all. *)
Lemma one_by_one_finishes cs m w :
  all_finished (run_pool (one_by_one 10 (length cs)) (spawn_calls cs m w))
  = true.
Proof.
  unfold one_by_one. apply one_by_one_from.
  - unfold spawn_calls. cbn [tasks]. rewrite length_map. reflexivity.
  - reflexivity.
  - intros j t Hj. lia.
  - intros j t _ Hn. unfold spawn_calls in Hn. cbn [tasks] in Hn.
    apply nth_error_In, in_map_iff in Hn as (c & <- & _).
    apply call_runs_alone.
Qed.

(** ** Callers on a connected manager *)

Lemma harmless_get_user_id : harmless (call CallGetUserId).
Proof. cbn. harmless_tac. Qed.

Lemma session_pool_step (P : Pool Value) i :
  _connected (shared P) = true ->
  locked P = false ->
  filter is_session (history P) = [] ->
  (forall j t, nth_error (tasks P) j = Some t -> settled t) ->
  shared (pool_step P i) = shared P /\
  locked (pool_step P i) = false /\
  filter is_session (history (pool_step P i)) = [] /\
  (forall j t, nth_error (tasks (pool_step P i)) j = Some t -> settled t).
Proof.
  intros Hc Hlk Hh Hts. unfold pool_step.
  destruct (nth_error (tasks P) i) as [p|] eqn:Hi; [|auto].
  assert (Hp : exists p',
             harmless p' /\
             advance p (shared P) (service P) (locked P) =
             advance p' (shared P) (service P) (locked P)).
  { destruct (Hts i p Hi) as [(c & ->) | Hp]; [|exists p; auto].
    destruct (needs_connection c) eqn:Hn.
    - exists (frame_of c (Ret true)). split; [apply frame_of_result, Hn|].
      rewrite (advance_call c (shared P) (service P) (locked P) Hn), Hc.
      reflexivity.
    - destruct c; try discriminate.
      exists (call CallGetUserId). split; [apply harmless_get_user_id|].
      reflexivity. }
  destruct Hp as (p' & Hp' & ->).
  destruct (harmless_advance p' (shared P) (service P) (locked P) Hp')
    as (H1 & H2 & H3 & H4).
  cbn [shared locked history tasks].
  split; [exact H1|]. split; [congruence|].
  split; [rewrite filter_app, Hh, H4; reflexivity|].
  intros j t Hj. destruct (Nat.eq_dec j i) as [-> | Hne].
  - rewrite (nth_error_replace_eq i _ (tasks P) Hi) in Hj.
    injection Hj as <-. right. exact H3.
  - rewrite (nth_error_replace_neq _ (tasks P) Hne) in Hj.
    apply (Hts j t Hj).
Qed.

(** X10.  On a connected manager, any number of public calls, run together
    under any schedule and stopped at any point, leave the manager as it
    is, never take the connection lock and make no ping, get_user or
    add_user. *)
Theorem concurrent_calls_on_session cs sched m w :
  _connected m = true ->
  shared (run_pool sched (spawn_calls cs m w)) = m /\
  locked (run_pool sched (spawn_calls cs m w)) = false /\
  filter is_session (history (run_pool sched (spawn_calls cs m w))) = [].
Proof.
  intros Hc.
  assert (G : forall (P : Pool Value),
             _connected (shared P) = true ->
             locked P = false ->
             filter is_session (history P) = [] ->
             (forall j t, nth_error (tasks P) j = Some t -> settled t) ->
             shared (run_pool sched P) = shared P /\
             locked (run_pool sched P) = false /\
             filter is_session (history (run_pool sched P)) = []).
  { induction sched as [| i sched IH]; intros P H1 H2 H3 H4.
    - auto.
    - change (run_pool (i :: sched) P) with (run_pool sched (pool_step P i)).
      destruct (session_pool_step P i H1 H2 H3 H4) as (K1 & K2 & K3 & K4).
      destruct (IH (pool_step P i)) as (L1 & L2 & L3);
        [congruence | assumption | assumption | assumption |].
      split; [congruence|]. split; assumption. }
  apply (G (spawn_calls cs m w)); try reflexivity; [exact Hc|].
  intros j t Hj. unfold spawn_calls in Hj. cbn [tasks] in Hj.
  apply nth_error_In, in_map_iff in Hj as (c & <- & _).
  left. exists c. reflexivity.
Qed.

(** ** The connect sequences of concurrent callers *)

(** X11.  Callers that need a connection, run together on an unconnected
    manager under any schedule and stopped at any point: the pings,
    get_user and add_user calls made so far are the beginning of those
    that [k] calls of connect made one after the other on the same manager
    and service make, for some [k] that is at most the number of callers.
    The connect sequences of different callers do not overlap. *)
Theorem connect_sequences_do_not_overlap cs sched m w :
  _connected m = false ->
  forallb needs_connection cs = true ->
  exists k rest,
    k <= length cs /\
    filter is_session (trace (run (times k connect) m w)) =
    filter is_session (history (run_pool sched (spawn_calls cs m w))) ++ rest.
Proof.
  intros Hc Hneed.
  pose proof (@calls_inv_run _ cs sched _ Hneed (@calls_inv_spawn cs m w Hc))
    as Hinv.
  set (P := run_pool sched (spawn_calls cs m w)) in *.
  destruct Hinv as (Hlen & Hinv). cbv zeta in Hinv.
  pose proof (pending_le (tasks P)) as Hle.
  destruct Hinv as [(Hflag & Hfail & Hinv) |
                    (Hflag & Hlk & d0 & Hd0 & Hfail & Hok & Hsess & Hidle)].
  - destruct (locked P).
    + destruct Hinv as (i & c & q & Hci & Hq & _ & Hafter & _).
      assert (Hpos : 0 < pending (tasks P)).
      { eapply pending_pos; [exact Hq|].
        apply (@finished_commutes _ _ (frame_of c) (release_after q)
                 (commutes_frame_of c (needs_connection_nth cs i Hneed Hci))
                 (finished_release_after q)). }
      assert (Hh : history P ++ trace (run q (shared P) (service P)) =
                   snd (serial (S (length cs - pending (tasks P))) (m, w, [])))
        by (rewrite <- Hafter; reflexivity).
      rewrite serial_history in Hh.
      exists (S (length cs - pending (tasks P))).
      exists (filter is_session (trace (run q (shared P) (service P)))).
      split; [lia|]. rewrite <- Hh, filter_app. reflexivity.
    + destruct Hinv as (Hcur & _).
      assert (Hh : history P =
                   snd (serial (length cs - pending (tasks P)) (m, w, [])))
        by (rewrite <- Hcur; reflexivity).
      rewrite serial_history in Hh.
      exists (length cs - pending (tasks P)), [].
      split; [lia|]. rewrite <- Hh, app_nil_r. reflexivity.
  - exists (S d0), []. split; [lia|].
    rewrite Hsess, serial_history, app_nil_r. reflexivity.
Qed.

(** ** The lock *)

Lemma orderly_le {A : Type} (p : Prog A) n n' held :
  n <= n' -> orderly n p held -> orderly n' p held.
Proof.
  revert n n' held.
  induction p as [a | e | X op k IH]; intros n n' held Hn Hp;
    [exact Hp | exact Hp |].
  cbn [orderly] in *. destruct (kind op).
  - intros x. apply (IH x n n' held Hn (Hp x)).
  - destruct n as [| n]; [contradiction|].
    destruct n' as [| n']; [lia|].
    intros x. apply (IH x n n' held); [lia | apply Hp].
  - destruct Hp as [Hh Hk]. split; [exact Hh|].
    intros x. apply (IH x n n' true Hn (Hk x)).
  - destruct Hp as [Hh Hk]. split; [exact Hh|].
    intros x. apply (IH x n n' false Hn (Hk x)).
Qed.

Lemma orderly_runs_alone {A : Type} (p : Prog A) n held :
  orderly n p held -> runs_alone n p held.
Proof.
  revert n held.
  induction p as [a | e | X op k IH]; intros n held Hp;
    [exact Hp | exact Hp |].
  cbn [orderly runs_alone] in *. destruct (kind op).
  - intros x. apply IH, Hp.
  - destruct n as [| n]; [contradiction|]. intros x. apply IH, Hp.
  - destruct Hp as [Hh Hk]. split; [exact Hh|]. intros x. apply IH, Hk.
  - destruct Hp as [Hh Hk]. intros x. apply IH, Hk.
Qed.

Lemma call_orderly c : orderly 9 (call c) false.
Proof.
  destruct c;
    unfold call, store_conversation, get_user_profile, flush_buffer,
      get_user_id, not_connected_and_connect_fails, insert_exchange,
      flush_user;
    unfold_connect; alone_tac.
Qed.

(** A turn of a task that holds the lock, or that finds it free. *)
Lemma turn_orderly {A : Type} n (p : Prog A) m w lk :
  orderly n p lk ->
  orderly n (rest (advance p m w lk)) (lock_after (advance p m w lk)).
Proof.
  revert n m w lk.
  induction p as [a | e | X op k IH]; intros n m w lk Hp;
    [exact Hp | exact Hp |].
  cbn [advance]. cbn [orderly] in Hp.
  destruct (exec_op op m w) as [[[x m1] w1] evs].
  destruct (kind op).
  - apply (IH x n m1 w1 lk (Hp x)).
  - destruct n as [| n']; [contradiction|].
    cbn [rest lock_after]. apply (@orderly_le _ (k x) n' (S n') lk); [lia|].
    apply Hp.
  - destruct Hp as [-> Hk]. apply (IH x n m1 w1 true (Hk x)).
  - destruct Hp as [-> Hk]. apply (IH x n m1 w1 false (Hk x)).
Qed.

(** A turn of a task while another task holds the lock. *)
Lemma turn_blocked {A : Type} n (p : Prog A) m w :
  orderly n p false ->
  lock_after (advance p m w true) = true /\
  orderly n (rest (advance p m w true)) false.
Proof.
  revert n m w.
  induction p as [a | e | X op k IH]; intros n m w Hp;
    [split; [reflexivity | exact Hp] | split; [reflexivity | exact Hp] |].
  cbn [advance]. pose proof Hp as Hp0. cbn [orderly] in Hp.
  destruct (exec_op op m w) as [[[x m1] w1] evs].
  destruct (kind op).
  - apply (IH x n m1 w1 (Hp x)).
  - destruct n as [| n']; [contradiction|].
    cbn [rest lock_after]. split; [reflexivity|].
    apply (@orderly_le _ (k x) n' (S n') false); [lia | apply Hp].
  - cbn [rest lock_after]. split; [reflexivity | exact Hp0].
  - destruct Hp as [Hh _]. discriminate.
Qed.

Lemma pool_ok_step {A : Type} n (P : Pool A) i :
  pool_ok n P -> pool_ok n (pool_step P i).
Proof.
  intros (o & Hlk & Hex & Hall).
  destruct (nth_error (tasks P) i) as [p|] eqn:Hi;
    [|unfold pool_step; rewrite Hi; exists o; auto].
  destruct (pool_step_task P i Hi) as (Hlk1 & Hlen1 & Hi1 & Hoth1).
  cbv zeta in Hlk1, Hi1.
  pose proof (Hall i p Hi) as Hp.
  assert (Hlt : i < length (tasks P)) by (apply nth_error_Some; congruence).
  assert (Hcase : (is_owner o i = locked P /\
                   forall j, j <> i -> is_owner o j = false) \/
                  (is_owner o i = false /\ locked P = true)).
  { destruct o as [i'|]; cbn [is_owner] in *.
    - destruct (Nat.eqb_spec i' i) as [-> | Hne].
      + left. split; [congruence|]. intros j Hj.
        apply Nat.eqb_neq. congruence.
      + right. split; [reflexivity | exact Hlk].
    - left. split; [congruence | reflexivity]. }
  destruct Hcase as [(Ho & Hoth) | (Ho & Hl)].
  - rewrite Ho in Hp.
    pose proof (turn_orderly n p (shared P) (service P) (locked P) Hp) as Ht.
    exists (if lock_after (advance p (shared P) (service P) (locked P))
            then Some i else None).
    split; [rewrite Hlk1; destruct (lock_after _); reflexivity|].
    split.
    + intros i0 Hi0. destruct (lock_after _); [|discriminate].
      injection Hi0 as <-. rewrite Hlen1. exact Hlt.
    + intros j t Hj. destruct (Nat.eq_dec j i) as [-> | Hne].
      * rewrite Hi1 in Hj. injection Hj as <-.
        destruct (lock_after _); cbn [is_owner];
          [rewrite Nat.eqb_refl|]; exact Ht.
      * rewrite (Hoth1 j Hne) in Hj.
        pose proof (Hall j t Hj) as Hjt. rewrite (Hoth j Hne) in Hjt.
        destruct (lock_after _); cbn [is_owner]; [|exact Hjt].
        replace (Nat.eqb i j) with false; [exact Hjt|].
        symmetry. apply Nat.eqb_neq. congruence.
  - rewrite Ho, Hl in *.
    destruct (turn_blocked n p (shared P) (service P) Hp) as (Ht1 & Ht2).
    exists o. split; [rewrite Hlk1, Ht1; exact Hlk|].
    split.
    + intros i0 Hi0. rewrite Hlen1. apply Hex, Hi0.
    + intros j t Hj. destruct (Nat.eq_dec j i) as [-> | Hne].
      * rewrite Hi1 in Hj. injection Hj as <-. rewrite Ho. exact Ht2.
      * rewrite (Hoth1 j Hne) in Hj. apply (Hall j t Hj).
Qed.

Lemma pool_ok_run {A : Type} n sched (P : Pool A) :
  pool_ok n P -> pool_ok n (run_pool sched P).
Proof.
  revert P. induction sched as [| i sched IH]; intros P H; [exact H|].
  apply (IH (pool_step P i)), pool_ok_step, H.
Qed.

Lemma run_pool_app {A : Type} sched more (P : Pool A) :
  run_pool (sched ++ more) P = run_pool more (run_pool sched P).
Proof. apply fold_left_app. Qed.

Lemma pool_ok_spawn cs m w : pool_ok 9 (spawn_calls cs m w).
Proof.
  exists None. split; [reflexivity|]. split; [discriminate|].
  intros j t Hj. unfold spawn_calls in Hj. cbn [tasks] in Hj.
  apply nth_error_In, in_map_iff in Hj as (c & <- & _).
  apply call_orderly.
Qed.

(** X12.  Whatever public calls run together, on whatever manager and
    service, and whatever the schedule so far: when every task has ended
    the connection lock is free, and from the point reached there is a
    schedule that ends every task.  The lock is released on every way out
    of connect and no caller can be left waiting for it for ever. *)
Theorem lock_is_never_lost cs sched m w :
  (all_finished (run_pool sched (spawn_calls cs m w)) = true ->
   locked (run_pool sched (spawn_calls cs m w)) = false) /\
  exists more,
    all_finished (run_pool (sched ++ more) (spawn_calls cs m w)) = true.
Proof.
  pose proof (pool_ok_run sched (pool_ok_spawn cs m w)) as Hok.
  assert (E : forall more,
             run_pool (sched ++ more) (spawn_calls cs m w) =
             run_pool more (run_pool sched (spawn_calls cs m w)))
    by (intros more; apply run_pool_app).
  set (P := run_pool sched (spawn_calls cs m w)) in *.
  destruct Hok as (o & Hlk & Hex & Hall).
  assert (Halone : forall j t, nth_error (tasks P) j = Some t ->
                               is_owner o j = false -> runs_alone 9 t false).
  { intros j t Hj Ho. apply orderly_runs_alone.
    rewrite <- Ho. apply (Hall j t Hj). }
  destruct o as [i|].
  - (* task [i] holds the lock *)
    destruct (nth_error (tasks P) i) as [p|] eqn:Hi;
      [|apply nth_error_None in Hi; specialize (Hex i eq_refl); lia].
    pose proof (Hall i p Hi) as Hp. cbn [is_owner] in Hp.
    rewrite Nat.eqb_refl in Hp.
    split.
    + intros Hfin. unfold all_finished in Hfin.
      rewrite forallb_forall in Hfin.
      pose proof (Hfin p (nth_error_In _ _ Hi)) as Hf.
      destruct p; [discriminate Hp | discriminate Hp | discriminate Hf].
    + assert (Hr : runs_alone 9 p (locked P))
        by (rewrite Hlk; apply orderly_runs_alone, Hp).
      destruct (run_alone_pool 9 P i Hi Hr) as (H1 & H2 & (t & H3 & H3f) & H4).
      cbv zeta in H1, H2, H3, H4.
      exists (repeat i 10 ++
              flat_map (fun j => repeat j 10) (seq 0 (length (tasks P)))).
      rewrite E, run_pool_app.
      apply one_by_one_from.
      * rewrite H2. reflexivity.
      * exact H1.
      * intros j t' Hj. lia.
      * intros j t' _ Hj. destruct (Nat.eq_dec j i) as [-> | Hne].
        -- rewrite H3 in Hj. injection Hj as <-.
           destruct t; [reflexivity | reflexivity | discriminate H3f].
        -- rewrite (H4 j Hne) in Hj. apply (Halone j t' Hj).
           cbn [is_owner]. apply Nat.eqb_neq. congruence.
  - split; [intros _; exact Hlk|].
    exists (flat_map (fun j => repeat j 10) (seq 0 (length (tasks P)))).
    rewrite E.
    apply one_by_one_from.
    + reflexivity.
    + exact Hlk.
    + intros j t Hj. lia.
    + intros j t _ Hj. apply (Halone j t Hj). reflexivity.
Qed.

(** ** The session invariant at every point of the pool *)

Lemma may_become_refl got m : may_become got m m.
Proof. unfold may_become. auto. Qed.

Lemma may_become_trans got m m1 m2 :
  may_become got m m1 -> may_become got m1 m2 -> may_become got m m2.
Proof.
  intros (A1 & A2 & A3) (B1 & B2 & B3). unfold may_become.
  split; [auto|]. split.
  - destruct B2 as [B2 | B2]; [rewrite B2; exact A2 | right; exact B2].
  - intros H. destruct (B3 H) as [B | B]; [|right; exact B].
    destruct (A3 B) as [A | (h & Hg & Hu)]; [left; exact A | right].
    exists h. split; [exact Hg|].
    destruct B2 as [B2 | (h' & Hg' & Hu')]; congruence.
Qed.

Lemma may_become_none got m m1 : may_become None m m1 -> may_become got m m1.
Proof.
  intros (A1 & A2 & A3). unfold may_become.
  split; [exact A1|]. split.
  - destruct A2 as [A2 | (h & Hg & _)]; [left; exact A2 | discriminate].
  - intros H. destruct (A3 H) as [A | (h & Hg & _)];
      [left; exact A | discriminate].
Qed.

Lemma answered_in evs h :
  answered evs = Some h -> exists id, In (EvGetUser id (Ok h)) evs.
Proof.
  destruct evs as [| [r | id [h' | e] | | | | | |] [| ev evs]];
    try discriminate.
  cbn. intros H. injection H as <-. exists id. left. reflexivity.
Qed.

Lemma exec_lock_op {X : Type} (op : Op X) m w :
  kind op = KAcquire \/ kind op = KRelease ->
  snd (fst (fst (exec_op op m w))) = m /\ snd (exec_op op m w) = [].
Proof.
  destruct op; cbn; intros [H | H]; try discriminate; split; reflexivity.
Qed.

(** One turn of a careful task. *)
Lemma careful_advance {A : Type} (p : Prog A) got m w lk :
  careful p got m ->
  may_become got m (mgr_after (advance p m w lk)) /\
  exists got',
    (forall m', careful (rest (advance p m w lk)) got' m') /\
    forall h, got' = Some h ->
              exists id, In (EvGetUser id (Ok h)) (shown (advance p m w lk)).
Proof.
  revert got m w lk.
  induction p as [a | e | X op k IH]; intros got m w lk Hp;
    try (split; [apply may_become_refl|];
         exists None; split; [intros; exact I | discriminate]).
  cbn [advance]. cbn [careful] in Hp.
  destruct (kind op) eqn:K.
  - specialize (Hp w).
    destruct (exec_op op m w) as [[[x m1] w1] evs]. destruct Hp as [Hm Hk].
    destruct (IH x got m1 w1 lk Hk) as (Hm' & got' & Hc & Hin).
    cbn [mgr_after rest shown].
    split; [eapply may_become_trans; eassumption|].
    exists got'. split; [exact Hc|].
    intros h Hh. destruct (Hin h Hh) as (id & Hi).
    exists id. apply in_or_app. right. exact Hi.
  - pose proof (exec_await_mgr op m w K) as Em. specialize (Hp m w).
    destruct (exec_op op m w) as [[[x m1] w1] evs].
    cbn [fst snd] in Em. subst m1. cbn [mgr_after rest shown].
    split; [apply may_become_refl|].
    exists (answered evs). split; [exact Hp|].
    intros h Hh. apply answered_in, Hh.
  - destruct (exec_lock_op op m w (or_introl K)) as (Em & Ee).
    pose proof (Hp m w) as Hk.
    destruct (exec_op op m w) as [[[x m1] w1] evs].
    cbn [fst snd] in Em, Ee. subst m1 evs.
    destruct lk.
    + cbn [mgr_after rest shown].
      split; [apply may_become_refl|].
      exists None. split; [|discriminate].
      intros m'. cbn [careful]. rewrite K. exact Hp.
    + destruct (IH x None m w1 true (Hk m)) as (Hm' & got' & Hc & Hin).
      split; [apply may_become_none, Hm'|].
      exists got'. split; assumption.
  - destruct (exec_lock_op op m w (or_intror K)) as (Em & Ee).
    pose proof (Hp m w) as Hk.
    destruct (exec_op op m w) as [[[x m1] w1] evs].
    cbn [fst snd] in Em, Ee. subst m1 evs.
    destruct (IH x None m w1 false (Hk m)) as (Hm' & got' & Hc & Hin).
    split; [apply may_become_none, Hm'|].
    exists got'. split; assumption.
Qed.

Ltac may_tac :=
  unfold may_become; cbn;
  split; [intros H; first [exact H | reflexivity]|];
  split;
  [ first [left; reflexivity | right; eexists; split; reflexivity]
  | intros H;
    first [left; exact H | right; eexists; split; reflexivity] ].

Ltac careful_tac :=
  repeat (cbn;
          match goal with
          | |- True => exact I
          | |- may_become _ _ _ => may_tac
          | |- _ /\ _ => split
          | |- forall _, _ => intro
          | |- context [client_ping ?w] =>
              destruct (client_ping w) as [[[|]|?] ?]
          | |- context [client_get_user ?i ?w] =>
              destruct (client_get_user i w) as [[?|?] ?]
          | |- context [client_add_user ?d ?w] =>
              destruct (client_add_user d w) as [[?|?] ?]
          | |- context [user_insert ?u ?b ?w] =>
              destruct (user_insert u b w) as [[?|?] ?]
          | |- context [user_context ?u ?a ?b ?w] =>
              destruct (user_context u a b w) as [[?|?] ?]
          | |- context [user_flush ?u ?w] =>
              destruct (user_flush u w) as [[?|?] ?]
          | |- context [truthy ?x] => destruct (truthy x)
          | |- context [match ?x with Some _ => _ | None => _ end] =>
              is_var x; destruct x
          | |- context [if ?x then _ else _] => is_var x; destruct x
          | |- context [negb ?x] => is_var x; destruct x
          | |- context [_connected ?x] => is_var x; destruct x
          | |- context [user ?x] => is_var x; destruct x
          | |- context [user_id ?x] => is_var x; destruct x
          end).

Lemma call_careful c m : careful (call c) None m.
Proof.
  destruct c;
    unfold call, store_conversation, get_user_profile, flush_buffer,
      get_user_id, not_connected_and_connect_fails, insert_exchange,
      flush_user;
    unfold_connect; careful_tac.
Qed.

Lemma pool_sound_step (P : Pool Value) i :
  pool_sound P ->
  pool_sound (pool_step P i) /\
  exists got,
    may_become got (shared P) (shared (pool_step P i)) /\
    forall h, got = Some h -> exists id, In (EvGetUser id (Ok h)) (history P).
Proof.
  intros (Ha & Hb & Hc).
  destruct (nth_error (tasks P) i) as [p|] eqn:Hi.
  2:{ unfold pool_step. rewrite Hi. split; [repeat split; assumption|].
      exists None. split; [apply may_become_refl | discriminate]. }
  destruct (Hc i p Hi) as (got & Hcar & Hgot).
  destruct (@careful_advance _ p got (shared P) (service P) (locked P)
              (Hcar (shared P)))
    as (Hm & got' & Hrest & Hin).
  destruct (pool_step_task P i Hi) as (_ & _ & Hi1 & Hoth1).
  cbv zeta in Hi1.
  assert (Es : shared (pool_step P i) =
               mgr_after (advance p (shared P) (service P) (locked P)))
    by (unfold pool_step; rewrite Hi; reflexivity).
  assert (Eh : history (pool_step P i) =
               history P ++
               shown (advance p (shared P) (service P) (locked P)))
    by (unfold pool_step; rewrite Hi; reflexivity).
  rewrite <- Es in Hm.
  split; [|exists got; split; assumption].
  destruct Hm as (M1 & M2 & M3).
  split; [|split].
  - intros H. destruct (M3 H) as [H' | (h & _ & Hu)]; [|congruence].
    destruct M2 as [M2 | (h & _ & Hu)]; [|congruence].
    rewrite M2. apply Ha, H'.
  - intros h Hu. rewrite Eh.
    destruct M2 as [M2 | (h' & Hg & Hu')].
    + rewrite M2 in Hu. destruct (Hb h Hu) as (id & Hid).
      exists id. apply in_or_app. left. exact Hid.
    + assert (h' = h) by congruence. subst h'.
      destruct (Hgot h Hg) as (id & Hid).
      exists id. apply in_or_app. left. exact Hid.
  - intros j t Hj. rewrite Eh.
    destruct (Nat.eq_dec j i) as [-> | Hne].
    + rewrite Hi1 in Hj. injection Hj as <-.
      exists got'. split; [exact Hrest|].
      intros h Hh. destruct (Hin h Hh) as (id & Hid).
      exists id. apply in_or_app. right. exact Hid.
    + rewrite (Hoth1 j Hne) in Hj.
      destruct (Hc j t Hj) as (g & Hg1 & Hg2).
      exists g. split; [exact Hg1|].
      intros h Hh. destruct (Hg2 h Hh) as (id & Hid).
      exists id. apply in_or_app. left. exact Hid.
Qed.

Lemma pool_sound_run sched (P : Pool Value) :
  pool_sound P -> pool_sound (run_pool sched P).
Proof.
  revert P. induction sched as [| i sched IH]; intros P H; [exact H|].
  apply (IH (pool_step P i)), pool_sound_step, H.
Qed.

Lemma pool_sound_spawn cs uid w : pool_sound (spawn_calls cs (init uid) w).
Proof.
  split; [discriminate|]. split; [discriminate|].
  intros j t Hj. unfold spawn_calls in Hj. cbn [tasks] in Hj.
  apply nth_error_In, in_map_iff in Hj as (c & <- & _).
  exists None. split; [intros m; apply call_careful | discriminate].
Qed.

(** C8.  The invariant holds at every point of every schedule of any
    public calls that run together on a new manager, and after any sequence
    of public calls of one caller.  Whenever the connected flag is set the
    manager holds a handle, and that handle was answered by a get_user
    that succeeded earlier.  No turn of any task clears the flag or drops
    a handle.  A turn that switches the flag on leaves a handle that a
    get_user had answered before the turn began: the flag is set only
    after the handle has been assigned from a successful get_user.  For
    one caller, a call that switches the flag on leaves the manager that
    connect leaves, and that connect ended on the service with a get_user
    that succeeded, whose handle the manager holds. *)
Theorem connected_holds_handle :
  (forall uid cs w,
     _connected (mgr (run (calls cs) (init uid) w)) = true ->
     exists h, user (mgr (run (calls cs) (init uid) w)) = Some h) /\
  (forall c m w,
     (_connected m = true -> _connected (mgr (run (call c) m w)) = true) /\
     (user m <> None -> user (mgr (run (call c) m w)) <> None)) /\
  (forall c m w,
     _connected m = false ->
     _connected (mgr (run (call c) m w)) = true ->
     mgr (run (call c) m w) = mgr (run connect m w) /\
     exists tr id h l,
       trace (run connect m w) = tr ++ [EvGetUser id (Ok h); EvLog l] /\
       user (mgr (run (call c) m w)) = Some h) /\
  (forall uid cs w sched,
     (_connected (shared (run_pool sched (spawn_calls cs (init uid) w))) = true ->
      exists id h,
        user (shared (run_pool sched (spawn_calls cs (init uid) w))) = Some h /\
        In (EvGetUser id (Ok h))
           (history (run_pool sched (spawn_calls cs (init uid) w)))) /\
     forall i,
       (_connected (shared (run_pool sched (spawn_calls cs (init uid) w)))
        = true ->
        _connected
          (shared (pool_step (run_pool sched (spawn_calls cs (init uid) w)) i))
        = true) /\
       (user (shared (run_pool sched (spawn_calls cs (init uid) w))) <> None ->
        user
          (shared (pool_step (run_pool sched (spawn_calls cs (init uid) w)) i))
        <> None) /\
       (_connected (shared (run_pool sched (spawn_calls cs (init uid) w)))
        = false ->
        _connected
          (shared (pool_step (run_pool sched (spawn_calls cs (init uid) w)) i))
        = true ->
        exists id h,
          user
            (shared
               (pool_step (run_pool sched (spawn_calls cs (init uid) w)) i))
          = Some h /\
          In (EvGetUser id (Ok h))
             (history (run_pool sched (spawn_calls cs (init uid) w))))).
Proof.
  destruct calls_hold_handle as (H1 & H2 & H3).
  split; [exact H1|]. split; [exact H2|]. split; [exact H3|].
  intros uid cs w sched.
  pose proof (pool_sound_run sched (pool_sound_spawn cs uid w)) as Hs.
  set (P := run_pool sched (spawn_calls cs (init uid) w)) in *.
  split.
  - destruct Hs as (Ha & Hb & _). intros Hc.
    destruct (user (shared P)) as [h|] eqn:Hu;
      [|exfalso; exact (Ha Hc eq_refl)].
    destruct (Hb h eq_refl) as (id & Hid). exists id, h. auto.
  - intros i.
    destruct (pool_sound_step i Hs) as (_ & got & (M1 & M2 & M3) & Hgot).
    split; [exact M1|]. split.
    + intros Hu. destruct M2 as [M2 | (h & _ & Hu')]; congruence.
    + intros Hoff Hon.
      destruct (M3 Hon) as [H | (h & Hg & Hu)]; [congruence|].
      destruct (Hgot h Hg) as (id & Hid). exists id, h. auto.
Qed.

End Concurrent.

(** * Scenarios *)

(** The scenario of the specification: new manager, no identifier, the ping
    succeeds and add_user returns u1. *)
Example connect_fresh_user :
  let f := run (RC := scripted) connect (init None) fresh_user_script in
  outcome f = Returned true /\
  outcome (run get_user_id (mgr f) (world f)) = Returned (Some "u1").
Proof. split; reflexivity. Qed.

Lemma profile_retry_policy_witness :
  reachable session /\
  _connected session = true /\
  outcome (run (get_user_profile None None) session
               [RFail "timeout"; RFail "timeout"; RFail "timeout"]) =
    Returned (Some "") /\
  count is_context
        (trace (run (get_user_profile None None) session
                    [RFail "timeout"; RFail "timeout"; RFail "timeout"])) = 3 /\
  outcome (run (get_user_profile (Some 200%Z) (Some ["pets"])) session
               [RFail "timeout"; RText "likes cats"; RText "unused"]) =
    Returned (Some "likes cats") /\
  world (run (get_user_profile (Some 200%Z) (Some ["pets"])) session
             [RFail "timeout"; RText "likes cats"; RText "unused"]) =
    [RText "unused"].
Proof.
  assert (Hr : reachable session)
    by (exists None, [CallConnect], fresh_user_script; reflexivity).
  split; [exact Hr|]. split; [reflexivity|].
  destruct (@profile_retry_policy scripted session None None
              [RFail "timeout"; RFail "timeout"; RFail "timeout"]
              Hr eq_refl) as (h1 & Hu1 & _ & H1).
  destruct (@profile_retry_policy scripted session (Some 200%Z)
              (Some ["pets"])
              [RFail "timeout"; RText "likes cats"; RText "unused"]
              Hr eq_refl) as (h2 & Hu2 & _ & H2).
  injection Hu1 as <-. injection Hu2 as <-.
  simpl in H1, H2.
  destruct H1 as (H1 & _ & _ & H1c & _). destruct H2 as (H2 & H2w & _).
  split; [exact H1|]. split; [exact H1c|]. split; [exact H2 | exact H2w].
Defined.


Lemma fallback_creates_one_user_witness :
  truthy (Some "u0") = true /\
  trace (run (RC := scripted) connect (init (Some "u0")) fallback_script) =
    [EvPing (RC := scripted) (Ok true);
     EvGetUser "u0" (Err (Exception "404 user not found"));
     EvLog (mkLog WARNING "User ID %s not found, creating new user: %s"
                  [AStr "u0"; AErr (Exception "404 user not found")]);
     EvAddUser source_marker (Ok "u1");
     EvGetUser (RC := scripted) "u1" (Ok "h1");
     EvLog (mkLog INFO "Created new Memobase user: %s" [AStr "u1"])] /\
  count is_add_user
        (trace (run (RC := scripted) connect (init (Some "u0")) fallback_script))
    = 1 /\
  user_id (mgr (run (RC := scripted) connect (init (Some "u0")) fallback_script))
    = Some "u1" /\
  outcome (run (RC := scripted) connect (init (Some "u0")) fallback_script)
    = Returned true.
Proof.
  split; [reflexivity|].
  destruct (@fallback_creates_one_user scripted (init (Some "u0"))
              fallback_script "u0"
              [RFail "404 user not found"; RId "u1"; RUser "h1"]
              (Exception "404 user not found")
              [RId "u1"; RUser "h1"] (Ok "u1") [RUser "h1"]
              eq_refl eq_refl eq_refl eq_refl eq_refl eq_refl)
    as (rest & Ht & Hc & Hn).
  destruct (Hn "u1" eq_refl) as (Hid & _ & Hh).
  destruct (Hh "h1" eq_refl) as (Ho & _).
  split; [reflexivity|]. split; [exact Hc|]. split; [exact Hid | exact Ho].
Defined.

(** C2, as stated, fails for the empty string: the ping succeeds, and no
    get_user is attempted with the supplied identifier; the manager asks
    for a new user at once. *)
Lemma blank_identifier_is_not_fetched :
  user_id (init (RC := scripted) (Some "")) = Some "" /\
  outcome blank_id_connect = Returned true /\
  trace blank_id_connect =
    [EvPing (RC := scripted) (Ok true);
     EvAddUser source_marker (Ok "u1");
     EvGetUser (RC := scripted) "u1" (Ok "h1");
     EvLog (mkLog INFO "Created new Memobase user: %s" [AStr "u1"])] /\
  ~ (exists r, In (EvGetUser "" r) (trace blank_id_connect)).
Proof.
  split; [reflexivity|]. split; [reflexivity|]. split; [reflexivity|].
  intros (r & H). vm_compute in H.
  repeat (destruct H as [H | H]; [discriminate|]). exact H.
Qed.

Lemma ping_false_isolates_witness :
  _connected (init (RC := scripted) None) = false /\
  client_ping (RemoteClient := scripted) [RBool false] = (Ok false, []) /\
  run (RC := scripted) (store_conversation "hi" "hello" None) (init None)
      [RBool false] =
    mkFinal (RC := scripted) (Returned false) (init None) [] ping_failed /\
  run (RC := scripted) (get_user_profile None None) (init None) [RBool false] =
    mkFinal (RC := scripted) (Returned (Some "")) (init None) [] ping_failed /\
  run (RC := scripted) flush_buffer (init None) [RBool false] =
    mkFinal (RC := scripted) (Returned false) (init None) [] ping_failed.
Proof.
  split; [reflexivity|]. split; [reflexivity|].
  destruct (@ping_false_isolates scripted (init None) [RBool false] []
              eq_refl eq_refl) as (_ & Hs & Hp & Hf & _).
  split; [apply Hs|]. split; [apply Hp | exact Hf].
Defined.

Lemma connect_idempotent_witness :
  outcome (run (RC := scripted) connect (init None) fresh_user_script) =
    Returned true /\
  run (RC := scripted) (connect ;; connect) (init None) fresh_user_script =
    run connect (init None) fresh_user_script /\
  run (RC := scripted) connect session [RBool false] =
    mkFinal (RC := scripted) (Returned true) session [RBool false] [].
Proof.
  split; [reflexivity|].
  destruct (@connect_idempotent scripted (init None) fresh_user_script eq_refl)
    as (_ & Hn & H2).
  split; [exact H2 | exact (Hn [] [] [RBool false])].
Defined.

Lemma get_user_id_gated_witness :
  (outcome (run (RC := scripted) connect (init None) [RBool false]) =
     Returned false /\
   outcome (run (RC := scripted) get_user_id
                (mgr (run (RC := scripted) connect (init None) [RBool false])) []) =
     Returned None) /\
  (_connected (init (RC := scripted) None) = false /\
   outcome (run (RC := scripted) connect (init None) fresh_user_script) =
     Returned true /\
   exists id,
     outcome (run (RC := scripted) get_user_id
                  (mgr (run (RC := scripted) connect (init None) fresh_user_script)) []) =
     Returned (Some id)).
Proof.
  split.
  - split; [reflexivity|].
    destruct (@get_user_id_gated scripted (init None) [RBool false])
      as (_ & _ & Hf & _).
    exact (Hf eq_refl []).
  - split; [reflexivity|]. split; [reflexivity|].
    destruct (@get_user_id_gated scripted (init None) fresh_user_script)
      as (_ & _ & _ & Hs).
    destruct (Hs eq_refl eq_refl) as (tr & id & h & l & _ & Hid).
    exists id. exact (Hid []).
Defined.

Lemma store_submits_exchange_witness :
  reachable session /\
  _connected session = true /\
  trace (run (store_conversation "hi" "hello" (Some "Bot")) session [RDone]) =
    [EvInsert (RC := scripted) "h1"
       (mkChatBlob [ [("role", "user"); ("content", "hi")];
                     [("role", "assistant"); ("content", "hello");
                      ("alias", "Bot")] ])
       (Ok tt);
     EvLog (mkLog DEBUG "Stored conversation in Memobase" [])] /\
  outcome (run (store_conversation "hi" "hello" (Some "Bot")) session [RDone])
    = Returned true.
Proof.
  assert (Hr : reachable session)
    by (exists None, [CallConnect], fresh_user_script; reflexivity).
  split; [exact Hr|]. split; [reflexivity|].
  destruct (@store_submits_exchange scripted session "hi" "hello"
              (Some "Bot") [RDone] Hr eq_refl)
    as (h & Hu & _ & _ & _ & _ & _ & _ & _ & H).
  injection Hu as <-. simpl in H. destruct H as (Ho & Ht).
  split; [exact Ht | exact Ho].
Defined.

Lemma connected_holds_handle_witness :
  _connected
    (mgr (run (RC := scripted)
              (calls [CallConnect; CallStore "hi" "hello" None; CallFlush])
              (init None) fresh_user_script)) = true /\
  (exists h,
     user (mgr (run (RC := scripted)
                    (calls [CallConnect; CallStore "hi" "hello" None;
                            CallFlush])
                    (init None) fresh_user_script)) = Some h) /\
  _connected (shared two_callers_up) = true /\
  exists id h,
    user (shared two_callers_up) = Some h /\
    In (EvGetUser id (Ok h)) (history two_callers_up).
Proof.
  split; [reflexivity|].
  destruct (@connected_holds_handle scripted) as (H & _ & _ & Hp).
  split.
  - exact (H None [CallConnect; CallStore "hi" "hello" None; CallFlush]
             fresh_user_script eq_refl).
  - split; [reflexivity|].
    exact (proj1 (Hp None store_and_profile session_script
                     [0; 1; 0; 0; 0; 1; 0; 1]) eq_refl).
Defined.

Lemma failed_fallback_keeps_new_id_witness :
  truthy (Some "u0") = true /\
  outcome (run (RC := scripted) connect (init (Some "u0"))
               failed_fallback_script) = Returned false /\
  user_id (mgr (run (RC := scripted) connect (init (Some "u0"))
                    failed_fallback_script)) = Some "u1" /\
  (exists rest,
     trace (run (RC := scripted) connect
                (mgr (run (RC := scripted) connect (init (Some "u0"))
                          failed_fallback_script))
                [RBool true; RUser "h1"]) =
     EvPing (RC := scripted) (Ok true)
       :: EvGetUser (RC := scripted) "u1" (Ok "h1") :: rest) /\
  (exists id,
     user_id (mgr (run (RC := scripted) (calls [CallFlush])
                       after_failed_fallback
                       [RBool true; RFail "404"; RId "u2"; RFail "503"])) =
       Some id /\
     (id = "u1" \/
      In (EvAddUser (RC := scripted) source_marker (Ok id))
         (trace (run (RC := scripted) (calls [CallFlush])
                     after_failed_fallback
                     [RBool true; RFail "404"; RId "u2"; RFail "503"]))) /\
     (truthy (Some id) = true ->
      exists rest,
        trace (run (RC := scripted) connect
                   (mgr (run (RC := scripted) (calls [CallFlush])
                             after_failed_fallback
                             [RBool true; RFail "404"; RId "u2";
                              RFail "503"]))
                   [RBool true; RUser "h2"]) =
        EvPing (RC := scripted) (Ok true)
          :: EvGetUser (RC := scripted) id
               (fst (client_get_user (RemoteClient := scripted) id
                                     [RUser "h2"]))
          :: rest)).
Proof.
  split; [reflexivity|].
  destruct (@failed_fallback_keeps_new_id scripted (init (Some "u0"))
              failed_fallback_script "u0"
              [RFail "404 user not found"; RId "u1"; RFail "503"]
              (Exception "404 user not found")
              [RId "u1"; RFail "503"] "u1" [RFail "503"]
              (Exception "503") []
              eq_refl eq_refl eq_refl eq_refl eq_refl eq_refl eq_refl)
    as (Ho & _ & Hid & _ & Hl & Hany).
  split; [exact Ho|]. split; [exact Hid|]. split.
  - exact (Hl [RBool true; RUser "h1"] [RUser "h1"] eq_refl eq_refl).
  - exact (Hany [CallFlush] [RBool true; RFail "404"; RId "u2"; RFail "503"]
                [RBool true; RUser "h2"] [RUser "h2"] eq_refl eq_refl).
Defined.

(** C10, as stated, fails in its last clause: a later connect on a service
    that is down stops at the ping and attempts no get_user at all; and a
    later connect on a manager whose new identifier is the empty string
    asks for another new user instead of fetching the stored one. *)
Lemma later_connect_without_get_user :
  user_id after_failed_fallback = Some "u1" /\
  _connected after_failed_fallback = false /\
  trace later_connect_service_down = ping_failed /\
  ~ (exists id r, In (EvGetUser id r) (trace later_connect_service_down)) /\
  user_id after_blank_fallback = Some "" /\
  trace later_connect_blank_id =
    [EvPing (RC := scripted) (Ok true);
     EvAddUser source_marker (Ok "u2");
     EvGetUser (RC := scripted) "u2" (Ok "h2");
     EvLog (mkLog INFO "Created new Memobase user: %s" [AStr "u2"])] /\
  ~ (exists r, In (EvGetUser "" r) (trace later_connect_blank_id)).
Proof.
  repeat split; try reflexivity.
  - intros (id & r & H). vm_compute in H.
    repeat (destruct H as [H | H]; [discriminate|]). exact H.
  - intros (r & H). vm_compute in H.
    repeat (destruct H as [H | H]; [discriminate|]). exact H.
Qed.

Example connect_callers_serialised_example :
  all_finished two_connects = true /\
  history two_connects =
    trace (run (RC := scripted) (times 2 connect) (init None) fresh_user_script)
  /\
  tasks two_connects = [Ret true; Ret true].
Proof. repeat split. Qed.



(** ** Scenarios for the branches of connect *)

Lemma connect_without_identifier_witness :
  truthy (user_id (init (RC := scripted) None)) = false /\
  truthy (user_id (init (RC := scripted) (Some ""))) = false /\
  run (RC := scripted) connect (init None) fresh_user_script =
    mkFinal (RC := scripted) (Returned true)
      (@mkManager scripted (Some "h1") (Some "u1") true) []
      [EvPing (RC := scripted) (Ok true);
       EvAddUser source_marker (Ok "u1");
       EvGetUser (RC := scripted) "u1" (Ok "h1");
       EvLog (mkLog INFO "Created new Memobase user: %s" [AStr "u1"])] /\
  run (RC := scripted) connect (init (Some "")) [RBool true; RFail "quota"] =
    mkFinal (RC := scripted) (Returned false) (init (Some "")) []
      [EvPing (RC := scripted) (Ok true);
       EvAddUser source_marker (Err (Exception "quota"));
       EvLog (mkLog ERROR "Error connecting to Memobase: %s"
                    [AErr (Exception "quota")])].
Proof.
  split; [reflexivity|]. split; [reflexivity|]. split.
  - exact (@connect_without_identifier scripted (init None) fresh_user_script
             [RId "u1"; RUser "h1"] (Ok "u1") [RUser "h1"]
             eq_refl eq_refl eq_refl eq_refl).
  - exact (@connect_without_identifier scripted (init (Some ""))
             [RBool true; RFail "quota"] [RFail "quota"]
             (Err (Exception "quota")) []
             eq_refl eq_refl eq_refl eq_refl).
Defined.

Lemma connect_existing_user_witness :
  truthy (Some "u0") = true /\
  run (RC := scripted) connect (init (Some "u0")) [RBool true; RUser "h0"] =
    mkFinal (RC := scripted) (Returned true)
      (@mkManager scripted (Some "h0") (Some "u0") true) []
      [EvPing (RC := scripted) (Ok true);
       EvGetUser (RC := scripted) "u0" (Ok "h0");
       EvLog (mkLog INFO "Connected to existing Memobase user: %s"
                    [AStr "u0"])].
Proof.
  split; [reflexivity|].
  exact (proj1 (@connect_existing_user scripted (init (Some "u0"))
                  [RBool true; RUser "h0"] "u0" [RUser "h0"] "h0" []
                  eq_refl eq_refl eq_refl eq_refl eq_refl)).
Defined.

Lemma ping_error_isolates_witness :
  client_ping (RemoteClient := scripted) [RFail "timeout"] =
    (Err (Exception "timeout"), []) /\
  run (RC := scripted) (call CallFlush) (init (Some "u0")) [RFail "timeout"] =
    mkFinal (RC := scripted) (Returned (VBool false)) (init (Some "u0")) []
      [EvPing (RC := scripted) (Err (Exception "timeout"));
       EvLog (mkLog ERROR "Error connecting to Memobase: %s"
                    [AErr (Exception "timeout")])].
Proof.
  split; [reflexivity|].
  exact (@ping_error_isolates scripted CallFlush (init (Some "u0"))
           [RFail "timeout"] (Exception "timeout") []
           eq_refl eq_refl eq_refl).
Defined.

Lemma failed_connect_footprint_witness :
  outcome (run (RC := scripted) connect (init (Some "u0"))
               failed_fallback_script) = Returned false /\
  user (mgr (run (RC := scripted) connect (init (Some "u0"))
                 failed_fallback_script)) = None /\
  _connected (mgr (run (RC := scripted) connect (init (Some "u0"))
                       failed_fallback_script)) = false.
Proof.
  split; [reflexivity|].
  destruct (@failed_connect_footprint scripted (init (Some "u0"))
              failed_fallback_script eq_refl) as (_ & Hc & Hu & _).
  split; [exact Hu | exact Hc].
Defined.

Lemma connect_failure_isolates_witness :
  outcome (run (RC := scripted) connect (init (Some "u0"))
               failed_fallback_script) = Returned false /\
  run (RC := scripted) (call (CallProfile None None)) (init (Some "u0"))
      failed_fallback_script =
    mkFinal (RC := scripted) (Returned (VText (Some "")))
      (mgr (run (RC := scripted) connect (init (Some "u0"))
                failed_fallback_script))
      (world (run (RC := scripted) connect (init (Some "u0"))
                  failed_fallback_script))
      (trace (run (RC := scripted) connect (init (Some "u0"))
                  failed_fallback_script)).
Proof.
  split; [reflexivity|].
  exact (@connect_failure_isolates scripted (CallProfile None None)
           (init (Some "u0")) failed_fallback_script eq_refl eq_refl).
Defined.

Lemma lazy_connect_witness :
  outcome (run (RC := scripted) connect (init None) session_script) =
    Returned true /\
  run (RC := scripted) (connect ;; call (CallStore "hi" "hello" (Some "Bot")))
      (init None) session_script =
    run (call (CallStore "hi" "hello" (Some "Bot"))) (init None)
        session_script.
Proof.
  split; [reflexivity|].
  exact (proj1 (proj2 (@lazy_connect scripted
                         (CallStore "hi" "hello" (Some "Bot")) (init None)
                         session_script eq_refl eq_refl))).
Defined.

Lemma session_frozen_witness :
  _connected session = true /\
  mgr (run (calls [CallStore "hi" "hello" None; CallFlush; CallConnect;
                   CallProfile None None; CallGetUserId])
           session [RFail "503"; RFail "503"]) = session /\
  mgr_at (run_cancelled 1
            (calls [CallStore "hi" "hello" None; CallFlush; CallConnect;
                    CallProfile None None; CallGetUserId])
            session [RFail "503"; RFail "503"]) = session.
Proof.
  split; [reflexivity|].
  destruct (@session_frozen scripted
              [CallStore "hi" "hello" None; CallFlush; CallConnect;
               CallProfile None None; CallGetUserId]
              session [RFail "503"; RFail "503"] eq_refl)
    as (_ & Hm & _ & Hn).
  split; [exact Hm | exact (proj1 (Hn 1))].
Defined.

Lemma flush_on_session_witness :
  reachable session /\
  _connected session = true /\
  outcome (run flush_buffer session [RDone]) = Returned true /\
  outcome (run flush_buffer session [RFail "503"; RDone]) = Returned false /\
  world (run flush_buffer session [RFail "503"; RDone]) = [RDone].
Proof.
  assert (Hr : reachable session)
    by (exists None, [CallConnect], fresh_user_script; reflexivity).
  split; [exact Hr|]. split; [reflexivity|].
  destruct (@flush_on_session scripted session [RDone] Hr eq_refl)
    as (h1 & Hu1 & _ & _ & H1).
  destruct (@flush_on_session scripted session [RFail "503"; RDone] Hr eq_refl)
    as (h2 & Hu2 & _ & Hw2 & H2).
  injection Hu1 as <-. injection Hu2 as <-.
  simpl in H1, H2, Hw2.
  split; [exact (proj1 H1)|]. split; [exact (proj1 H2) | exact Hw2].
Defined.

(** ** Scenarios for several callers *)

Lemma concurrent_calls_on_session_witness :
  _connected session = true /\
  shared (run_pool [0; 1; 0; 1]
            (spawn_calls store_and_profile session
                         [RDone; RText "likes cats"])) = session /\
  locked (run_pool [0; 1; 0; 1]
            (spawn_calls store_and_profile session
                         [RDone; RText "likes cats"])) = false.
Proof.
  split; [reflexivity|].
  destruct (@concurrent_calls_on_session scripted store_and_profile
              [0; 1; 0; 1] session [RDone; RText "likes cats"] eq_refl)
    as (H1 & H2 & _).
  split; [exact H1 | exact H2].
Defined.

Lemma connect_sequences_do_not_overlap_witness :
  _connected (init (RC := service_down) None) = false /\
  forallb needs_connection store_and_profile = true /\
  exists k rest,
    k <= length store_and_profile /\
    filter is_session
      (trace (run (RC := service_down) (times k connect) (init None) 0)) =
    filter is_session (history two_callers_waiting) ++ rest.
Proof.
  split; [reflexivity|]. split; [reflexivity|].
  exact (@connect_sequences_do_not_overlap service_down store_and_profile
           [0; 1] (init None) 0 eq_refl eq_refl).
Defined.

(** A manager whose flag is set while it holds no handle, which no sequence
    of public calls produces, logs an exception that no remote call
    raised. *)
Example missing_handle_is_logged :
  ~ explained_from None
      (trace (run (RC := scripted) flush_buffer
                  (@mkManager scripted None (Some "u1") true) [])).
Proof.
  cbn. intros [H _].
  apply (H (AttributeError "'NoneType' object has no attribute 'flush'")).
  split; [right; reflexivity | left; reflexivity].
Qed.

(** ** Scenarios of cancellation *)


(** The same on a connected manager: the cancelled call leaves the session
    as it was. *)
Example cancelled_store_keeps_session :
  mgr_at (run_cancelled (RC := scripted) 0
            (calls [CallStore "hi" "hello" None; CallFlush]) session
            [RDone; RDone]) = session /\
  exit (run_cancelled (RC := scripted) 0
          (calls [CallStore "hi" "hello" None; CallFlush]) session
          [RDone; RDone]) = CancelledError.
Proof. split; reflexivity. Qed.

(** After the failed fallback, one more failed fallback, made here by
    flush_buffer, overwrites the stored identifier again: the connect that
    comes later fetches the newest identifier. *)
Example later_fallback_overwrites_again :
  user_id (mgr (run (RC := scripted) (calls [CallFlush]) after_failed_fallback
                    [RBool true; RFail "404"; RId "u2"; RFail "503"])) =
    Some "u2" /\
  trace (run (RC := scripted) connect
             (mgr (run (RC := scripted) (calls [CallFlush])
                       after_failed_fallback
                       [RBool true; RFail "404"; RId "u2"; RFail "503"]))
             [RBool true; RUser "h2"]) =
    [EvPing (RC := scripted) (Ok true);
     EvGetUser (RC := scripted) "u2" (Ok "h2");
     EvLog (mkLog INFO "Connected to existing Memobase user: %s"
                  [AStr "u2"])].
Proof. split; reflexivity. Qed.

(** A program that switches the flag on before any handle has been
    answered is not careful. *)
Example flag_before_handle_is_not_careful :
  ~ careful (RC := scripted) (perform (Assign (set_connected true))) None
      (init None).
Proof.
  cbn. intros H. destruct (H []) as ((_ & _ & H3) & _).
  destruct (H3 eq_refl) as [H0 | (h & H0 & _)]; discriminate H0.
Qed.
